(** * Projectory: tag hierarchy, workspace history and suggestion engine

    A shallow embedding of the services of the Projectory extension
    (workspace-history-service, suggestion-service, project-metadata-service,
    tag-service, saved-projects-service, git-info-service) and of the
    by-tags tree builder of projects-tree-provider, with the properties
    of the history/suggestion engine and of the tag tree proved over it.

    JavaScript numbers are modelled as [Z] (timestamps, counters and
    priorities are integers far below 2^53), strings as [string] over
    8-bit code units, arrays as lists, [Record<string, T>] objects either
    as insertion-ordered association lists (where [Object.values] order
    is observed) or as [gmap string T] (where it is not).  Keys of such
    objects are file-system paths and tag names; none of them is taken
    to be an array index or a property of [Object.prototype]. *)

From Stdlib Require Import ZArith Ascii String List Sorted Permutation Lia.
From stdpp Require Import base decidable option list sorting strings pretty gmap fin_maps.

Local Open Scope string_scope.
Local Open Scope list_scope.
Local Open Scope Z_scope.

(** ** JavaScript built-ins used by the services *)

Module Js.

Section ArraySort.
Context {A : Type} (compareFn : A -> A -> Z).

(** [Array.prototype.sort(compareFn)] is stable: [a] stays before [b]
    unless [compareFn a b > 0].  [sort_insert x l] puts [x], which
    preceded every element of [l] in the input, in front of the first
    [y] with [compareFn x y <= 0]. *)
Fixpoint sort_insert (x : A) (l : list A) : list A :=
  match l with
  | [] => [x]
  | y :: ys => if compareFn x y <=? 0 then x :: y :: ys
               else y :: sort_insert x ys
  end.

Fixpoint sort (l : list A) : list A :=
  match l with
  | [] => []
  | x :: xs => sort_insert x (sort xs)
  end.
End ArraySort.

(** [Array.prototype.includes] with strict equality. *)
Definition includes {A : Type} `{EqDecision A} (l : list A) (x : A) : bool :=
  bool_decide (x ∈ l).

(** [Array.prototype.some] and [Array.prototype.every]. *)
Definition some {A : Type} (l : list A) (p : A -> bool) : bool := existsb p l.
Definition every {A : Type} (l : list A) (p : A -> bool) : bool := forallb p l.

(** [Array.prototype.slice(n)]. *)
Definition slice {A : Type} (n : nat) (l : list A) : list A := drop n l.

(** [String.prototype.startsWith]. *)
Definition startsWith (s p : string) : bool := String.prefix p s.

(** [String.prototype.endsWith]. *)
Fixpoint endsWith (s suffix : string) : bool :=
  if String.eqb s suffix then true
  else match s with
       | EmptyString => false
       | String _ r => endsWith r suffix
       end.

(** [String.prototype.includes]. *)
Fixpoint str_includes (s sub : string) : bool :=
  if String.prefix sub s then true
  else match s with
       | EmptyString => false
       | String _ r => str_includes r sub
       end.

Fixpoint str_drop (n : nat) (s : string) : string :=
  match n, s with
  | O, _ => s
  | S n', String _ r => str_drop n' r
  | S _, EmptyString => EmptyString
  end.

(** [String.prototype.replace(pattern, replacement)] with a string
    pattern: only the first occurrence is replaced. *)
Fixpoint replace (s pattern replacement : string) : string :=
  if String.prefix pattern s
  then String.append replacement (str_drop (String.length pattern) s)
  else match s with
       | EmptyString => EmptyString
       | String c r => String c (replace r pattern replacement)
       end.

(** [String.prototype.split(sep)] for a one-character separator. *)
Fixpoint split (s : string) (sep : ascii) : list string :=
  match s with
  | EmptyString => [EmptyString]
  | String c r =>
      if Ascii.eqb c sep then EmptyString :: split r sep
      else match split r sep with
           | [] => [String c EmptyString]
           | h :: t => String c h :: t
           end
  end.

(** White space and line terminators removed by [String.prototype.trim]
    (those below U+0100: TAB, LF, VT, FF, CR, SP, NBSP). *)
Definition isWhiteSpace (c : ascii) : bool :=
  let n := nat_of_ascii c in
  ((9 <=? n)%nat && (n <=? 13)%nat) || (n =? 32)%nat || (n =? 160)%nat.

Fixpoint trimStart (s : string) : string :=
  match s with
  | EmptyString => EmptyString
  | String c r => if isWhiteSpace c then trimStart r else s
  end.

(** [trimEnd s] keeps a character when it is not white space or when
    something is kept after it. *)
Fixpoint trimEnd (s : string) : string :=
  match s with
  | EmptyString => EmptyString
  | String c r =>
      match trimEnd r with
      | EmptyString => if isWhiteSpace c then EmptyString else String c EmptyString
      | r' => String c r'
      end
  end.

Definition trim (s : string) : string := trimEnd (trimStart s).

End Js.

(** ** Types (src/types/index.ts and the service interfaces) *)

Record Worktree := {
  wt_name : string;
  wt_path : string;
  wt_branch : string;
  wt_isMain : bool
}.

Record Project := {
  name : string;
  path : string;
  worktrees : option (list Worktree);
  hasWorktrees : bool
}.

Record SavedProject := {
  sp_name : string;
  sp_path : string;
  savedAt : Z
}.

Record PostponedSuggestion := {
  ps_path : string;
  postponedAt : Z
}.

Record RecentFolder := {
  rf_name : string;
  rf_path : string;
  rf_lastOpened : Z;
  rf_openCount : Z
}.

Record ProjectTag := {
  tag_name : string;
  priority : Z
}.

Record ProjectMetadata := { tagIds : list string }.

Record WorkspaceHistoryEntry := {
  he_path : string;
  lastOpened : Z;
  openCount : Z;
  firstOpened : Z
}.

Record SuggestionConfig := {
  enabled : bool;
  minOpenCount : Z;
  timePeriodDays : Z
}.

Inductive SortOrder := recent | alphabetical.
Inductive SortDirection := asc | desc.

#[export] Instance Worktree_eq_dec : EqDecision Worktree.
Proof. solve_decision. Defined.
#[export] Instance Project_eq_dec : EqDecision Project.
Proof. solve_decision. Defined.
#[export] Instance ProjectTag_eq_dec : EqDecision ProjectTag.
Proof. solve_decision. Defined.
#[export] Instance WorkspaceHistoryEntry_eq_dec : EqDecision WorkspaceHistoryEntry.
Proof. solve_decision. Defined.
#[export] Instance PostponedSuggestion_eq_dec : EqDecision PostponedSuggestion.
Proof. solve_decision. Defined.

(** ** Plain objects used as string-keyed records

    [Record<string, V>] with its insertion order: [Object.values]
    enumerates the bindings in the order their keys were first set,
    assignment to an existing key keeps its position, [delete] removes
    the binding. *)

Module Obj.
Section Obj.
Context {V : Type}.

Fixpoint get (o : list (string * V)) (k : string) : option V :=
  match o with
  | [] => None
  | (k', v) :: r => if String.eqb k' k then Some v else get r k
  end.

Fixpoint set (o : list (string * V)) (k : string) (v : V) : list (string * V) :=
  match o with
  | [] => [(k, v)]
  | (k', v') :: r =>
      if String.eqb k' k then (k', v) :: r else (k', v') :: set r k v
  end.

Definition delete (o : list (string * V)) (k : string) : list (string * V) :=
  List.filter (fun kv => negb (String.eqb (fst kv) k)) o.

Definition keys (o : list (string * V)) : list string := List.map fst o.
Definition values (o : list (string * V)) : list V := List.map snd o.
End Obj.
End Obj.

(** ** Host platform

    Functions of Node's [path] module and of the JavaScript engine's
    locale support; they depend on the operating system and the locale
    the extension host runs with. *)

Class Platform := {
  path_sep : ascii;
  path_join : string -> string -> string;
  path_basename : string -> string;
  localeCompare : string -> string -> Z;
  toLowerCase : string -> string
}.

(** ** File system, as seen through [fs.statSync], [fs.readFileSync]
    and [fs.existsSync] *)

Inductive FsNode :=
| FsFile (content : option string)   (* [None]: the file cannot be read *)
| FsDirectory.

Definition FileSystem := string -> option FsNode.

Definition existsSync (fs : FileSystem) (p : string) : bool :=
  match fs p with Some _ => true | None => false end.

(** ** Persisted global state ([vscode.Memento]) *)

Inductive MementoKey :=
| WORKSPACE_HISTORY_KEY
| IGNORED_SUGGESTIONS_KEY
| POSTPONED_SUGGESTIONS_KEY
| SAVED_PROJECTS_KEY
| EXCLUDED_PATHS_KEY
| METADATA_KEY.

(** One field per key; [updates] logs every call of [globalState.update]. *)
Record Memento := {
  workspaceHistory : list (string * WorkspaceHistoryEntry);
  ignoredSuggestionPaths : list string;
  postponedSuggestions : list PostponedSuggestion;
  savedProjects : list SavedProject;
  excludedPaths : list string;
  projectMetadata : gmap string ProjectMetadata;
  updates : list MementoKey
}.

Definition update_workspaceHistory (v : list (string * WorkspaceHistoryEntry))
    (st : Memento) : Memento :=
  {| workspaceHistory := v;
     ignoredSuggestionPaths := ignoredSuggestionPaths st;
     postponedSuggestions := postponedSuggestions st;
     savedProjects := savedProjects st;
     excludedPaths := excludedPaths st;
     projectMetadata := projectMetadata st;
     updates := updates st ++ [WORKSPACE_HISTORY_KEY] |}.

Definition update_postponedSuggestions (v : list PostponedSuggestion)
    (st : Memento) : Memento :=
  {| workspaceHistory := workspaceHistory st;
     ignoredSuggestionPaths := ignoredSuggestionPaths st;
     postponedSuggestions := v;
     savedProjects := savedProjects st;
     excludedPaths := excludedPaths st;
     projectMetadata := projectMetadata st;
     updates := updates st ++ [POSTPONED_SUGGESTIONS_KEY] |}.

Definition update_projectMetadata (v : gmap string ProjectMetadata)
    (st : Memento) : Memento :=
  {| workspaceHistory := workspaceHistory st;
     ignoredSuggestionPaths := ignoredSuggestionPaths st;
     postponedSuggestions := postponedSuggestions st;
     savedProjects := savedProjects st;
     excludedPaths := excludedPaths st;
     projectMetadata := v;
     updates := updates st ++ [METADATA_KEY] |}.

(** ** git-info-service: [isWorktreePath] *)

Section GitInfo.
Context `{Platform}.

(** A linked worktree has [.git] as a FILE containing "gitdir: path".
    A failing [statSync] or [readFileSync] is caught and yields [false]. *)
Definition isWorktreePath (fs : FileSystem) (folderPath : string) : bool :=
  let gitPath := path_join folderPath ".git" in
  match fs gitPath with
  | Some (FsFile (Some raw)) =>
      let content := Js.trim raw in
      Js.startsWith content "gitdir:"
  | _ => false
  end.
End GitInfo.

(** ** workspace-history-service *)

Definition MAX_HISTORY_ENTRIES : nat := 100.

(** Comparator [(a, b) => b.lastOpened - a.lastOpened]. *)
Definition byLastOpenedDesc (a b : WorkspaceHistoryEntry) : Z :=
  lastOpened b - lastOpened a.

Section WorkspaceHistoryService.
Context `{Platform}.

Definition getHistory (st : Memento) : list (string * WorkspaceHistoryEntry) :=
  workspaceHistory st.

(** Prune history to keep only MAX_HISTORY_ENTRIES most recent entries. *)
Definition pruneHistory (history : list (string * WorkspaceHistoryEntry))
    : list (string * WorkspaceHistoryEntry) :=
  let entries := Obj.values history in
  if (length entries <=? MAX_HISTORY_ENTRIES)%nat then history
  else
    let sorted := Js.sort byLastOpenedDesc entries in
    let toRemove := Js.slice MAX_HISTORY_ENTRIES sorted in
    fold_left (fun h entry => Obj.delete h (he_path entry)) toRemove history.

(** Lines 62-73 of [recordOpen]: bump the existing entry in place, or
    add a fresh one. *)
Definition touchEntry (now : Z) (folderPath : string)
    (history : list (string * WorkspaceHistoryEntry))
    : list (string * WorkspaceHistoryEntry) :=
  match Obj.get history folderPath with
  | Some existing =>
      Obj.set history folderPath
        {| he_path := he_path existing;
           lastOpened := now;
           openCount := openCount existing + 1;
           firstOpened := firstOpened existing |}
  | None =>
      Obj.set history folderPath
        {| he_path := folderPath;
           lastOpened := now;
           openCount := 1;
           firstOpened := now |}
  end.

(** Record that a folder was opened.  Skips recording for worktrees. *)
Definition recordOpen (fs : FileSystem) (now : Z) (folderPath : string)
    (st : Memento) : Memento :=
  if isWorktreePath fs folderPath then st
  else
    let history := getHistory st in
    let history := touchEntry now folderPath history in
    let history := pruneHistory history in
    update_workspaceHistory history st.

(** [workspaceFolders] is the list of open workspace folders
    ([undefined] and the empty array both as [[]]). *)
Definition recordCurrentWorkspace (fs : FileSystem) (now : Z)
    (workspaceFolders : list string) (st : Memento) : Memento :=
  match workspaceFolders with
  | [] => st
  | folderPath :: _ =>
      if isWorktreePath fs folderPath then st
      else recordOpen fs now folderPath st
  end.

Definition removeFromHistory (folderPath : string) (st : Memento) : Memento :=
  let history := getHistory st in
  update_workspaceHistory (Obj.delete history folderPath) st.

Definition getHistorySorted (st : Memento) : list WorkspaceHistoryEntry :=
  Js.sort byLastOpenedDesc (Obj.values (getHistory st)).

Definition getEntry (folderPath : string) (st : Memento)
    : option WorkspaceHistoryEntry :=
  Obj.get (getHistory st) folderPath.

Definition getLastOpened (folderPath : string) (st : Memento) : option Z :=
  lastOpened <$> Obj.get (getHistory st) folderPath.

(** Returns the new state and whether an entry was created. *)
Definition initializeTimestamp (folderPath : string) (timestamp : Z)
    (st : Memento) : Memento * bool :=
  let history := getHistory st in
  match Obj.get history folderPath with
  | Some _ => (st, false)
  | None =>
      (update_workspaceHistory
         (Obj.set history folderPath
            {| he_path := folderPath;
               lastOpened := timestamp;
               openCount := 0;
               firstOpened := timestamp |}) st, true)
  end.

Definition getFrequentFolders (minOpenCount : Z) (st : Memento)
    : list WorkspaceHistoryEntry :=
  List.filter (fun entry => minOpenCount <=? openCount entry)
              (getHistorySorted st).

(** *** Sorting projects *)

Definition sortProjectsByRecent (projects : list Project) (st : Memento)
    : list Project :=
  let history := getHistory st in
  let time p := default 0 (lastOpened <$> Obj.get history (path p)) in
  Js.sort (fun a b => time b - time a) projects.

Definition sortProjectsByName (projects : list Project) : list Project :=
  Js.sort (fun a b => localeCompare (toLowerCase (name a)) (toLowerCase (name b)))
          projects.

Definition sortProjects (projects : list Project) (sortOrder : SortOrder)
    (sortDirection : SortDirection) (st : Memento) : list Project :=
  let '(sorted, needsReverse) :=
    match sortOrder with
    | alphabetical =>
        (sortProjectsByName projects,
         match sortDirection with desc => true | asc => false end)
    | recent =>
        (sortProjectsByRecent projects st,
         match sortDirection with asc => true | desc => false end)
    end in
  if needsReverse then rev sorted else sorted.

(** *** Recent folders *)

(** [entry.path.startsWith(projectPath + path.sep)] for some project. *)
Definition isSubfolder (projectPaths : list string) (entryPath : string) : bool :=
  existsb (fun projectPath =>
             Js.startsWith entryPath
               (String.append projectPath (String path_sep EmptyString)))
          projectPaths.

(** Lines 136-147: a path part ending in [.worktrees] whose base name,
    obtained by [part.replace('.worktrees', '')], is a project name. *)
Definition isWorktreeFolder (projectNames : list string) (entryPath : string) : bool :=
  if Js.str_includes entryPath ".worktrees" then
    existsb (fun part =>
               if Js.endsWith part ".worktrees" then
                 let baseName := Js.replace part ".worktrees" EmptyString in
                 Js.includes projectNames baseName
               else false)
            (Js.split entryPath path_sep)
  else false.

(** The loop of [getRecentFolders] over the sorted history: the folders
    kept and the paths marked for removal. *)
Fixpoint recentLoop (fs : FileSystem) (projectPaths projectNames : list string)
    (history : list WorkspaceHistoryEntry) : list RecentFolder * list string :=
  match history with
  | [] => ([], [])
  | entry :: rest =>
      let '(folders, pathsToRemove) :=
        recentLoop fs projectPaths projectNames rest in
      if negb (existsSync fs (he_path entry)) then
        (folders, he_path entry :: pathsToRemove)
      else if Js.includes projectPaths (he_path entry) then
        (folders, pathsToRemove)
      else if isSubfolder projectPaths (he_path entry) then
        (folders, pathsToRemove)
      else if isWorktreeFolder projectNames (he_path entry) then
        (folders, pathsToRemove)
      else
        ({| rf_name := path_basename (he_path entry);
            rf_path := he_path entry;
            rf_lastOpened := lastOpened entry;
            rf_openCount := openCount entry |} :: folders,
         pathsToRemove)
  end.

Definition getRecentFolders (fs : FileSystem) (excludeProjects : list Project)
    (st : Memento) : list RecentFolder * Memento :=
  let history := getHistorySorted st in
  let projectPaths := List.map path excludeProjects in
  let projectNames := List.map name excludeProjects in
  let '(folders, pathsToRemove) :=
    recentLoop fs projectPaths projectNames history in
  (folders, fold_left (fun s p => removeFromHistory p s) pathsToRemove st).
End WorkspaceHistoryService.

(** ** saved-projects-service *)

Definition getSavedProjects (fs : FileSystem) (st : Memento) : list SavedProject :=
  let saved := savedProjects st in
  List.filter (fun p => existsSync fs (sp_path p)) saved.

Definition isSaved (fs : FileSystem) (folderPath : string) (st : Memento) : bool :=
  Js.some (getSavedProjects fs st) (fun p => String.eqb (sp_path p) folderPath).

(** ** suggestion-service *)

Definition POSTPONE_DURATION_DAYS : Z := 7.

Definition getIgnoredPaths (st : Memento) : list string :=
  ignoredSuggestionPaths st.

Definition getPostponedSuggestions (st : Memento) : list PostponedSuggestion :=
  postponedSuggestions st.

(** Postpone a suggestion for later: any existing entry for the path is
    replaced by one stamped with the current time. *)
Definition postponeSuggestion (now : Z) (folderPath : string) (st : Memento) : Memento :=
  let postponed := getPostponedSuggestions st in
  let filtered :=
    List.filter (fun p => negb (String.eqb (ps_path p) folderPath)) postponed in
  update_postponedSuggestions
    (filtered ++ [{| ps_path := folderPath; postponedAt := now |}]) st.

Definition unpostponePath (folderPath : string) (st : Memento) : Memento :=
  let postponed := getPostponedSuggestions st in
  update_postponedSuggestions
    (List.filter (fun p => negb (String.eqb (ps_path p) folderPath)) postponed) st.

(** Check if a postponed suggestion has expired. *)
Definition isPostponeExpired (now : Z) (suggestion : PostponedSuggestion) : bool :=
  let expireTime := postponedAt suggestion + POSTPONE_DURATION_DAYS * 24 * 60 * 60 * 1000 in
  expireTime <? now.

(** Clean up expired postponements. *)
Definition cleanupExpiredPostponements (now : Z) (st : Memento) : Memento :=
  let postponed := getPostponedSuggestions st in
  let stillValid := List.filter (fun p => negb (isPostponeExpired now p)) postponed in
  if negb (length stillValid =? length postponed)%nat
  then update_postponedSuggestions stillValid st
  else st.

Section SuggestionService.
Context `{Platform}.

(** Get folders eligible for suggestion; also returns the state left by
    the clean-up of expired postponements. *)
Definition getSuggestibleFolders (fs : FileSystem) (now : Z)
    (config : SuggestionConfig) (st : Memento)
    : list WorkspaceHistoryEntry * Memento :=
  if negb (enabled config) then ([], st)
  else
    let st := cleanupExpiredPostponements now st in
    let periodStart := now - timePeriodDays config * 24 * 60 * 60 * 1000 in
    let ignoredPaths := getIgnoredPaths st in
    let postponedPaths :=
      List.map ps_path
        (List.filter (fun s => negb (isPostponeExpired now s))
                     (getPostponedSuggestions st)) in
    let savedProjects := getSavedProjects fs st in
    let savedPaths := List.map sp_path savedProjects in
    let frequentFolders := getFrequentFolders (minOpenCount config) st in
    (List.filter
       (fun entry =>
          if Js.includes savedPaths (he_path entry) then false
          else if Js.includes ignoredPaths (he_path entry) then false
          else if Js.includes postponedPaths (he_path entry) then false
          else if lastOpened entry <? periodStart then false
          else if negb (existsSync fs (he_path entry)) then false
          else if isWorktreePath fs (he_path entry) then false
          else true)
       frequentFolders,
     st).

(** [currentPath] is the first workspace folder, if any. *)
Definition checkCurrentWorkspace (fs : FileSystem) (now : Z)
    (config : SuggestionConfig) (currentPath : option string) (st : Memento)
    : option WorkspaceHistoryEntry * Memento :=
  match currentPath with
  | None => (None, st)
  | Some currentPath =>
      let '(suggestible, st) := getSuggestibleFolders fs now config st in
      (List.find (fun entry => String.eqb (he_path entry) currentPath) suggestible, st)
  end.
End SuggestionService.

(** ** project-metadata-service *)

Module ProjectMetadataService.

Definition getAll (st : Memento) : gmap string ProjectMetadata :=
  projectMetadata st.

Definition saveAll (data : gmap string ProjectMetadata) (st : Memento) : Memento :=
  update_projectMetadata data st.

Definition getMetadata (projectPath : string) (st : Memento) : ProjectMetadata :=
  let all := getAll st in
  default {| tagIds := [] |} (all !! projectPath).

Definition getTags (projectPath : string) (st : Memento) : list string :=
  tagIds (getMetadata projectPath st).

Definition setTags (projectPath : string) (tagIds : list string) (st : Memento)
    : Memento :=
  let all := getAll st in
  let all :=
    if (length tagIds =? 0)%nat then delete projectPath all
    else <[projectPath := {| tagIds := tagIds |}]> all in
  saveAll all st.

(** [tags.push(tagId)] appends to the array read by [getTags]; the array
    is then stored again under the same path by [setTags]. *)
Definition addTag (projectPath tagId : string) (st : Memento) : Memento :=
  let tags := getTags projectPath st in
  if negb (Js.includes tags tagId)
  then setTags projectPath (tags ++ [tagId]) st
  else st.

Definition removeTag (projectPath tagId : string) (st : Memento) : Memento :=
  let tags := getTags projectPath st in
  let filtered := List.filter (fun id => negb (String.eqb id tagId)) tags in
  setTags projectPath filtered st.

Definition hasTag (projectPath tagId : string) (st : Memento) : bool :=
  Js.includes (getTags projectPath st) tagId.

Definition getUntaggedProjects (allProjectPaths : list string) (st : Memento)
    : list string :=
  let all := getAll st in
  List.filter
    (fun path =>
       match all !! path with
       | None => true
       | Some meta => (length (tagIds meta) =? 0)%nat
       end)
    allProjectPaths.

End ProjectMetadataService.

(** ** tag-service *)

Section TagService.
Context `{Platform}.

(** [tagsConfig] is the [projectory.tags] setting, name -> priority. *)
Definition getTags (tagsConfig : list (string * Z)) : list ProjectTag :=
  List.map (fun '(name, priority) => {| tag_name := name; priority := priority |})
           tagsConfig.

Definition getTag (tagsConfig : list (string * Z)) (name : string)
    : option ProjectTag :=
  match Obj.get tagsConfig name with
  | None => None
  | Some priority => Some {| tag_name := name; priority := priority |}
  end.

Definition getTagsByPriority (tagsConfig : list (string * Z)) (p : Z)
    : list ProjectTag :=
  Js.sort (fun a b => localeCompare (tag_name a) (tag_name b))
          (List.filter (fun t => priority t =? p) (getTags tagsConfig)).
End TagService.

(** ** projects-tree-provider: the by-tags view *)

(** The settings read through [getConfig] and [projectory.tags]. *)
Record ProjectoryConfig := {
  groupingDepth : Z;
  sortOrder : SortOrder;
  sortDirection : SortDirection;
  tags : list (string * Z)
}.

(** Fields of [ProjectsTreeProvider] read by the tag hierarchy. *)
Record ProjectsTreeProvider := {
  _projects : list Project;
  _filterTagIds : list string;
  currentWorkspacePath : option string
}.

(** The tree elements produced by the tag hierarchy, with their
    constructor arguments. *)
Inductive ProjectsTreeElement :=
| TagTreeItem (tag : ProjectTag) (displayName : string) (tagPath : list string)
    (projectCount : nat) (hasChildren : bool)
| UntaggedTreeItem (projectCount : nat)
| ProjectTreeItem (project : Project) (isSaved isCurrent : bool)
    (tagDescription : option string).

Definition UNTAGGED : string := "__untagged__".

Section TreeProvider.
Context `{Platform}.
Variable fs : FileSystem.
Variable config : ProjectoryConfig.
Variable st : Memento.
Variable this : ProjectsTreeProvider.

(** Get projects that have ALL specified tags. *)
Definition getProjectsWithAllTags (tagIds : list string) : list Project :=
  List.filter
    (fun project =>
       let projectTags := ProjectMetadataService.getTags (path project) st in
       Js.every tagIds (fun tagId => Js.includes projectTags tagId))
    (_projects this).

Definition getProjectCountWithTags (tagIds : list string) : nat :=
  length (getProjectsWithAllTags tagIds).

(** Get count of projects that match the tagPath AND at least one filter tag. *)
Definition getFilteredProjectCountUnderTag (tagPath filterTagIds : list string) : nat :=
  length
    (List.filter
       (fun project =>
          let projectTags := ProjectMetadataService.getTags (path project) st in
          let hasPathTags := Js.every tagPath (fun tagId => Js.includes projectTags tagId) in
          if negb hasPathTags then false
          else Js.some filterTagIds (fun filterId => Js.includes projectTags filterId))
       (_projects this)).

(** [filterTagNames]: the filter without the untagged marker. *)
Definition filterTagNames : list string :=
  List.filter (fun name => negb (String.eqb name UNTAGGED)) (_filterTagIds this).

(** Get root elements for tag hierarchy view (priority 0 tags). *)
Definition getTagHierarchyRoot : list ProjectsTreeElement :=
  let allPaths := List.map path (_projects this) in
  let untaggedPaths := ProjectMetadataService.getUntaggedProjects allPaths st in
  if (0 <? length (_filterTagIds this))%nat then
    let hasUntaggedFilter := Js.includes (_filterTagIds this) UNTAGGED in
    let items :=
      if hasUntaggedFilter && (0 <? length untaggedPaths)%nat
      then [UntaggedTreeItem (length untaggedPaths)] else [] in
    let filterTagNames := filterTagNames in
    if (0 <? length filterTagNames)%nat then
      let rootTags := getTagsByPriority (tags config) 0 in
      items ++
      flat_map
        (fun rootTag =>
           let count :=
             getFilteredProjectCountUnderTag [tag_name rootTag] filterTagNames in
           if (0 <? count)%nat then
             let isFilterTag := Js.includes filterTagNames (tag_name rootTag) in
             let hasChildren := negb isFilterTag && (0 <? groupingDepth config) in
             [TagTreeItem rootTag (tag_name rootTag) [tag_name rootTag] count hasChildren]
           else [])
        rootTags
    else items
  else
    let rootTags := getTagsByPriority (tags config) 0 in
    flat_map
      (fun tag =>
         let count := getProjectCountWithTags [tag_name tag] in
         if (0 <? count)%nat then
           let hasChildren := 0 <? groupingDepth config in
           [TagTreeItem tag (tag_name tag) [tag_name tag] count hasChildren]
         else [])
      rootTags
    ++ (if (0 <? length untaggedPaths)%nat
        then [UntaggedTreeItem (length untaggedPaths)] else []).

(** The loop of [getTagChildren] over the tags of the next priority
    level: the sub-tag items pushed and the paths added to
    [groupedProjectPaths]. *)
Fixpoint subTagLoop (tagPath : list string) (nextPriority : Z)
    (nextLevelTags : list ProjectTag) : list ProjectsTreeElement * list string :=
  match nextLevelTags with
  | [] => ([], [])
  | tag :: rest =>
      let newTagPath := tagPath ++ [tag_name tag] in
      let '(items, grouped) :=
        if (0 <? length filterTagNames)%nat then
          let isFilterTag := Js.includes filterTagNames (tag_name tag) in
          let matchingProjects :=
            List.filter
              (fun p =>
                 let pTags := ProjectMetadataService.getTags (path p) st in
                 Js.some filterTagNames (fun fn => Js.includes pTags fn))
              (getProjectsWithAllTags newTagPath) in
          if (0 <? length matchingProjects)%nat then
            let hasMoreChildren :=
              negb isFilterTag && (nextPriority <? groupingDepth config) in
            ([TagTreeItem tag (tag_name tag) newTagPath
                (length matchingProjects) hasMoreChildren],
             if isFilterTag then List.map path matchingProjects else [])
          else ([], [])
        else
          let matchingProjects := getProjectsWithAllTags newTagPath in
          if (0 <? length matchingProjects)%nat then
            let hasMoreChildren := nextPriority <? groupingDepth config in
            ([TagTreeItem tag (tag_name tag) newTagPath
                (length matchingProjects) hasMoreChildren],
             List.map path matchingProjects)
          else ([], []) in
      let '(items', grouped') := subTagLoop tagPath nextPriority rest in
      (items ++ items', grouped ++ grouped')
  end.

(** Description shown next to a project: its tags outside the tag path
    that are still registered, each in brackets. *)
Definition tagDescriptionOf (tagPath : list string) (project : Project)
    : option string :=
  let projectTagNames := ProjectMetadataService.getTags (path project) st in
  let remainingTags :=
    List.map tag_name
      (omap (fun name => getTag (tags config) name)
         (List.filter (fun name => negb (Js.includes tagPath name)) projectTagNames)) in
  if (0 <? length remainingTags)%nat
  then Some (String.concat " "
               (List.map (fun n => String.append "[" (String.append n "]")) remainingTags))
  else None.

(** Get children of a tag based on priority-based grouping.  When a
    filter is active, only show the path to filtered tags. *)
Definition getTagChildren (parentTag : ProjectTag) (tagPath : list string)
    : list ProjectsTreeElement :=
  let currentPath := currentWorkspacePath this in
  let currentPriority := priority parentTag in
  let nextPriority := currentPriority + 1 in
  let isFiltered := (0 <? length filterTagNames)%nat in
  let projectsWithAllTags := getProjectsWithAllTags tagPath in
  let '(items, groupedProjectPaths) :=
    if currentPriority <? groupingDepth config then
      subTagLoop tagPath nextPriority (getTagsByPriority (tags config) nextPriority)
    else ([], []) in
  let projectsAtThisLevel :=
    List.filter
      (fun project =>
         if Js.includes groupedProjectPaths (path project) then false
         else if isFiltered then
           let projectTags := ProjectMetadataService.getTags (path project) st in
           let matchesFilter :=
             Js.some filterTagNames (fun fn => Js.includes projectTags fn) in
           let currentIsFilter := Js.includes filterTagNames (tag_name parentTag) in
           if negb matchesFilter || negb currentIsFilter then false else true
         else true)
      projectsWithAllTags in
  let sortedProjects :=
    sortProjects projectsAtThisLevel (sortOrder config) (sortDirection config) st in
  items ++
  List.map
    (fun project =>
       ProjectTreeItem project
         (isSaved fs (path project) st)
         (bool_decide (Some (path project) = currentPath))
         (tagDescriptionOf tagPath project))
    sortedProjects.
End TreeProvider.

(** * The remaining operations of the services *)

(** ** Persisted global state: the other keys *)

Definition update_ignoredSuggestionPaths (v : list string) (st : Memento) : Memento :=
  {| workspaceHistory := workspaceHistory st;
     ignoredSuggestionPaths := v;
     postponedSuggestions := postponedSuggestions st;
     savedProjects := savedProjects st;
     excludedPaths := excludedPaths st;
     projectMetadata := projectMetadata st;
     updates := updates st ++ [IGNORED_SUGGESTIONS_KEY] |}.

Definition update_savedProjects (v : list SavedProject) (st : Memento) : Memento :=
  {| workspaceHistory := workspaceHistory st;
     ignoredSuggestionPaths := ignoredSuggestionPaths st;
     postponedSuggestions := postponedSuggestions st;
     savedProjects := v;
     excludedPaths := excludedPaths st;
     projectMetadata := projectMetadata st;
     updates := updates st ++ [SAVED_PROJECTS_KEY] |}.

Definition update_excludedPaths (v : list string) (st : Memento) : Memento :=
  {| workspaceHistory := workspaceHistory st;
     ignoredSuggestionPaths := ignoredSuggestionPaths st;
     postponedSuggestions := postponedSuggestions st;
     savedProjects := savedProjects st;
     excludedPaths := v;
     projectMetadata := projectMetadata st;
     updates := updates st ++ [EXCLUDED_PATHS_KEY] |}.

(** ** workspace-history-service: [clearHistory] *)

Definition clearHistory (st : Memento) : Memento := update_workspaceHistory [] st.

(** ** saved-projects-service: saving, removing, excluding *)

Definition getExcludedPaths (st : Memento) : list string := excludedPaths st.

Definition excludePath (folderPath : string) (st : Memento) : Memento :=
  let excluded := getExcludedPaths st in
  if negb (Js.includes excluded folderPath)
  then update_excludedPaths (excluded ++ [folderPath]) st
  else st.

Definition unexcludePath (folderPath : string) (st : Memento) : Memento :=
  let excluded := getExcludedPaths st in
  update_excludedPaths
    (List.filter (fun p => negb (String.eqb p folderPath)) excluded) st.

Definition isExcluded (folderPath : string) (st : Memento) : bool :=
  Js.includes (getExcludedPaths st) folderPath.

Definition clearExcludedPaths (st : Memento) : Memento := update_excludedPaths [] st.

Section SavedProjectsService.
Context `{Platform}.

(** [saved] is the list returned by [getSavedProjects], without the
    projects whose folder is gone; that list is stored back. *)
Definition saveProject (fs : FileSystem) (now : Z) (folderPath : string)
    (st : Memento) : Memento :=
  let saved := getSavedProjects fs st in
  if Js.some saved (fun p => String.eqb (sp_path p) folderPath) then st
  else
    let st :=
      update_savedProjects
        (saved ++ [{| sp_name := path_basename folderPath;
                      sp_path := folderPath;
                      savedAt := now |}]) st in
    unexcludePath folderPath st.
End SavedProjectsService.

Definition removeSavedProject (fs : FileSystem) (folderPath : string)
    (st : Memento) : Memento :=
  let saved := getSavedProjects fs st in
  update_savedProjects
    (List.filter (fun p => negb (String.eqb (sp_path p) folderPath)) saved) st.


(** ** suggestion-service: ignoring, answering a suggestion *)

Definition ignorePath (folderPath : string) (st : Memento) : Memento :=
  let ignored := getIgnoredPaths st in
  if negb (Js.includes ignored folderPath)
  then update_ignoredSuggestionPaths (ignored ++ [folderPath]) st
  else st.

Definition unignorePath (folderPath : string) (st : Memento) : Memento :=
  let ignored := getIgnoredPaths st in
  update_ignoredSuggestionPaths
    (List.filter (fun p => negb (String.eqb p folderPath)) ignored) st.

(** The button chosen in the notification; [Dismissed] is [undefined]. *)
Inductive SuggestionAnswer := Save | Later | Ignore | Dismissed.

Section ShowSuggestion.
Context `{Platform}.

(** [showSuggestion] with the user's answer and the time it is given;
    [shownThisSession] is the set of paths already shown. *)
Definition showSuggestion (fs : FileSystem) (now : Z)
    (entry : WorkspaceHistoryEntry) (answer : SuggestionAnswer)
    (shownThisSession : list string) (st : Memento) : list string * Memento :=
  if Js.includes shownThisSession (he_path entry) then (shownThisSession, st)
  else
    let shownThisSession := shownThisSession ++ [he_path entry] in
    match answer with
    | Save =>
        let st := saveProject fs now (he_path entry) st in
        (shownThisSession, unpostponePath (he_path entry) st)
    | Later => (shownThisSession, postponeSuggestion now (he_path entry) st)
    | Ignore => (shownThisSession, ignorePath (he_path entry) st)
    | Dismissed => (shownThisSession, st)
    end.
End ShowSuggestion.

(** ** project-metadata-service: tags across all projects *)

Module MetadataAll.
Import ProjectMetadataService.

(** [tagIds.splice(tagIds.indexOf(x), 1)]: the first occurrence goes. *)
Fixpoint removeFirst (x : string) (l : list string) : list string :=
  match l with
  | [] => []
  | y :: r => if String.eqb y x then r else y :: removeFirst x r
  end.

(** [tagIds[tagIds.indexOf(x)] = y]: the first occurrence is replaced. *)
Fixpoint replaceFirst (x y : string) (l : list string) : list string :=
  match l with
  | [] => []
  | z :: r => if String.eqb z x then y :: r else z :: replaceFirst x y r
  end.

(** Remove a tag from all projects (used when deleting a tag). *)
Definition clearTagFromAll (tagName : string) (st : Memento) : Memento :=
  let all := getAll st in
  let changed :=
    bool_decide (map_Exists (fun _ meta => tagName ∈ tagIds meta) all) in
  let all :=
    omap (fun meta =>
            if Js.includes (tagIds meta) tagName then
              let ids := removeFirst tagName (tagIds meta) in
              if (length ids =? 0)%nat then None else Some {| tagIds := ids |}
            else Some meta)
         all in
  if changed then saveAll all st else st.

(** Rename a tag across all projects (used when renaming a tag). *)
Definition renameTagInAll (oldName newName : string) (st : Memento) : Memento :=
  let all := getAll st in
  let changed :=
    bool_decide (map_Exists (fun _ meta => oldName ∈ tagIds meta) all) in
  let all :=
    (fun meta =>
       if Js.includes (tagIds meta) oldName
       then {| tagIds := replaceFirst oldName newName (tagIds meta) |}
       else meta) <$> all in
  if changed then saveAll all st else st.

(** Clean up metadata for non-existent projects. *)
Definition cleanup (existingPaths : list string) (st : Memento) : Memento :=
  let all := getAll st in
  let changed :=
    bool_decide (map_Exists (fun path _ => path ∉ existingPaths) all) in
  let all := filter (fun kv => kv.1 ∈ existingPaths) all in
  if changed then saveAll all st else st.

Definition resetAll (st : Memento) : Memento := update_projectMetadata ∅ st.

End MetadataAll.

(** ** tag-service: editing the tag registry

    The registry is the [projectory.tags] setting; each operation takes
    the setting and returns the one it saves. *)

Module TagRegistry.

Definition exists_ (tagsConfig : list (string * Z)) (name : string) : bool :=
  match Obj.get tagsConfig name with Some _ => true | None => false end.


(** Returns the setting and the name for updating references. *)
Definition renameTag (tagsConfig : list (string * Z)) (oldName newName : string)
    : list (string * Z) * string :=
  let trimmedNewName := Js.trim newName in
  match Obj.get tagsConfig oldName with
  | None => (tagsConfig, oldName)
  | Some priority =>
      (Obj.set (Obj.delete tagsConfig oldName) trimmedNewName priority,
       trimmedNewName)
  end.


Definition deleteTag (tagsConfig : list (string * Z)) (name : string)
    : list (string * Z) :=
  Obj.delete tagsConfig name.

(** [Array.from(new Set(l))]: first occurrences, in order. *)
Definition distinct (l : list Z) : list Z :=
  fold_left (fun seen x => if Js.includes seen x then seen else seen ++ [x]) l [].

(** Get all unique priority levels (sorted). *)
Definition getPriorityLevels (tagsConfig : list (string * Z)) : list Z :=
  Js.sort (fun a b => a - b)
    (distinct (List.map (fun '(_, priority) => priority) tagsConfig)).

(** Get maximum priority level used; [-1] without tags. *)
Definition getMaxPriority (tagsConfig : list (string * Z)) : Z :=
  match List.map (fun '(_, priority) => priority) tagsConfig with
  | [] => -1
  | p :: ps => fold_left Z.max ps p
  end.

End TagRegistry.

(** ** tag-commands: deleting and renaming a tag *)

(** [deleteTagCommand] once confirmed. *)
Definition deleteTagCommand (tagName : string) (tagsConfig : list (string * Z))
    (st : Memento) : list (string * Z) * Memento :=
  let st := MetadataAll.clearTagFromAll tagName st in
  (TagRegistry.deleteTag tagsConfig tagName, st).

(** [renameTagCommand] with the text of the input box ([None] when the
    box is cancelled). *)
Definition renameTagCommand (oldName : string) (newName : option string)
    (tagsConfig : list (string * Z)) (st : Memento) : list (string * Z) * Memento :=
  match newName with
  | None => (tagsConfig, st)
  | Some newName =>
      if (String.length newName =? 0)%nat then (tagsConfig, st)
      else if String.eqb (Js.trim newName) oldName then (tagsConfig, st)
      else
        let '(tagsConfig, trimmedNewName) :=
          TagRegistry.renameTag tagsConfig oldName (Js.trim newName) in
        (tagsConfig, MetadataAll.renameTagInAll oldName trimmedNewName st)
  end.

(** ** projects-tree-provider: project list, flat view, untagged group,
    drag and drop *)

(** A [ProjectTreeItem] as built by [createProjectTreeItem], with all
    constructor arguments. *)
Record ProjectItem := {
  item_project : Project;
  item_isSaved : bool;
  item_isCurrent : bool;
  item_tagDescription : option string;
  item_isWorktreeCurrent : bool
}.

Inductive DropTarget :=
| DropOnProjectsRoot
| DropOnTag (tagPath : list string)
| DropOnUntagged
| DropElsewhere.

Section ProjectList.
Context `{Platform}.

Definition findProjectByPath (this : ProjectsTreeProvider) (p : string)
    : option Project :=
  List.find (fun pr => String.eqb (path pr) p) (_projects this).

(** Check if current workspace is one of the project's worktrees. *)
Definition isProjectWorktreeCurrent (project : Project) (currentPath : option string)
    : bool :=
  match currentPath, worktrees project with
  | Some currentPath, Some ws =>
      if (String.length currentPath =? 0)%nat then false
      else Js.some ws (fun w => String.eqb (wt_path w) currentPath)
  | _, _ => false
  end.

Definition createProjectTreeItem (fs : FileSystem) (config : ProjectoryConfig)
    (st : Memento) (project : Project) (currentPath : option string)
    (showTags : bool) : ProjectItem :=
  let tagDescription :=
    if showTags then
      let tagIds := ProjectMetadataService.getTags (path project) st in
      if (0 <? length tagIds)%nat then
        let tagNames := omap (fun id => tag_name <$> getTag (tags config) id) tagIds in
        if (0 <? length tagNames)%nat
        then Some (String.concat " "
                     (List.map (fun n => String.append "[" (String.append n "]")) tagNames))
        else None
      else None
    else None in
  {| item_project := project;
     item_isSaved := isSaved fs (path project) st;
     item_isCurrent := bool_decide (Some (path project) = currentPath);
     item_tagDescription := tagDescription;
     item_isWorktreeCurrent := isProjectWorktreeCurrent project currentPath |}.


(** Children of the untagged group. *)
Definition getUntaggedProjects (fs : FileSystem) (config : ProjectoryConfig)
    (st : Memento) (this : ProjectsTreeProvider) : list ProjectItem :=
  let currentPath := currentWorkspacePath this in
  let allPaths := List.map path (_projects this) in
  let untaggedPaths := ProjectMetadataService.getUntaggedProjects allPaths st in
  let untaggedProjects := omap (fun p => findProjectByPath this p) untaggedPaths in
  let sorted :=
    sortProjects untaggedProjects (sortOrder config) (sortDirection config) st in
  List.map (fun project => createProjectTreeItem fs config st project currentPath false)
           sorted.


(** [saveRecentAsProjects] of [handleDrop]; a dragged item is its path
    and whether it comes from the recent folders. *)
Definition saveRecentAsProjects (fs : FileSystem) (now : Z)
    (dragged : list (string * bool)) (targetTagIds : option (list string))
    (st : Memento) : Memento :=
  fold_left
    (fun st '(p, isFromRecent) =>
       let st := if (isFromRecent : bool) then saveProject fs now p st else st in
       match targetTagIds with
       | Some tagIds =>
           fold_left (fun st tagId => ProjectMetadataService.addTag p tagId st) tagIds st
       | None => st
       end)
    dragged st.

(** The effect of [handleDrop] on the store; [transfer] is [None] when
    the drop carries no item of this view. *)
Definition handleDrop (fs : FileSystem) (now : Z) (target : DropTarget)
    (transfer : option (list (string * bool))) (st : Memento) : Memento :=
  match transfer with
  | None => st
  | Some dragged =>
      match target with
      | DropOnProjectsRoot => saveRecentAsProjects fs now dragged None st
      | DropOnTag tagPath => saveRecentAsProjects fs now dragged (Some tagPath) st
      | DropOnUntagged =>
          let st := saveRecentAsProjects fs now dragged None st in
          fold_left (fun st '(p, _) => ProjectMetadataService.setTags p [] st)
            dragged st
      | DropElsewhere => st
      end
  end.
End ProjectList.

(** * Vocabulary of the properties *)

(** ** Suggestions *)

Definition unexpired (now : Z) (s : PostponedSuggestion) : bool :=
  negb (isPostponeExpired now s).

Section Eligibility.
Context `{Platform}.

(** The eligibility test applied to one history entry. *)
Definition eligible (fs : FileSystem) (now : Z) (config : SuggestionConfig)
    (st : Memento) (e : WorkspaceHistoryEntry) : Prop :=
  enabled config = true /\
  minOpenCount config <= openCount e /\
  (he_path e ∉ List.map sp_path (getSavedProjects fs st)) /\
  (he_path e ∉ getIgnoredPaths st) /\
  (forall s, s ∈ getPostponedSuggestions st ->
             isPostponeExpired now s = false -> ps_path s <> he_path e) /\
  now - timePeriodDays config * 24 * 60 * 60 * 1000 <= lastOpened e /\
  existsSync fs (he_path e) = true /\
  isWorktreePath fs (he_path e) = false.
End Eligibility.

(** ** Workspace history *)

(** Every binding is keyed by the path of its entry, and keys are
    distinct: they are the property names of one object. *)
Definition historyWf (h : list (string * WorkspaceHistoryEntry)) : Prop :=
  NoDup (Obj.keys h) /\ Forall (fun kv => he_path kv.2 = kv.1) h.

#[local] Instance historyWf_dec (h : list (string * WorkspaceHistoryEntry)) :
  Decision (historyWf h).
Proof. unfold historyWf. apply _. Defined.

(** The entry [recordOpen] leaves for the folder, from the one it found. *)
Definition touched (now : Z) (folderPath : string)
    (existing : option WorkspaceHistoryEntry) : WorkspaceHistoryEntry :=
  match existing with
  | Some e =>
      {| he_path := he_path e; lastOpened := now;
         openCount := openCount e + 1; firstOpened := firstOpened e |}
  | None =>
      {| he_path := folderPath; lastOpened := now;
         openCount := 1; firstOpened := now |}
  end.

(** The paths deleted by [pruneHistory]. *)
Definition prunedPaths (h : list (string * WorkspaceHistoryEntry)) : list string :=
  if (length (Obj.values h) <=? MAX_HISTORY_ENTRIES)%nat then []
  else List.map he_path
         (drop MAX_HISTORY_ENTRIES (Js.sort byLastOpenedDesc (Obj.values h))).

Section RecentFolderTest.
Context `{Platform}.

(** The test an entry passes to be listed by [getRecentFolders]. *)
Definition listedAsRecent (fs : FileSystem) (projectPaths projectNames : list string)
    (entry : WorkspaceHistoryEntry) : bool :=
  existsSync fs (he_path entry)
  && negb (Js.includes projectPaths (he_path entry))
  && negb (isSubfolder projectPaths (he_path entry))
  && negb (isWorktreeFolder projectNames (he_path entry)).

Definition toRecentFolder (entry : WorkspaceHistoryEntry) : RecentFolder :=
  {| rf_name := path_basename (he_path entry);
     rf_path := he_path entry;
     rf_lastOpened := lastOpened entry;
     rf_openCount := openCount entry |}.
End RecentFolderTest.

(** ** Tag tree *)

(** What a list of tree elements shows. *)
Definition shownTags (items : list ProjectsTreeElement) : list ProjectTag :=
  omap (fun i => match i with TagTreeItem t _ _ _ _ => Some t | _ => None end) items.

Definition listedProjects (items : list ProjectsTreeElement) : list Project :=
  omap (fun i => match i with ProjectTreeItem p _ _ _ => Some p | _ => None end) items.

Definition showsUntaggedGroup (items : list ProjectsTreeElement) : Prop :=
  exists n, UntaggedTreeItem n ∈ items.

(** A project carries a tag when the tag name is among the tags stored
    for the project's path. *)
Definition carries (st : Memento) (p : Project) (tagName : string) : Prop :=
  tagName ∈ ProjectMetadataService.getTags (path p) st.

Definition carriesAll (st : Memento) (p : Project) (tagPath : list string) : Prop :=
  forall n, n ∈ tagPath -> carries st p n.

Definition untagged (st : Memento) (p : Project) : Prop :=
  ProjectMetadataService.getTags (path p) st = [].

Section TagChildrenParts.
Context `{Platform}.
Variable config : ProjectoryConfig.
Variable st : Memento.
Variable this : ProjectsTreeProvider.

Abbreviation filterNames := (filterTagNames this).
Abbreviation isFiltered := ((0 <? length (filterTagNames this))%nat).

(** A project matches the filter when it carries one of the filter tags. *)
Definition matchesFilter (p : Project) : bool :=
  Js.some filterNames
    (fun fn => Js.includes (ProjectMetadataService.getTags (path p) st) fn).

(** [matchingProjects] of the loop body, for one tag of the next level. *)
Definition subTagMatches (tagPath : list string) (tag : ProjectTag) : list Project :=
  if isFiltered
  then List.filter matchesFilter
         (getProjectsWithAllTags st this (tagPath ++ [tag_name tag]))
  else getProjectsWithAllTags st this (tagPath ++ [tag_name tag]).

(** The item pushed for a next-level tag with matching projects. *)
Definition subTagItem (tagPath : list string) (nextPriority : Z) (tag : ProjectTag)
    : ProjectsTreeElement :=
  TagTreeItem tag (tag_name tag) (tagPath ++ [tag_name tag])
    (length (subTagMatches tagPath tag))
    (if isFiltered
     then negb (Js.includes filterNames (tag_name tag))
          && (nextPriority <? groupingDepth config)
     else nextPriority <? groupingDepth config).

(** The paths a next-level tag adds to [groupedProjectPaths]. *)
Definition subTagGrouped (tagPath : list string) (tag : ProjectTag) : list string :=
  if (0 <? length (subTagMatches tagPath tag))%nat
  then (if isFiltered
        then (if Js.includes filterNames (tag_name tag)
              then List.map path (subTagMatches tagPath tag) else [])
        else List.map path (subTagMatches tagPath tag))
  else [].

(** The two parts of the children of a tag node. *)
Definition subTagsOf (parentTag : ProjectTag) (tagPath : list string)
    : list ProjectTag :=
  if priority parentTag <? groupingDepth config
  then List.filter (fun t => (0 <? length (subTagMatches tagPath t))%nat)
         (getTagsByPriority (tags config) (priority parentTag + 1))
  else [].

Definition groupedPathsOf (parentTag : ProjectTag) (tagPath : list string)
    : list string :=
  if priority parentTag <? groupingDepth config
  then flat_map (subTagGrouped tagPath)
         (getTagsByPriority (tags config) (priority parentTag + 1))
  else [].
End TagChildrenParts.

(** The tag items built at the root, for a count function. *)
Definition rootTagItems (count : ProjectTag -> nat) (hasChildren : ProjectTag -> bool)
    (rootTags : list ProjectTag) : list ProjectsTreeElement :=
  flat_map
    (fun t => if (0 <? count t)%nat
              then [TagTreeItem t (tag_name t) [tag_name t] (count t) (hasChildren t)]
              else [])
    rootTags.

(** ** The remaining operations *)

(** The time [sortProjectsByRecent] sorts a project by. *)
Definition lastOpenedOf (st : Memento) (p : Project) : Z :=
  default 0 (lastOpened <$> Obj.get (getHistory st) (path p)).

(** The folder is opened once at each of the given times. *)
Definition recordOpens `{Platform} (fs : FileSystem) (times : list Z)
    (folderPath : string) (st : Memento) : Memento :=
  fold_left (fun st now => recordOpen fs now folderPath st) times st.

(** * Concrete inputs *)

(** ** A concrete host: POSIX paths and ordinal string comparison,
    for evaluating the services on concrete inputs *)

Module Posix.
Definition sep : ascii := "/"%char.

(** [path.join] on a directory without trailing separator and a plain
    file name. *)
Definition join (a b : string) : string :=
  String.append a (String sep b).

Definition basename (p : string) : string :=
  List.last (Js.split p sep) EmptyString.

Definition compare (a b : string) : Z :=
  match String.compare a b with
  | Lt => -1
  | Eq => 0
  | Gt => 1
  end.

Definition lower (c : ascii) : ascii :=
  let n := nat_of_ascii c in
  if ((65 <=? n) && (n <=? 90))%nat then ascii_of_nat (n + 32) else c.

Fixpoint toLower (s : string) : string :=
  match s with
  | EmptyString => EmptyString
  | String c r => String (lower c) (toLower r)
  end.

Definition platform : Platform :=
  {| path_sep := sep;
     path_join := join;
     path_basename := basename;
     localeCompare := compare;
     toLowerCase := toLower |}.
End Posix.

(** The empty store. *)
Definition emptyMemento : Memento :=
  {| workspaceHistory := [];
     ignoredSuggestionPaths := [];
     postponedSuggestions := [];
     savedProjects := [];
     excludedPaths := [];
     projectMetadata := ∅;
     updates := [] |}.

(** A repository [/repo] with a linked worktree [/repo.worktrees/feat]. *)
Definition worktreeFs : FileSystem :=
  fun p =>
    if String.eqb p "/repo.worktrees/feat/.git"
    then Some (FsFile (Some "gitdir: /repo/.git/worktrees/feat"))
    else if String.eqb p "/repo.worktrees/feat" then Some FsDirectory
    else None.

(** ** Histories *)

(** The store after [initializeTimestamp] has run for [n] newly
    discovered projects [/p0], [/p1], ..., project [i] with the commit
    date [timestamp i]. *)
Definition discovered (n : nat) (timestamp : nat -> Z) : Memento :=
  fold_left
    (fun st i => (initializeTimestamp (String.append "/p" (pretty i)) (timestamp i) st).1)
    (seq 0 n) emptyMemento.

(** 101 projects discovered, with commit dates 0, 1, ..., 100. *)
Definition crowded : Memento := discovered 101 Z.of_nat.

(** 100 projects discovered whose last commits are dated 5000. *)
Definition futureDated : Memento := discovered 100 (fun _ => 5000).

(** One discovered folder, last committed at time 10. *)
Definition oneFolder : Memento :=
  (initializeTimestamp "/a" 10 emptyMemento).1.

(** A project folder [/r/a.worktrees-old] with the folder
    [/r/a.worktrees-old.worktrees/feat] of one of its worktrees next to
    it, and a history in which that folder was opened. *)
Definition renamedFs : FileSystem :=
  fun p =>
    if String.eqb p "/r/a.worktrees-old" then Some FsDirectory
    else if String.eqb p "/r/a.worktrees-old.worktrees/feat" then Some FsDirectory
    else None.

Definition renamedProject : Project :=
  {| name := "a.worktrees-old"; path := "/r/a.worktrees-old";
     worktrees := None; hasWorktrees := false |}.

Definition renamedHistory : Memento :=
  (initializeTimestamp "/r/a.worktrees-old.worktrees/feat" 10 emptyMemento).1.

(** ** Suggestions *)

Definition day : Z := 24 * 60 * 60 * 1000.

(** Folders [/s/a] (opened 6 times, yesterday), [/s/b] (opened twice),
    [/s/c] (opened 9 times, postponed two days ago), [/s/d] (opened 7
    times, postponed eight days ago) and [/s/gone] (opened 8 times, no
    longer on disk), seen at day 100. *)
Definition suggestionFs : FileSystem :=
  fun p =>
    if String.eqb p "/s/a" || String.eqb p "/s/b" || String.eqb p "/s/c"
       || String.eqb p "/s/d"
    then Some FsDirectory else None.

Definition suggestionStore : Memento :=
  {| workspaceHistory :=
       [("/s/a", {| he_path := "/s/a"; lastOpened := 99 * day; openCount := 6;
                    firstOpened := 50 * day |});
        ("/s/b", {| he_path := "/s/b"; lastOpened := 98 * day; openCount := 2;
                    firstOpened := 97 * day |});
        ("/s/c", {| he_path := "/s/c"; lastOpened := 98 * day; openCount := 9;
                    firstOpened := 60 * day |});
        ("/s/d", {| he_path := "/s/d"; lastOpened := 97 * day; openCount := 7;
                    firstOpened := 60 * day |});
        ("/s/gone", {| he_path := "/s/gone"; lastOpened := 99 * day + 1;
                       openCount := 8; firstOpened := 60 * day |})];
     ignoredSuggestionPaths := [];
     postponedSuggestions :=
       [{| ps_path := "/s/c"; postponedAt := 98 * day |};
        {| ps_path := "/s/d"; postponedAt := 92 * day - 1 |}];
     savedProjects := [];
     excludedPaths := [];
     projectMetadata := ∅;
     updates := [] |}.

Definition suggestionConfig : SuggestionConfig :=
  {| enabled := true; minOpenCount := 5; timePeriodDays := 14 |}.

(** ** A tag tree *)

Definition exampleConfig : ProjectoryConfig :=
  {| groupingDepth := 1;
     sortOrder := alphabetical;
     sortDirection := asc;
     tags := [("Frontend", 0); ("Backend", 0); ("React", 1); ("Vue", 1)] |}.

Definition project (n p : string) : Project :=
  {| name := n; path := p; worktrees := None; hasWorktrees := false |}.

Definition exampleProjects : list Project :=
  [project "web" "/w/web"; project "api" "/w/api";
   project "tool" "/w/tool"; project "site" "/w/site"].

Definition exampleStore : Memento :=
  {| workspaceHistory := [];
     ignoredSuggestionPaths := [];
     postponedSuggestions := [];
     savedProjects := [];
     excludedPaths := [];
     projectMetadata :=
       <["/w/web" := {| tagIds := ["Frontend"; "React"] |}]>
         (<["/w/api" := {| tagIds := ["Backend"] |}]>
            (<["/w/site" := {| tagIds := ["Frontend"] |}]> ∅));
     updates := [] |}.

Definition unfilteredTree : ProjectsTreeProvider :=
  {| _projects := exampleProjects; _filterTagIds := []; currentWorkspacePath := None |}.

Definition filteredTree : ProjectsTreeProvider :=
  {| _projects := exampleProjects; _filterTagIds := ["React"];
     currentWorkspacePath := None |}.

Definition noFs : FileSystem := fun _ => None.

(** The history entry of [/s/a] in [suggestionStore]. *)
Definition suggestedEntry : WorkspaceHistoryEntry :=
  {| he_path := "/s/a"; lastOpened := 99 * day; openCount := 6;
     firstOpened := 50 * day |}.

(** A stricter configuration: more opens asked for, a shorter period. *)
Definition strictConfig : SuggestionConfig :=
  {| enabled := true; minOpenCount := 7; timePeriodDays := 2 |}.

(** * Properties *)

(** ** Arrays and strings *)

Lemma includes_true {A : Type} `{EqDecision A} (l : list A) (x : A) :
  Js.includes l x = true <-> x ∈ l.
Proof. unfold Js.includes. apply bool_decide_eq_true. Qed.

Lemma includes_false {A : Type} `{EqDecision A} (l : list A) (x : A) :
  Js.includes l x = false <-> x ∉ l.
Proof. unfold Js.includes. apply bool_decide_eq_false. Qed.

Lemma elem_of_filter_bool {A : Type} (f : A -> bool) (l : list A) (x : A) :
  x ∈ List.filter f l <-> x ∈ l /\ f x = true.
Proof. rewrite !list_elem_of_In. apply filter_In. Qed.

Lemma elem_of_map_iff {A B : Type} (f : A -> B) (l : list A) (y : B) :
  y ∈ List.map f l <-> exists x, f x = y /\ x ∈ l.
Proof.
  rewrite list_elem_of_In, in_map_iff.
  split; intros (x & ? & ?); exists x; split; auto; by apply list_elem_of_In.
Qed.

Lemma some_true {A : Type} (l : list A) (p : A -> bool) :
  Js.some l p = true <-> exists x, x ∈ l /\ p x = true.
Proof.
  unfold Js.some. rewrite existsb_exists.
  split; intros (x & ? & ?); exists x; split; auto; by apply list_elem_of_In.
Qed.

Lemma every_true {A : Type} (l : list A) (p : A -> bool) :
  Js.every l p = true <-> forall x, x ∈ l -> p x = true.
Proof.
  unfold Js.every. rewrite forallb_forall.
  split; intros Hall x Hx; apply Hall; by apply list_elem_of_In.
Qed.

Lemma filter_bool_length_eq {A : Type} (f : A -> bool) (l : list A) :
  length (List.filter f l) = length l -> List.filter f l = l.
Proof.
  induction l as [|a l IH]; simpl; [done|].
  destruct (f a); simpl; intros Hlen.
  - f_equal. apply IH. lia.
  - pose proof (filter_length_le f l). lia.
Qed.

Lemma filter_bool_all {A : Type} (f : A -> bool) (l : list A) :
  (forall x, x ∈ l -> f x = true) -> List.filter f l = l.
Proof.
  induction l as [|a l IH]; simpl; intros Hall; [done|].
  rewrite (Hall a) by left. f_equal. apply IH. intros x Hx. apply Hall. by right.
Qed.

Lemma filter_bool_sublist {A : Type} (f : A -> bool) (l : list A) :
  sublist (List.filter f l) l.
Proof.
  induction l as [|a l IH]; simpl; [constructor|].
  destruct (f a); by constructor.
Qed.

Lemma filter_bool_perm {A : Type} (f : A -> bool) (l1 l2 : list A) :
  l1 ≡ₚ l2 -> List.filter f l1 ≡ₚ List.filter f l2.
Proof.
  induction 1 as [|x l l' _ IH|x y l|l l' l'' _ IH1 _ IH2]; simpl.
  - done.
  - destruct (f x); [by constructor|done].
  - destruct (f x), (f y); try done. apply perm_swap.
  - by etrans.
Qed.

Section SortFacts.
Context {A : Type} (compareFn : A -> A -> Z).

Lemma sort_insert_perm x l : Js.sort_insert compareFn x l ≡ₚ x :: l.
Proof.
  induction l as [|y l IH]; simpl; [done|].
  case_match; [done|]. rewrite IH. apply perm_swap.
Qed.

(** Sorting rearranges the array and nothing else. *)
Lemma sort_perm l : Js.sort compareFn l ≡ₚ l.
Proof.
  induction l as [|x l IH]; simpl; [done|].
  by rewrite sort_insert_perm, IH.
Qed.

Lemma elem_of_sort x l : x ∈ Js.sort compareFn l <-> x ∈ l.
Proof. by rewrite sort_perm. Qed.

Lemma sort_length l : length (Js.sort compareFn l) = length l.
Proof. by rewrite sort_perm. Qed.

(** For a comparator that is a total preorder the result is sorted. *)
Hypothesis compare_total : forall a b, compareFn a b <= 0 \/ compareFn b a <= 0.
Hypothesis compare_trans :
  forall a b c, compareFn a b <= 0 -> compareFn b c <= 0 -> compareFn a c <= 0.

Let before (a b : A) : Prop := compareFn a b <= 0.

Lemma sort_insert_sorted x l :
  StronglySorted before l -> StronglySorted before (Js.sort_insert compareFn x l).
Proof.
  induction 1 as [|y l Hs IH Hall]; simpl.
  - repeat constructor.
  - destruct (Z.leb_spec (compareFn x y) 0) as [Hle|Hgt].
    + constructor; [by constructor|].
      constructor; [done|].
      eapply Forall_impl; [exact Hall|]. intros z Hz. by eapply compare_trans.
    + constructor; [done|].
      rewrite sort_insert_perm. constructor; [|done].
      destruct (compare_total x y); [lia|done].
Qed.

Lemma sort_sorted l : StronglySorted before (Js.sort compareFn l).
Proof.
  induction l as [|x l IH]; simpl; [constructor|]. by apply sort_insert_sorted.
Qed.
End SortFacts.

Lemma StronglySorted_weaken {A : Type} (R1 R2 : A -> A -> Prop) (l : list A) :
  (forall a b, R1 a b -> R2 a b) -> StronglySorted R1 l -> StronglySorted R2 l.
Proof.
  intros Himp. induction 1 as [|x l _ IH Hall]; constructor; [done|].
  eapply Forall_impl; [exact Hall|]. auto.
Qed.

Lemma byLastOpenedDesc_sorted (l : list WorkspaceHistoryEntry) :
  StronglySorted (fun a b => lastOpened b <= lastOpened a)
                 (Js.sort byLastOpenedDesc l).
Proof.
  eapply StronglySorted_weaken; [|apply (sort_sorted byLastOpenedDesc)].
  all: unfold byLastOpenedDesc; intros; lia.
Qed.

Lemma prefix_inv (p s : string) :
  String.prefix p s = true -> exists r, s = String.append p r.
Proof.
  revert s. induction p as [|a p IH]; intros s Hp.
  - by exists s.
  - destruct s as [|b s]; simpl in Hp; [done|].
    destruct (ascii_dec a b) as [->|]; [|done].
    destruct (IH s Hp) as [r ->]. by exists r.
Qed.

Lemma prefix_append (p r : string) : String.prefix p (String.append p r) = true.
Proof.
  induction p as [|a p IH]; simpl; [by destruct r|].
  by destruct (ascii_dec a a).
Qed.

Lemma trimEnd_cons (c : ascii) (r : string) :
  Js.isWhiteSpace c = false ->
  Js.trimEnd (String c r) = String c (Js.trimEnd r).
Proof. intros Hc. simpl. destruct (Js.trimEnd r); by rewrite ?Hc. Qed.

(** Trimming leaves a leading [gitdir:] in place. *)
Lemma trim_gitdir (raw : string) :
  Js.startsWith raw "gitdir:" = true ->
  Js.startsWith (Js.trim raw) "gitdir:" = true.
Proof.
  unfold Js.startsWith. intros Hp.
  destruct (prefix_inv _ _ Hp) as [r ->].
  unfold Js.trim.
  change (String.append "gitdir:" r)
    with (String "g" (String "i" (String "t" (String "d"
            (String "i" (String "r" (String ":" r))))))).
  cbn [Js.trimStart].
  replace (Js.isWhiteSpace "g") with false by reflexivity.
  rewrite !trimEnd_cons by reflexivity.
  apply (prefix_append "gitdir:").
Qed.

(** ** The services on the concrete inputs *)

Example suggestible_at_day_100 :
  (getSuggestibleFolders (H := Posix.platform) suggestionFs (100 * day)
     suggestionConfig suggestionStore).1
  = [{| he_path := "/s/a"; lastOpened := 99 * day; openCount := 6;
        firstOpened := 50 * day |};
     {| he_path := "/s/d"; lastOpened := 97 * day; openCount := 7;
        firstOpened := 60 * day |}].
Proof. vm_compute. reflexivity. Qed.

Example cleanup_at_day_100 :
  postponedSuggestions (cleanupExpiredPostponements (100 * day) suggestionStore)
  = [{| ps_path := "/s/c"; postponedAt := 98 * day |}]
  /\ updates (cleanupExpiredPostponements (100 * day) suggestionStore)
     = [POSTPONED_SUGGESTIONS_KEY]
  /\ cleanupExpiredPostponements (90 * day) suggestionStore = suggestionStore.
Proof. repeat split; vm_compute; reflexivity. Qed.

Example expiry_boundary :
  isPostponeExpired (7 * day) {| ps_path := "/s/c"; postponedAt := 0 |} = false
  /\ isPostponeExpired (7 * day + 1) {| ps_path := "/s/c"; postponedAt := 0 |} = true.
Proof. split; reflexivity. Qed.

Example recordOpen_existing_folder :
  workspaceHistory
    (recordOpen (H := Posix.platform) worktreeFs 1000 "/a" oneFolder)
  = [("/a", {| he_path := "/a"; lastOpened := 1000; openCount := 1; firstOpened := 10 |})]
  /\ workspaceHistory
       (recordOpen (H := Posix.platform) worktreeFs 1000 "/b" oneFolder)
     = [("/a", {| he_path := "/a"; lastOpened := 10; openCount := 0; firstOpened := 10 |});
        ("/b", {| he_path := "/b"; lastOpened := 1000; openCount := 1;
                  firstOpened := 1000 |})].
Proof. split; vm_compute; reflexivity. Qed.

Example addTag_then_getTags :
  ProjectMetadataService.getTags "/w/api"
    (ProjectMetadataService.addTag "/w/api" "Vue" exampleStore) = ["Backend"; "Vue"]
  /\ ProjectMetadataService.getTags "/w/api"
       (ProjectMetadataService.removeTag "/w/api" "Backend" exampleStore) = []
  /\ ProjectMetadataService.getTags "/w/tool"
       (ProjectMetadataService.addTag "/w/tool" "Vue" exampleStore) = ["Vue"].
Proof. repeat split; vm_compute; reflexivity. Qed.

(** ** Linked worktrees are not recorded *)

Section WorktreeNoop.
Context `{Platform}.

(** C9. [recordOpen], and hence [recordCurrentWorkspace], on a folder
    whose [.git] is a readable file starting with [gitdir:] returns the
    persisted state as it was: the workspace history, every other key
    and the log of store updates are unchanged. *)
Theorem recordOpen_linked_worktree_noop
    (fs : FileSystem) (now : Z) (folderPath raw : string) (st : Memento) :
  fs (path_join folderPath ".git") = Some (FsFile (Some raw)) ->
  Js.startsWith raw "gitdir:" = true ->
  isWorktreePath fs folderPath = true /\
  recordOpen fs now folderPath st = st /\
  forall others, recordCurrentWorkspace fs now (folderPath :: others) st = st.
Proof.
  intros Hgit Hraw.
  assert (Hwt : isWorktreePath fs folderPath = true).
  { unfold isWorktreePath. rewrite Hgit. by apply trim_gitdir. }
  split; [done|]. split.
  - unfold recordOpen. by rewrite Hwt.
  - intros others. unfold recordCurrentWorkspace. by rewrite Hwt.
Qed.
End WorktreeNoop.

Lemma recordOpen_linked_worktree_noop_witness :
  isWorktreePath (H := Posix.platform) worktreeFs "/repo.worktrees/feat" = true /\
  recordOpen (H := Posix.platform) worktreeFs 1000 "/repo.worktrees/feat" emptyMemento
    = emptyMemento /\
  forall others,
    recordCurrentWorkspace (H := Posix.platform) worktreeFs 1000
      ("/repo.worktrees/feat" :: others) emptyMemento = emptyMemento.
Proof.
  apply (recordOpen_linked_worktree_noop (H := Posix.platform) worktreeFs 1000
           "/repo.worktrees/feat" "gitdir: /repo/.git/worktrees/feat" emptyMemento);
    reflexivity.
Defined.

(** ** Postponed suggestions *)

Lemma isPostponeExpired_iff (now : Z) (s : PostponedSuggestion) :
  isPostponeExpired now s = true <-> now > postponedAt s + 7 * 24 * 60 * 60 * 1000.
Proof. unfold isPostponeExpired, POSTPONE_DURATION_DAYS. rewrite Z.ltb_lt. lia. Qed.

Lemma cleanup_postponed (now : Z) (st : Memento) :
  postponedSuggestions (cleanupExpiredPostponements now st)
  = List.filter (unexpired now) (postponedSuggestions st).
Proof.
  unfold cleanupExpiredPostponements, getPostponedSuggestions.
  fold (unexpired now).
  destruct (Nat.eqb_spec (length (List.filter (unexpired now) (postponedSuggestions st)))
                         (length (postponedSuggestions st))) as [Heq|Hne]; simpl.
  - symmetry. by apply filter_bool_length_eq.
  - done.
Qed.

Lemma cleanup_frame (now : Z) (st : Memento) :
  workspaceHistory (cleanupExpiredPostponements now st) = workspaceHistory st /\
  ignoredSuggestionPaths (cleanupExpiredPostponements now st) = ignoredSuggestionPaths st /\
  savedProjects (cleanupExpiredPostponements now st) = savedProjects st /\
  projectMetadata (cleanupExpiredPostponements now st) = projectMetadata st.
Proof. unfold cleanupExpiredPostponements. by case_match. Qed.

Lemma cleanup_none_expired (now : Z) (st : Memento) :
  (forall s, s ∈ postponedSuggestions st -> isPostponeExpired now s = false) ->
  cleanupExpiredPostponements now st = st.
Proof.
  intros Hnone. unfold cleanupExpiredPostponements, getPostponedSuggestions.
  rewrite filter_bool_all; [by rewrite Nat.eqb_refl|].
  intros s Hs. by rewrite (Hnone s Hs).
Qed.

Lemma cleanup_some_expired (now : Z) (st : Memento) (s : PostponedSuggestion) :
  s ∈ postponedSuggestions st -> isPostponeExpired now s = true ->
  updates (cleanupExpiredPostponements now st) = updates st ++ [POSTPONED_SUGGESTIONS_KEY].
Proof.
  intros Hs Hexp. unfold cleanupExpiredPostponements, getPostponedSuggestions.
  fold (unexpired now).
  destruct (Nat.eqb_spec (length (List.filter (unexpired now) (postponedSuggestions st)))
                         (length (postponedSuggestions st))) as [Heq|Hne]; simpl; [|done].
  apply filter_bool_length_eq in Heq.
  assert (Hin : s ∈ List.filter (unexpired now) (postponedSuggestions st))
    by by rewrite Heq.
  apply elem_of_filter_bool in Hin as [_ Hun].
  unfold unexpired in Hun. by rewrite Hexp in Hun.
Qed.

(** ** Suggestion eligibility *)

Section Suggestions.
Context `{Platform}.

Lemma elem_of_getSuggestibleFolders fs now config st e :
  e ∈ (getSuggestibleFolders fs now config st).1 <->
  e ∈ Obj.values (getHistory st) /\ eligible fs now config st e.
Proof.
  unfold getSuggestibleFolders, eligible.
  destruct (enabled config); simpl.
  2:{ split; [by intros ?%elem_of_nil|]. by intros (_ & ? & _). }
  destruct (cleanup_frame now st) as (Hh & Hi & Hs & _).
  unfold getFrequentFolders, getHistorySorted, getHistory, getIgnoredPaths,
    getSavedProjects, getPostponedSuggestions.
  rewrite Hh, Hi, Hs, cleanup_postponed.
  rewrite !elem_of_filter_bool, elem_of_sort, Z.leb_le.
  fold (unexpired now).
  assert (Hidem : List.filter (unexpired now)
                    (List.filter (unexpired now) (postponedSuggestions st))
                  = List.filter (unexpired now) (postponedSuggestions st)).
  { apply filter_bool_all. by intros x [_ ?]%elem_of_filter_bool. }
  rewrite Hidem.
  assert (Hpost :
    he_path e ∉ List.map ps_path (List.filter (unexpired now) (postponedSuggestions st))
    <-> forall s, s ∈ postponedSuggestions st ->
                  isPostponeExpired now s = false -> ps_path s <> he_path e).
  { rewrite elem_of_map_iff. split.
    - intros Hno s Hs1 Hs2 Heq. apply Hno. exists s. split; [done|].
      apply elem_of_filter_bool. split; [done|]. unfold unexpired. by rewrite Hs2.
    - intros Hall (s & Heq & [Hs1 Hs2]%elem_of_filter_bool).
      apply (Hall s Hs1); [|done]. unfold unexpired in Hs2.
      by destruct (isPostponeExpired now s). }
  rewrite <- Hpost.
  repeat match goal with
  | |- context [Js.includes ?l ?x] =>
      let Hx := fresh "Hinc" in
      destruct (Js.includes l x) eqn:Hx;
      [apply includes_true in Hx | apply includes_false in Hx]
  end;
  try (split; [intros [_ ?]; done | intros (_ & _ & _ & ? & ? & ? & _); done]).
  destruct (Z.ltb_spec (lastOpened e) (now - timePeriodDays config * 24 * 60 * 60 * 1000));
    [split; [intros [_ ?]; done | intros (_ & _ & _ & _ & _ & _ & ? & _); lia]|].
  destruct (existsSync fs (he_path e)); simpl;
    [|split; [intros [_ ?]; done | intros (_ & _ & _ & _ & _ & _ & _ & ? & _); done]].
  destruct (isWorktreePath fs (he_path e)); simpl;
    [split; [intros [_ ?]; done | intros (_ & _ & _ & _ & _ & _ & _ & _ & ?); done]|].
  split.
  - intros [[? ?] _]. repeat split; auto.
  - intros (? & _ & ? & _). repeat split; auto.
Qed.

(** C1. For every configuration and persisted state,
    [getSuggestibleFolders] returns exactly the workspace-history entries
    that pass every eligibility condition (suggestions enabled, opened
    at least [minOpenCount] times, not saved, not ignored, no unexpired
    postponement, last opened within the time period, existing on disk,
    not a linked worktree), in most-recent-first order; with suggestions
    disabled it returns the empty list and leaves the store alone. *)
Theorem getSuggestibleFolders_exact
    (fs : FileSystem) (now : Z) (config : SuggestionConfig) (st : Memento) :
  (forall e, e ∈ (getSuggestibleFolders fs now config st).1 <->
             e ∈ Obj.values (workspaceHistory st) /\ eligible fs now config st e) /\
  sublist (getSuggestibleFolders fs now config st).1 (getHistorySorted st) /\
  (enabled config = false -> getSuggestibleFolders fs now config st = ([], st)).
Proof.
  split; [|split].
  - intros e. apply elem_of_getSuggestibleFolders.
  - unfold getSuggestibleFolders. destruct (enabled config); simpl.
    + unfold getFrequentFolders, getHistorySorted, getHistory.
      destruct (cleanup_frame now st) as (-> & _).
      etrans; apply filter_bool_sublist.
    + apply sublist_nil_l.
  - intros Hoff. unfold getSuggestibleFolders. by rewrite Hoff.
Qed.
End Suggestions.

Section Postponement.
Context `{Platform}.

(** C6. A postponement is expired exactly when the current time is
strictly later than [postponedAt] plus seven days in milliseconds;
[cleanupExpiredPostponements] keeps the unexpired postponements, in
order, and drops the expired ones, without touching the store when
none is expired and with one store update otherwise; an unexpired
postponement keeps its path out of the suggestible folders, and a
path postponed at [t0] is suppressed up to [t0] plus seven days and
has no postponement left afterwards. *)
Theorem postponement_lasts_seven_days :
  (forall now s,
      isPostponeExpired now s = true <->
      now > postponedAt s + 7 * 24 * 60 * 60 * 1000) /\
  (forall now st s,
      s ∈ postponedSuggestions (cleanupExpiredPostponements now st) <->
      s ∈ postponedSuggestions st /\ isPostponeExpired now s = false) /\
  (forall now st,
      sublist (postponedSuggestions (cleanupExpiredPostponements now st))
              (postponedSuggestions st)) /\
  (forall now st,
      (forall s, s ∈ postponedSuggestions st -> isPostponeExpired now s = false) ->
      cleanupExpiredPostponements now st = st) /\
  (forall now st s,
      s ∈ postponedSuggestions st -> isPostponeExpired now s = true ->
      updates (cleanupExpiredPostponements now st)
      = updates st ++ [POSTPONED_SUGGESTIONS_KEY]) /\
  (forall fs now config st s e,
      s ∈ postponedSuggestions st -> isPostponeExpired now s = false ->
      e ∈ (getSuggestibleFolders fs now config st).1 ->
      he_path e <> ps_path s) /\
  (forall fs config st t0 folderPath now e,
      now <= t0 + 7 * 24 * 60 * 60 * 1000 ->
      e ∈ (getSuggestibleFolders fs now config
             (postponeSuggestion t0 folderPath st)).1 ->
      he_path e <> folderPath) /\
  (forall st t0 folderPath now s,
      now > t0 + 7 * 24 * 60 * 60 * 1000 ->
      s ∈ postponedSuggestions
            (cleanupExpiredPostponements now (postponeSuggestion t0 folderPath st)) ->
      ps_path s <> folderPath).
Proof.
  assert (Hsupp : forall fs now config st s e,
      s ∈ postponedSuggestions st -> isPostponeExpired now s = false ->
      e ∈ (getSuggestibleFolders fs now config st).1 ->
      he_path e <> ps_path s).
  { intros fs now config st s e Hs Hun [_ He]%elem_of_getSuggestibleFolders Heq.
    destruct He as (_ & _ & _ & _ & Hpost & _). by apply (Hpost s Hs Hun). }
  repeat split.
  - by apply isPostponeExpired_iff.
  - by apply isPostponeExpired_iff.
  - rewrite cleanup_postponed in *.
    by match goal with Hx : _ ∈ List.filter _ _ |- _ =>
      apply elem_of_filter_bool in Hx as [? _] end.
  - rewrite cleanup_postponed in *.
    match goal with Hx : _ ∈ List.filter _ _ |- _ =>
      apply elem_of_filter_bool in Hx as [_ Hx]; unfold unexpired in Hx end.
    by destruct (isPostponeExpired now s).
  - intros [Hs Hun]. rewrite cleanup_postponed. apply elem_of_filter_bool.
    split; [done|]. unfold unexpired. by rewrite Hun.
  - intros now st. rewrite cleanup_postponed. apply filter_bool_sublist.
  - apply cleanup_none_expired.
  - apply cleanup_some_expired.
  - exact Hsupp.
  - intros fs config st t0 folderPath now e Hnow He.
    apply (Hsupp _ _ _ _ {| ps_path := folderPath; postponedAt := t0 |}) in He;
      [done| |].
    + unfold postponeSuggestion; simpl. apply elem_of_app. right. by left.
    + unfold isPostponeExpired, POSTPONE_DURATION_DAYS; simpl.
      apply Z.ltb_ge. lia.
  - intros st t0 folderPath now s Hnow Hs Heq.
    rewrite cleanup_postponed in Hs.
    apply elem_of_filter_bool in Hs as [Hs Hun].
    unfold postponeSuggestion in Hs; simpl in Hs.
    apply elem_of_app in Hs as [Hs|Hs].
    + apply elem_of_filter_bool in Hs as [_ Hne].
      rewrite Heq, String.eqb_refl in Hne. done.
    + apply list_elem_of_singleton in Hs as ->.
      unfold unexpired, isPostponeExpired, POSTPONE_DURATION_DAYS in Hun; simpl in Hun.
      apply negb_true_iff, Z.ltb_ge in Hun. lia.
Qed.
End Postponement.

(** ** Project metadata *)

Module MetadataFacts.
Import ProjectMetadataService.

Lemma getTags_setTags_eq p tags st :
  getTags p (setTags p tags st) = tags.
Proof.
  unfold getTags, getMetadata, setTags, getAll, saveAll; simpl.
  destruct tags as [|t tags]; simpl.
  - by rewrite lookup_delete_eq.
  - by rewrite lookup_insert_eq.
Qed.

Lemma setTags_nil_lookup p st :
  projectMetadata (setTags p [] st) !! p = None.
Proof. unfold setTags, getAll, saveAll; simpl. apply lookup_delete_eq. Qed.

Lemma setTags_other p q tags st :
  p <> q -> getTags q (setTags p tags st) = getTags q st.
Proof.
  intros Hne. unfold getTags, getMetadata, setTags, getAll, saveAll; simpl.
  destruct tags; simpl; by rewrite ?lookup_delete_ne, ?lookup_insert_ne.
Qed.

(** C7. Metadata maps a project path to its tag names: after [addTag]
    the tag is among [getTags]; [addTag] of a tag already present
    returns the store as it was, so it is idempotent; [setTags] with
    the empty list, and [removeTag] of the only tag left, delete the
    path's entry, after which [getTags] is empty. *)
Theorem metadata_tag_set :
  (forall p t st, t ∈ getTags p (addTag p t st)) /\
  (forall p t st, t ∈ getTags p st -> addTag p t st = st) /\
  (forall p t st, addTag p t (addTag p t st) = addTag p t st) /\
  (forall p st,
      projectMetadata (setTags p [] st) !! p = None /\
      getTags p (setTags p [] st) = []) /\
  (forall p t st,
      (forall x, x ∈ getTags p st -> x = t) ->
      projectMetadata (removeTag p t st) !! p = None /\
      getTags p (removeTag p t st) = []).
Proof.
  assert (Hin : forall p t st, t ∈ getTags p (addTag p t st)).
  { intros p t st. unfold addTag.
    destruct (Js.includes (getTags p st) t) eqn:Hinc; simpl.
    - by apply includes_true.
    - rewrite getTags_setTags_eq. apply elem_of_app. right. by left. }
  assert (Hid : forall p t st, t ∈ getTags p st -> addTag p t st = st).
  { intros p t st Ht. unfold addTag.
    apply includes_true in Ht. by rewrite Ht. }
  split; [exact Hin|]. split; [exact Hid|]. split; [|split].
  - intros p t st. apply Hid, Hin.
  - intros p st. split; [apply setTags_nil_lookup|apply getTags_setTags_eq].
  - intros p t st Hall.
    assert (Hnil : List.filter (fun id => negb (String.eqb id t)) (getTags p st) = []).
    { induction (getTags p st) as [|x l IH]; simpl; [done|].
      rewrite (Hall x) by left. rewrite String.eqb_refl; simpl.
      apply IH. intros y Hy. apply Hall. by right. }
    unfold removeTag. rewrite Hnil.
    split; [apply setTags_nil_lookup|apply getTags_setTags_eq].
Qed.
End MetadataFacts.

(** ** String-keyed objects *)

Section ObjFacts.
Context {V : Type}.
Implicit Types (o : list (string * V)) (k : string) (v : V).

Lemma get_set_eq o k v : Obj.get (Obj.set o k v) k = Some v.
Proof.
  induction o as [|[k' v'] o IH]; simpl.
  - by rewrite String.eqb_refl.
  - destruct (String.eqb_spec k' k) as [->|Hne]; simpl.
    + by rewrite String.eqb_refl.
    + by destruct (String.eqb_spec k' k).
Qed.

Lemma get_set_ne o k k' v : k <> k' -> Obj.get (Obj.set o k v) k' = Obj.get o k'.
Proof.
  intros Hne. induction o as [|[k0 v0] o IH]; simpl.
  - by destruct (String.eqb_spec k k').
  - destruct (String.eqb_spec k0 k) as [->|Hne0]; simpl.
    + by destruct (String.eqb_spec k k').
    + by rewrite IH.
Qed.

Lemma get_Some_elem_of o k v : Obj.get o k = Some v -> (k, v) ∈ o.
Proof.
  induction o as [|[k0 v0] o IH]; simpl; [done|].
  destruct (String.eqb_spec k0 k) as [->|Hne].
  - intros [= ->]. by left.
  - intros Hg. right. by apply IH.
Qed.

Lemma get_None_not_key o k : Obj.get o k = None <-> k ∉ Obj.keys o.
Proof.
  induction o as [|[k0 v0] o IH]; simpl.
  - split; [intros _; apply not_elem_of_nil|done].
  - rewrite not_elem_of_cons. destruct (String.eqb_spec k0 k) as [->|Hne].
    + split; [done|]. by intros [? _].
    + rewrite IH. split; [by split|by intros [_ ?]].
Qed.

Lemma elem_of_get o k v : NoDup (Obj.keys o) -> (k, v) ∈ o -> Obj.get o k = Some v.
Proof.
  induction o as [|[k0 v0] o IH]; simpl; intros Hnd Hin.
  - by apply elem_of_nil in Hin.
  - apply NoDup_cons in Hnd as [Hk0 Hnd].
    apply elem_of_cons in Hin as [[= -> ->]|Hin].
    + by rewrite String.eqb_refl.
    + destruct (String.eqb_spec k0 k) as [->|Hne]; [|by apply IH].
      exfalso. apply Hk0. unfold Obj.keys.
      apply elem_of_map_iff. by exists (k, v).
Qed.

(** Assignment keeps the keys when the key is present and appends it
    otherwise. *)
Lemma keys_set_present o k v :
  k ∈ Obj.keys o -> Obj.keys (Obj.set o k v) = Obj.keys o.
Proof.
  unfold Obj.keys. induction o as [|[k0 v0] o IH]; simpl.
  - by intros ?%elem_of_nil.
  - destruct (String.eqb_spec k0 k) as [->|Hne]; simpl; [done|].
    intros [?|Hin]%elem_of_cons; [congruence|]. by rewrite IH.
Qed.

Lemma keys_set_fresh o k v :
  k ∉ Obj.keys o -> Obj.keys (Obj.set o k v) = Obj.keys o ++ [k].
Proof.
  unfold Obj.keys. induction o as [|[k0 v0] o IH]; simpl; [done|].
  intros [Hne Hnin]%not_elem_of_cons.
  destruct (String.eqb_spec k0 k) as [->|_]; simpl; [done|]. by rewrite IH.
Qed.

Lemma set_Forall (P : string * V -> Prop) o k v :
  P (k, v) -> Forall P o -> Forall P (Obj.set o k v).
Proof.
  intros Hkv. induction 1 as [|[k0 v0] o Hx Ho IH]; simpl.
  - by constructor.
  - destruct (String.eqb_spec k0 k) as [->|_]; by constructor.
Qed.

(** [delete] and every filter on keys: the binding of [k] stays or goes
    with the test on [k]. *)
Lemma get_filter_key (g : string -> bool) o k :
  Obj.get (List.filter (fun kv => g kv.1) o) k
  = if g k then Obj.get o k else None.
Proof.
  induction o as [|[k0 v0] o IH]; simpl; [by destruct (g k)|].
  destruct (g k0) eqn:Hg0; simpl.
  - destruct (String.eqb_spec k0 k) as [->|Hne]; [by rewrite Hg0|done].
  - destruct (String.eqb_spec k0 k) as [->|Hne]; [by rewrite IH, Hg0|done].
Qed.

Lemma values_filter_key (g : string -> bool) (f : V -> string) o :
  Forall (fun kv => f kv.2 = kv.1) o ->
  Obj.values (List.filter (fun kv => g kv.1) o)
  = List.filter (fun x => g (f x)) (Obj.values o).
Proof.
  induction 1 as [|[k0 v0] o Hk _ IH]; simpl in *; [done|].
  rewrite Hk. destruct (g k0); simpl; by rewrite IH.
Qed.

Lemma keys_values (f : V -> string) o :
  Forall (fun kv => f kv.2 = kv.1) o -> List.map f (Obj.values o) = Obj.keys o.
Proof.
  induction 1 as [|[k0 v0] o Hk _ IH]; simpl in *; [done|]. by rewrite Hk, IH.
Qed.

Lemma fold_delete_filter {E : Type} (f : E -> string) (toRemove : list E) o :
  fold_left (fun h entry => Obj.delete h (f entry)) toRemove o
  = List.filter (fun kv => negb (Js.includes (List.map f toRemove) kv.1)) o.
Proof.
  revert o. induction toRemove as [|e toRemove IH]; intros o; simpl.
  - symmetry. apply filter_bool_all. intros kv _. reflexivity.
  - rewrite IH. unfold Obj.delete.
    induction o as [|[k0 v0] o IHo]; simpl; [done|].
    destruct (String.eqb_spec k0 (f e)) as [->|Hne]; simpl.
    + assert (Hin : f e ∈ f e :: List.map f toRemove) by left.
      apply includes_true in Hin. by rewrite Hin.
    + rewrite IHo.
      destruct (Js.includes (List.map f toRemove) k0) eqn:Hinc; simpl.
      * apply includes_true in Hinc.
        assert (Hin : k0 ∈ f e :: List.map f toRemove) by by right.
        apply includes_true in Hin. by rewrite Hin.
      * apply includes_false in Hinc.
        assert (Hin : k0 ∉ f e :: List.map f toRemove).
        { apply not_elem_of_cons. split; [done|done]. }
        apply includes_false in Hin. by rewrite Hin.
Qed.
End ObjFacts.

(** ** Workspace history *)

Lemma NoDup_map_inj {A B : Type} (f : A -> B) (l : list A) (x y : A) :
  NoDup (List.map f l) -> x ∈ l -> y ∈ l -> f x = f y -> x = y.
Proof.
  induction l as [|a l IH]; simpl; intros Hnd Hx Hy Hf.
  - by apply elem_of_nil in Hx.
  - apply NoDup_cons in Hnd as [Ha Hnd].
    apply elem_of_cons in Hx as [->|Hx]; apply elem_of_cons in Hy as [->|Hy]; auto.
    + exfalso. apply Ha. apply elem_of_map_iff. by exists y.
    + exfalso. apply Ha. apply elem_of_map_iff. by exists x.
Qed.

Lemma NoDup_map_NoDup {A B : Type} (f : A -> B) (l : list A) :
  NoDup (List.map f l) -> NoDup l.
Proof.
  induction l as [|a l IH]; simpl; [constructor|].
  intros [Ha Hnd]%NoDup_cons. constructor; [|by apply IH].
  intros Hin. apply Ha. apply elem_of_map_iff. by exists a.
Qed.

Lemma filter_keeps_front {A : Type} (f : A -> string) (l1 l2 : list A) :
  NoDup (List.map f (l1 ++ l2)) ->
  List.filter (fun x => negb (Js.includes (List.map f l2) (f x))) (l1 ++ l2) = l1.
Proof.
  rewrite List.map_app. intros (_ & Hdisj & _)%NoDup_app.
  rewrite List.filter_app, filter_bool_all.
  2:{ intros x Hx. apply negb_true_iff, includes_false.
      apply Hdisj. apply elem_of_map_iff. by exists x. }
  rewrite <- (app_nil_r l1) at 2. f_equal.
  assert (Hall : forall x, x ∈ l2 ->
            negb (Js.includes (List.map f l2) (f x)) = false).
  { intros x Hx. apply negb_false_iff, includes_true.
    apply elem_of_map_iff. by exists x. }
  clear Hdisj. revert Hall. generalize (List.map f l2). intros names.
  induction l2 as [|x l2 IH]; simpl; intros Hall; [done|].
  rewrite (Hall x) by left. apply IH. intros y Hy. apply Hall. by right.
Qed.

Section HistoryFacts.
Context `{Platform}.
Implicit Types (h : list (string * WorkspaceHistoryEntry)).

Lemma get_touchEntry_eq now p h :
  Obj.get (touchEntry now p h) p = Some (touched now p (Obj.get h p)).
Proof. unfold touchEntry. destruct (Obj.get h p); apply get_set_eq. Qed.

Lemma get_touchEntry_ne now p q h :
  p <> q -> Obj.get (touchEntry now p h) q = Obj.get h q.
Proof. intros Hne. unfold touchEntry. destruct (Obj.get h p); by apply get_set_ne. Qed.

Lemma touchEntry_wf now p h : historyWf h -> historyWf (touchEntry now p h).
Proof.
  intros [Hnd Hk]. unfold touchEntry.
  destruct (Obj.get h p) as [e|] eqn:Hg.
  - split.
    + rewrite keys_set_present; [done|].
      destruct (decide (p ∈ Obj.keys h)) as [|Hno]; [done|].
      apply get_None_not_key in Hno. congruence.
    + apply set_Forall; [|done]. simpl.
      apply get_Some_elem_of in Hg.
      rewrite Forall_forall in Hk. apply (Hk _ Hg).
  - apply get_None_not_key in Hg. split.
    + rewrite keys_set_fresh by done. apply NoDup_app. split; [done|].
      split; [|apply NoDup_singleton].
      intros k Hk1 ->%list_elem_of_singleton. done.
    + by apply set_Forall.
Qed.

Lemma pruneHistory_filter h :
  pruneHistory h
  = List.filter (fun kv => negb (Js.includes (prunedPaths h) kv.1)) h.
Proof.
  unfold pruneHistory, prunedPaths.
  destruct (length (Obj.values h) <=? MAX_HISTORY_ENTRIES)%nat.
  - symmetry. apply filter_bool_all. intros kv _. reflexivity.
  - apply (fold_delete_filter he_path).
Qed.

Lemma get_pruneHistory h k :
  Obj.get (pruneHistory h) k
  = if Js.includes (prunedPaths h) k then None else Obj.get h k.
Proof.
  rewrite pruneHistory_filter.
  rewrite (get_filter_key (fun k => negb (Js.includes (prunedPaths h) k))).
  by destruct (Js.includes (prunedPaths h) k).
Qed.

Lemma pruneHistory_small h :
  (length h <= MAX_HISTORY_ENTRIES)%nat -> pruneHistory h = h.
Proof.
  intros Hlen. unfold pruneHistory, Obj.values. rewrite length_map.
  by destruct (Nat.leb_spec (length h) MAX_HISTORY_ENTRIES); [|lia].
Qed.

Lemma sorted_paths_NoDup h :
  historyWf h ->
  NoDup (List.map he_path (Js.sort byLastOpenedDesc (Obj.values h))).
Proof.
  intros [Hnd Hk].
  assert (Hp : List.map he_path (Js.sort byLastOpenedDesc (Obj.values h))
               ≡ₚ Obj.keys h).
  { rewrite <- (keys_values he_path h Hk).
    apply (fmap_Permutation he_path), sort_perm. }
  by rewrite Hp.
Qed.

(** What [pruneHistory] keeps of a history above the bound: the first
    [MAX_HISTORY_ENTRIES] entries of the most-recent-first order. *)
Lemma pruneHistory_values h :
  historyWf h -> (MAX_HISTORY_ENTRIES < length h)%nat ->
  Obj.values (pruneHistory h)
  ≡ₚ take MAX_HISTORY_ENTRIES (Js.sort byLastOpenedDesc (Obj.values h)).
Proof.
  intros Hwf Hlen. pose proof (sorted_paths_NoDup h Hwf) as Hnd.
  destruct Hwf as [_ Hk].
  rewrite pruneHistory_filter.
  rewrite (values_filter_key (fun k => negb (Js.includes (prunedPaths h) k))
             he_path h Hk).
  unfold prunedPaths, Obj.values at 1. rewrite length_map.
  destruct (Nat.leb_spec (length h) MAX_HISTORY_ENTRIES) as [|_]; [lia|].
  set (sorted := Js.sort byLastOpenedDesc (Obj.values h)) in *.
  rewrite (filter_bool_perm _ (Obj.values h) sorted)
    by (symmetry; apply sort_perm).
  pose proof (filter_keeps_front he_path (take MAX_HISTORY_ENTRIES sorted)
                (drop MAX_HISTORY_ENTRIES sorted)) as Hfront.
  rewrite take_drop in Hfront. by rewrite Hfront.
Qed.
End HistoryFacts.

Section RecordOpen.
Context `{Platform}.
Implicit Types (h : list (string * WorkspaceHistoryEntry)).

Lemma recordOpen_history fs now p st :
  isWorktreePath fs p = false ->
  workspaceHistory (recordOpen fs now p st)
  = pruneHistory (touchEntry now p (workspaceHistory st)).
Proof. intros Hwt. unfold recordOpen. by rewrite Hwt. Qed.

Lemma pruneHistory_length h :
  historyWf h -> (length (pruneHistory h) <= MAX_HISTORY_ENTRIES)%nat.
Proof.
  intros Hwf.
  destruct (Nat.le_gt_cases (length h) MAX_HISTORY_ENTRIES) as [Hle|Hgt].
  - by rewrite pruneHistory_small.
  - rewrite <- (length_map snd). fold (Obj.values (pruneHistory h)).
    rewrite (pruneHistory_values h Hwf Hgt). rewrite length_take. lia.
Qed.

Lemma pruneHistory_length_over h :
  historyWf h -> (MAX_HISTORY_ENTRIES < length h)%nat ->
  length (pruneHistory h) = MAX_HISTORY_ENTRIES.
Proof.
  intros Hwf Hgt.
  rewrite <- (length_map snd). fold (Obj.values (pruneHistory h)).
  rewrite (pruneHistory_values h Hwf Hgt).
  rewrite length_take, sort_length. unfold Obj.values. rewrite length_map. lia.
Qed.

(** Entries deleted by the pruning were last opened no later than any
    entry that stays. *)
Lemma pruneHistory_removes_oldest h kept removed :
  historyWf h ->
  kept ∈ pruneHistory h -> removed ∈ h -> removed ∉ pruneHistory h ->
  lastOpened removed.2 <= lastOpened kept.2.
Proof.
  intros Hwf Hkept Hrem Hgone.
  destruct (Nat.le_gt_cases (length h) MAX_HISTORY_ENTRIES) as [Hle|Hgt].
  { rewrite pruneHistory_small in Hgone; done. }
  pose proof (sorted_paths_NoDup h Hwf) as Hnd.
  pose proof (byLastOpenedDesc_sorted (Obj.values h)) as Hsorted.
  pose proof (pruneHistory_values h Hwf Hgt) as Hvals.
  set (sorted := Js.sort byLastOpenedDesc (Obj.values h)) in *.
  assert (Hk : kept.2 ∈ take MAX_HISTORY_ENTRIES sorted).
  { rewrite <- Hvals. apply elem_of_map_iff. by exists kept. }
  assert (Hr : removed.2 ∈ drop MAX_HISTORY_ENTRIES sorted).
  { rewrite pruneHistory_filter in Hgone.
    rewrite elem_of_filter_bool in Hgone.
    destruct (Js.includes (prunedPaths h) removed.1) eqn:Hinc;
      [|exfalso; apply Hgone; by split].
    apply includes_true in Hinc. unfold prunedPaths, Obj.values in Hinc.
    rewrite length_map in Hinc.
    destruct (Nat.leb_spec (length h) MAX_HISTORY_ENTRIES) as [|_]; [lia|].
    apply elem_of_map_iff in Hinc as (e & He & Hin).
    assert (e = removed.2) as <-; [|done].
    apply (NoDup_map_inj he_path sorted); [done| | |].
    - rewrite <- (take_drop MAX_HISTORY_ENTRIES sorted).
      apply elem_of_app. by right.
    - apply elem_of_sort, elem_of_map_iff. by exists removed.
    - destruct Hwf as [_ Hkeys]. rewrite Forall_forall in Hkeys.
      by rewrite He, (Hkeys _ Hrem). }
  rewrite <- (take_drop MAX_HISTORY_ENTRIES sorted) in Hsorted.
  by apply (StronglySorted_app_1_elem_of _ _ _ _ _ Hsorted Hk Hr).
Qed.

(** C8 (amended). After [recordOpen] on a path that is not a linked
    worktree the persisted history has at most [MAX_HISTORY_ENTRIES] =
    100 entries; it is the history with the folder recorded, unchanged
    when that is within the bound and cut to exactly 100 entries
    otherwise, and every entry cut was last opened no later than every
    entry kept. *)
Theorem recordOpen_keeps_most_recent
    (fs : FileSystem) (now : Z) (folderPath : string) (st : Memento) :
  historyWf (workspaceHistory st) ->
  isWorktreePath fs folderPath = false ->
  let recorded := touchEntry now folderPath (workspaceHistory st) in
  let after := workspaceHistory (recordOpen fs now folderPath st) in
  MAX_HISTORY_ENTRIES = 100%nat /\
  (length after <= MAX_HISTORY_ENTRIES)%nat /\
  sublist after recorded /\
  ((length recorded <= MAX_HISTORY_ENTRIES)%nat -> after = recorded) /\
  ((MAX_HISTORY_ENTRIES < length recorded)%nat ->
     length after = MAX_HISTORY_ENTRIES) /\
  (forall kept removed,
      kept ∈ after -> removed ∈ recorded -> removed ∉ after ->
      lastOpened removed.2 <= lastOpened kept.2).
Proof.
  intros Hwf Hwt recorded after.
  assert (Hafter : after = pruneHistory recorded)
    by by apply recordOpen_history.
  assert (Hwf' : historyWf recorded) by by apply touchEntry_wf.
  rewrite Hafter. repeat split.
  - by apply pruneHistory_length.
  - rewrite pruneHistory_filter. apply filter_bool_sublist.
  - apply pruneHistory_small.
  - by apply pruneHistory_length_over.
  - intros kept removed. by apply pruneHistory_removes_oldest.
Qed.

(** C5 (amended). [recordOpen] on a path that is not a linked worktree
    leaves for that path either the recorded entry (an existing entry
    with [lastOpened] set to the current time and [openCount] one
    higher, [firstOpened] and [path] as they were; otherwise a new entry
    with [openCount = 1] and both times the current time) or, when
    pruning removed it, no entry; the recorded entry is there whenever
    every other entry was last opened before the current time.  Entries
    of other paths are unchanged or removed by pruning. *)
Theorem recordOpen_updates_entry
    (fs : FileSystem) (now : Z) (folderPath : string) (st : Memento) :
  historyWf (workspaceHistory st) ->
  isWorktreePath fs folderPath = false ->
  let before := workspaceHistory st in
  let after := workspaceHistory (recordOpen fs now folderPath st) in
  let recorded :=
    match Obj.get before folderPath with
    | Some existing =>
        {| he_path := he_path existing; lastOpened := now;
           openCount := openCount existing + 1;
           firstOpened := firstOpened existing |}
    | None =>
        {| he_path := folderPath; lastOpened := now;
           openCount := 1; firstOpened := now |}
    end in
  he_path recorded = folderPath /\
  (Obj.get after folderPath = Some recorded \/
   (Obj.get after folderPath = None /\
    Js.includes (prunedPaths (touchEntry now folderPath before)) folderPath = true)) /\
  ((forall k e, (k, e) ∈ before -> k <> folderPath -> lastOpened e < now) ->
   Obj.get after folderPath = Some recorded) /\
  (forall other, other <> folderPath ->
      Obj.get after other = Obj.get before other \/
      (Obj.get after other = None /\
       Js.includes (prunedPaths (touchEntry now folderPath before)) other = true)).
Proof.
  intros Hwf Hwt before after recorded.
  assert (Hafter : after = pruneHistory (touchEntry now folderPath before))
    by by apply recordOpen_history.
  assert (Hrec : recorded = touched now folderPath (Obj.get before folderPath))
    by (subst recorded; unfold touched; by destruct (Obj.get before folderPath)).
  assert (Hpath : he_path recorded = folderPath).
  { subst recorded. destruct (Obj.get before folderPath) as [e|] eqn:Hg; [|done].
    simpl. apply get_Some_elem_of in Hg. destruct Hwf as [_ Hk].
    rewrite Forall_forall in Hk. apply (Hk _ Hg). }
  pose proof (touchEntry_wf now folderPath before Hwf) as Hwf'.
  set (h1 := touchEntry now folderPath before) in *.
  assert (Hget1 : Obj.get h1 folderPath = Some recorded)
    by (rewrite Hrec; apply get_touchEntry_eq).
  split; [done|]. rewrite Hafter. split; [|split].
  - rewrite get_pruneHistory.
    destruct (Js.includes (prunedPaths h1) folderPath); [by right|by left].
  - intros Holder. rewrite get_pruneHistory.
    destruct (Js.includes (prunedPaths h1) folderPath) eqn:Hinc; [|done].
    exfalso. apply includes_true in Hinc.
    unfold prunedPaths, Obj.values in Hinc. rewrite length_map in Hinc.
    destruct (Nat.leb_spec (length h1) MAX_HISTORY_ENTRIES) as [|Hgt];
      [by apply elem_of_nil in Hinc|].
    pose proof (sorted_paths_NoDup h1 Hwf') as Hnd.
    pose proof (byLastOpenedDesc_sorted (Obj.values h1)) as Hsorted.
    fold (Obj.values h1) in Hinc.
    set (sorted := Js.sort byLastOpenedDesc (Obj.values h1)) in *.
    assert (Hown : forall e, e ∈ sorted -> he_path e = folderPath -> e = recorded).
    { intros e He Hp. apply elem_of_sort, elem_of_map_iff in He as ([k e'] & <- & Hin).
      simpl in *. destruct Hwf' as [Hnd' Hk']. rewrite Forall_forall in Hk'.
      pose proof (Hk' _ Hin) as Hke. simpl in Hke.
      assert (k = folderPath) as -> by congruence.
      apply (elem_of_get _ _ _ Hnd') in Hin. congruence. }
    apply elem_of_map_iff in Hinc as (e & He & Hin).
    assert (e = recorded) as ->.
    { apply Hown; [|done]. rewrite <- (take_drop MAX_HISTORY_ENTRIES sorted).
      apply elem_of_app. by right. }
    assert (Hlen : length sorted = length h1).
    { unfold sorted. rewrite sort_length. unfold Obj.values. by rewrite length_map. }
    assert (Hfront : length (take MAX_HISTORY_ENTRIES sorted) = MAX_HISTORY_ENTRIES)
      by (rewrite length_take; lia).
    destruct (take MAX_HISTORY_ENTRIES sorted) as [|x front] eqn:Htake;
      [done|clear Hfront].
    assert (Hx : x ∈ take MAX_HISTORY_ENTRIES sorted) by (rewrite Htake; left).
    rewrite <- (take_drop MAX_HISTORY_ENTRIES sorted) in Hsorted, Hnd.
    pose proof (StronglySorted_app_1_elem_of _ _ _ _ _ Hsorted Hx Hin) as Hle.
    simpl in Hle.
    assert (Hxs : x ∈ sorted).
    { rewrite <- (take_drop MAX_HISTORY_ENTRIES sorted). apply elem_of_app. by left. }
    destruct (decide (he_path x = folderPath)) as [Hxp|Hxp].
    + apply Hown in Hxp as ->; [|done].
      apply NoDup_map_NoDup, NoDup_app in Hnd as (_ & Hdisj & _).
      by apply (Hdisj recorded).
    + apply elem_of_sort, elem_of_map_iff in Hxs as ([k e'] & <- & Hin').
      simpl in *. destruct Hwf' as [Hnd' Hk']. rewrite Forall_forall in Hk'.
      pose proof (Hk' _ Hin') as Hke. simpl in Hke.
      assert (Hkne : k <> folderPath) by congruence.
      apply (elem_of_get _ _ _ Hnd') in Hin'.
      unfold h1 in Hin'. rewrite get_touchEntry_ne in Hin' by done.
      apply get_Some_elem_of in Hin'.
      specialize (Holder _ _ Hin' Hkne).
      assert (lastOpened recorded = now)
        by (rewrite Hrec; unfold touched; by destruct (Obj.get before folderPath)).
      lia.
  - intros other Hne. rewrite get_pruneHistory.
    destruct (Js.includes (prunedPaths h1) other); [by right|].
    left. by apply get_touchEntry_ne.
Qed.
End RecordOpen.

Lemma recordOpen_keeps_most_recent_witness :
  historyWf (workspaceHistory crowded) /\
  isWorktreePath (H := Posix.platform) worktreeFs "/p0" = false /\
  let recorded := touchEntry 1000 "/p0" (workspaceHistory crowded) in
  let after :=
    workspaceHistory (recordOpen (H := Posix.platform) worktreeFs 1000 "/p0" crowded) in
  MAX_HISTORY_ENTRIES = 100%nat /\
  (length after <= MAX_HISTORY_ENTRIES)%nat /\
  sublist after recorded /\
  ((length recorded <= MAX_HISTORY_ENTRIES)%nat -> after = recorded) /\
  ((MAX_HISTORY_ENTRIES < length recorded)%nat ->
     length after = MAX_HISTORY_ENTRIES) /\
  (forall kept removed,
      kept ∈ after -> removed ∈ recorded -> removed ∉ after ->
      lastOpened removed.2 <= lastOpened kept.2).
Proof.
  assert (Hwf : historyWf (workspaceHistory crowded))
    by (apply (bool_decide_unpack _); vm_compute; exact I).
  assert (Hwt : isWorktreePath (H := Posix.platform) worktreeFs "/p0" = false)
    by reflexivity.
  split; [exact Hwf|]. split; [exact Hwt|].
  exact (recordOpen_keeps_most_recent (H := Posix.platform)
           worktreeFs 1000 "/p0" crowded Hwf Hwt).
Defined.

(** C8, as stated, fails: [recordOpen] on a linked worktree returns
    before pruning, so a history that [initializeTimestamp] grew beyond
    the bound stays beyond it. *)
Lemma recordOpen_worktree_keeps_crowded_history :
  historyWf (workspaceHistory crowded) /\
  isWorktreePath (H := Posix.platform) worktreeFs "/repo.worktrees/feat" = true /\
  length (workspaceHistory
            (recordOpen (H := Posix.platform) worktreeFs 1000
               "/repo.worktrees/feat" crowded)) = 101%nat /\
  ~ (length (workspaceHistory
               (recordOpen (H := Posix.platform) worktreeFs 1000
                  "/repo.worktrees/feat" crowded)) <= MAX_HISTORY_ENTRIES)%nat.
Proof.
  split; [apply (bool_decide_unpack _); vm_compute; exact I|].
  split; [reflexivity|].
  assert (Hlen : length (workspaceHistory
            (recordOpen (H := Posix.platform) worktreeFs 1000
               "/repo.worktrees/feat" crowded)) = 101%nat) by (vm_compute; reflexivity).
  split; [exact Hlen|]. rewrite Hlen. unfold MAX_HISTORY_ENTRIES. lia.
Qed.

Lemma recordOpen_updates_entry_witness :
  historyWf (workspaceHistory oneFolder) /\
  isWorktreePath (H := Posix.platform) worktreeFs "/a" = false /\
  Obj.get (workspaceHistory
             (recordOpen (H := Posix.platform) worktreeFs 1000 "/a" oneFolder)) "/a"
  = Some {| he_path := "/a"; lastOpened := 1000; openCount := 1; firstOpened := 10 |}.
Proof.
  assert (Hwf : historyWf (workspaceHistory oneFolder))
    by (apply (bool_decide_unpack _); vm_compute; exact I).
  assert (Hwt : isWorktreePath (H := Posix.platform) worktreeFs "/a" = false)
    by reflexivity.
  split; [exact Hwf|]. split; [exact Hwt|].
  destruct (recordOpen_updates_entry (H := Posix.platform)
              worktreeFs 1000 "/a" oneFolder Hwf Hwt) as (_ & _ & Hrec & _).
  apply Hrec. intros k e Hin Hne.
  apply list_elem_of_singleton in Hin. congruence.
Defined.

(** C5, as stated, fails: with a hundred entries dated after the current
    time, the entry created for a new folder is the oldest one and the
    pruning that follows deletes it. *)
Lemma recordOpen_new_entry_pruned :
  historyWf (workspaceHistory futureDated) /\
  isWorktreePath (H := Posix.platform) worktreeFs "/new" = false /\
  Obj.get (workspaceHistory futureDated) "/new" = None /\
  Obj.get (workspaceHistory
             (recordOpen (H := Posix.platform) worktreeFs 1000 "/new" futureDated))
          "/new" = None.
Proof.
  split; [apply (bool_decide_unpack _); vm_compute; exact I|].
  repeat split; vm_compute; reflexivity.
Qed.

(** ** The [.worktrees] suffix of a path part *)

Lemma prefix_cons (a b : ascii) (p s : string) :
  String.prefix (String a p) (String b s)
  = if ascii_dec a b then String.prefix p s else false.
Proof. reflexivity. Qed.

Lemma prefix_refl (p : string) : String.prefix p p = true.
Proof.
  induction p as [|a p IH]; [done|]. rewrite prefix_cons.
  by destruct (ascii_dec a a).
Qed.

Lemma append_cons (x : ascii) (a b : string) :
  String.append (String x a) b = String x (String.append a b).
Proof. reflexivity. Qed.

Lemma append_assoc (a b c : string) :
  String.append (String.append a b) c = String.append a (String.append b c).
Proof. induction a as [|x a IH]; [done|]. rewrite !append_cons. by f_equal. Qed.

Lemma prefix_app_r (p s r : string) :
  String.prefix p s = true -> String.prefix p (String.append s r) = true.
Proof.
  intros [x ->]%prefix_inv. rewrite append_assoc. apply prefix_append.
Qed.

Lemma str_includes_app_l (a s sub : string) :
  Js.str_includes s sub = true -> Js.str_includes (String.append a s) sub = true.
Proof.
  intros Hs. induction a as [|c a IH]; [done|].
  rewrite append_cons. cbn [Js.str_includes]. rewrite IH. by case_match.
Qed.

Lemma str_includes_app_r (s b sub : string) :
  Js.str_includes s sub = true -> Js.str_includes (String.append s b) sub = true.
Proof.
  induction s as [|c s IH]; cbn [Js.str_includes]; intros Hs.
  - destruct (String.prefix sub EmptyString) eqn:Hp; [|done].
    apply (prefix_app_r _ _ b) in Hp.
    change (String.append EmptyString b) with b in *.
    destruct b; cbn [Js.str_includes]; by rewrite Hp.
  - destruct (String.prefix sub (String c s)) eqn:Hp.
    + apply (prefix_app_r _ _ b) in Hp. rewrite append_cons in *.
      cbn [Js.str_includes]. by rewrite Hp.
    + rewrite append_cons. cbn [Js.str_includes]. rewrite (IH Hs). by case_match.
Qed.

Lemma endsWith_append (a b : string) : Js.endsWith (String.append a b) b = true.
Proof.
  induction a as [|c a IH].
  - change (String.append EmptyString b) with b.
    destruct b; cbn [Js.endsWith]; by rewrite String.eqb_refl.
  - rewrite append_cons. cbn [Js.endsWith]. rewrite IH. by case_match.
Qed.

(** The first part of a split path starts the path, and every part is a
    piece of it. *)
Lemma split_head (p : string) (sep : ascii) :
  exists h t b, Js.split p sep = h :: t /\ p = String.append h b.
Proof.
  induction p as [|c p (h & t & b & Hs & Hp)]; cbn [Js.split].
  - by exists EmptyString, [], EmptyString.
  - destruct (Ascii.eqb c sep).
    + by exists EmptyString, (Js.split p sep), (String c p).
    + rewrite Hs. exists (String c h), t, b. split; [done|].
      by rewrite append_cons, <- Hp.
Qed.

Lemma split_part (p : string) (sep : ascii) (part : string) :
  part ∈ Js.split p sep ->
  exists a b, p = String.append a (String.append part b).
Proof.
  revert part. induction p as [|c p IH]; intros part; cbn [Js.split].
  - intros ->%list_elem_of_singleton. by exists EmptyString, EmptyString.
  - destruct (Ascii.eqb c sep).
    + intros [->|Hin]%elem_of_cons.
      * by exists EmptyString, (String c p).
      * destruct (IH _ Hin) as (a & b & ->). by exists (String c a), b.
    + destruct (split_head p sep) as (h & t & b & Hs & Hp). rewrite Hs in *.
      intros [->|Hin]%elem_of_cons.
      * exists EmptyString, b. change (String c p = String.append (String c h) b).
        by rewrite append_cons, <- Hp.
      * destruct (IH part) as (a & b' & ->); [by right|].
        by exists (String c a), b'.
Qed.

Ltac prefix_step Hp :=
  rewrite prefix_cons in Hp |- *;
  match type of Hp with
  | context [ascii_dec ?a ?b] =>
      destruct (ascii_dec a b) as [<-|]; [|discriminate Hp]
  end.

(** An occurrence of [.worktrees] at the start of [s ++ ".worktrees"]
    lies within [s], unless [s] is empty: the pattern has no dot after
    its first character. *)
Lemma worktrees_no_straddle (s : string) :
  String.prefix ".worktrees" (String.append s ".worktrees") = true ->
  s = EmptyString \/ String.prefix ".worktrees" s = true.
Proof.
  intros Hp.
  destruct s as [|c0 s]; [by left|right].
  rewrite append_cons in Hp.
  repeat
    (prefix_step Hp;
     try (destruct s as [|? s];
          [change (String.append EmptyString ".worktrees") with ".worktrees" in Hp;
           rewrite ?prefix_cons in Hp;
           repeat match type of Hp with
             | context [ascii_dec ?a ?b] =>
               destruct (ascii_dec a b); [try discriminate|try discriminate Hp]
             end
          | rewrite append_cons in Hp ])).
  all: try reflexivity.
  all: try (cbn in Hp; discriminate Hp).
Qed.

(** For a base name without [.worktrees] in it, removing the first
    occurrence from [name.worktrees] gives the base name back. *)
Lemma replace_worktrees_suffix (base : string) :
  Js.str_includes base ".worktrees" = false ->
  Js.replace (String.append base ".worktrees") ".worktrees" EmptyString = base.
Proof.
  induction base as [|c base IH]; [done|].
  cbn [Js.str_includes]. intros Hno.
  destruct (String.prefix ".worktrees" (String c base)) eqn:Hp; [done|].
  rewrite append_cons. cbn [Js.replace].
  destruct (String.prefix ".worktrees" (String c (String.append base ".worktrees")))
    eqn:Hp'.
  - destruct (worktrees_no_straddle (String c base) Hp'); congruence.
  - by rewrite IH.
Qed.

(** ** Recent folders *)

Section RecentFolders.
Context `{Platform}.

Lemma recentLoop_spec fs projectPaths projectNames history :
  recentLoop fs projectPaths projectNames history
  = (List.map toRecentFolder
       (List.filter (listedAsRecent fs projectPaths projectNames) history),
     List.map he_path
       (List.filter (fun e => negb (existsSync fs (he_path e))) history)).
Proof.
  induction history as [|e history IH]; simpl; [done|].
  rewrite IH. unfold listedAsRecent.
  destruct (existsSync fs (he_path e)); simpl; [|done].
  destruct (Js.includes projectPaths (he_path e)); simpl; [done|].
  destruct (isSubfolder projectPaths (he_path e)); simpl; [done|].
  by destruct (isWorktreeFolder projectNames (he_path e)).
Qed.

Lemma fold_removeFromHistory (paths : list string) (st : Memento) :
  workspaceHistory (fold_left (fun s p => removeFromHistory p s) paths st)
  = List.filter (fun kv => negb (Js.includes paths kv.1)) (workspaceHistory st).
Proof.
  pose proof (fold_delete_filter (fun p : string => p) paths (workspaceHistory st))
    as Hfold.
  rewrite List.map_id in Hfold. rewrite <- Hfold. clear Hfold.
  revert st. induction paths as [|p paths IH]; intros st; simpl; [done|].
  by rewrite IH.
Qed.

(** The parts of the description of [getRecentFolders] that hold for
    every input: most recent first, no project folder, no folder below
    a project folder, no folder missing on disk, and the missing ones
    gone from the persisted history. *)
Lemma getRecentFolders_spec fs excludeProjects st :
  let folders := (getRecentFolders fs excludeProjects st).1 in
  let st' := (getRecentFolders fs excludeProjects st).2 in
  StronglySorted (fun a b => rf_lastOpened b <= rf_lastOpened a) folders /\
  (forall f, f ∈ folders ->
     existsSync fs (rf_path f) = true /\
     (forall p, p ∈ excludeProjects ->
        rf_path f <> path p /\
        Js.startsWith (rf_path f)
          (String.append (path p) (String path_sep EmptyString)) = false)) /\
  (forall k e, (k, e) ∈ workspaceHistory st' <->
     (k, e) ∈ workspaceHistory st /\
     ~ exists e', e' ∈ Obj.values (workspaceHistory st) /\
                  he_path e' = k /\ existsSync fs k = false).
Proof.
  unfold getRecentFolders. rewrite recentLoop_spec. simpl.
  split; [|split].
  - pose proof (byLastOpenedDesc_sorted (Obj.values (getHistory st))) as Hs.
    unfold getHistorySorted.
    induction Hs as [|e l _ IH Hall]; simpl; [constructor|].
    destruct (listedAsRecent fs _ _ e); simpl; [|done].
    constructor; [done|].
    apply Forall_forall. intros f (x & <- & [Hx _]%elem_of_filter_bool)%elem_of_map_iff.
    rewrite Forall_forall in Hall. simpl. by apply Hall.
  - intros f (e & <- & [_ He]%elem_of_filter_bool)%elem_of_map_iff. simpl.
    unfold listedAsRecent in He.
    apply andb_true_iff in He as [He _].
    apply andb_true_iff in He as [He Hsub].
    apply andb_true_iff in He as [Hex Hproj].
    split; [done|]. intros p Hp.
    apply negb_true_iff in Hproj, Hsub. split.
    + apply includes_false in Hproj. intros Heq. apply Hproj.
      apply elem_of_map_iff. by exists p.
    + destruct (Js.startsWith _ _) eqn:Hst; [|done].
      assert (isSubfolder (List.map path excludeProjects) (he_path e) = true);
        [|congruence].
      unfold isSubfolder. apply existsb_exists. exists (path p).
      split; [|done]. apply in_map. by apply list_elem_of_In.
  - intros k e. rewrite fold_removeFromHistory, elem_of_filter_bool. simpl.
    rewrite negb_true_iff, includes_false.
    split; intros [Hin Hno]; (split; [done|]).
    + intros (e' & He' & Hk & Hex). apply Hno.
      apply elem_of_map_iff. exists e'. split; [done|].
      apply elem_of_filter_bool. split; [by apply elem_of_sort|].
      by rewrite Hk, Hex.
    + intros (e' & Hk & [He' Hex]%elem_of_filter_bool)%elem_of_map_iff.
      apply Hno. exists e'. split; [by apply elem_of_sort in He'|].
      split; [done|]. rewrite Hk in Hex. by apply negb_true_iff.
Qed.
(** A folder with a path part [base.worktrees], for a project name
    [base] that does not itself contain [.worktrees], is not listed. *)
Lemma isWorktreeFolder_under_project projectNames entryPath base :
  base ∈ projectNames ->
  Js.str_includes base ".worktrees" = false ->
  String.append base ".worktrees" ∈ Js.split entryPath path_sep ->
  isWorktreeFolder projectNames entryPath = true.
Proof.
  intros Hbase Hclean Hpart. unfold isWorktreeFolder.
  assert (Hinc : Js.str_includes entryPath ".worktrees" = true).
  { destruct (split_part _ _ _ Hpart) as (a & b & ->).
    apply str_includes_app_l, str_includes_app_r, str_includes_app_l.
    reflexivity. }
  rewrite Hinc. apply existsb_exists.
  exists (String.append base ".worktrees"). split; [by apply list_elem_of_In|].
  rewrite endsWith_append, replace_worktrees_suffix by done.
  by apply includes_true.
Qed.

Lemma getRecentFolders_omits_worktrees fs excludeProjects st f p :
  f ∈ (getRecentFolders fs excludeProjects st).1 ->
  p ∈ excludeProjects ->
  Js.str_includes (name p) ".worktrees" = false ->
  String.append (name p) ".worktrees" ∉ Js.split (rf_path f) path_sep.
Proof.
  unfold getRecentFolders. rewrite recentLoop_spec. simpl.
  intros (e & <- & [_ He]%elem_of_filter_bool)%elem_of_map_iff Hp Hclean Hpart.
  simpl in Hpart. unfold listedAsRecent in He.
  apply andb_true_iff in He as [_ Hwt]. apply negb_true_iff in Hwt.
  rewrite (isWorktreeFolder_under_project _ _ (name p)) in Hwt; [done| |done..].
  apply elem_of_map_iff. by exists p.
Qed.
End RecentFolders.

(** C10 fails on the code at this input: the folder lies under the
    directory [a.worktrees-old.worktrees] of the known project
    [a.worktrees-old], and [getRecentFolders] still lists it, because
    [part.replace('.worktrees', '')] removes the first occurrence and
    yields [a-old.worktrees] as base name. *)
Lemma getRecentFolders_lists_worktree_folder :
  name renamedProject = "a.worktrees-old" /\
  String.append (name renamedProject) ".worktrees"
    ∈ Js.split "/r/a.worktrees-old.worktrees/feat" (path_sep (Platform := Posix.platform)) /\
  Js.replace "a.worktrees-old.worktrees" ".worktrees" EmptyString = "a-old.worktrees" /\
  (getRecentFolders (H := Posix.platform) renamedFs [renamedProject] renamedHistory).1
  = [{| rf_name := "feat"; rf_path := "/r/a.worktrees-old.worktrees/feat";
        rf_lastOpened := 10; rf_openCount := 0 |}].
Proof.
  split; [reflexivity|]. split; [|split; vm_compute; reflexivity].
  apply list_elem_of_In. vm_compute. tauto.
Qed.

(** ** The tag hierarchy *)

Lemma length_pos_elem_of {A : Type} (l : list A) :
  (0 <? length l)%nat = true <-> exists x, x ∈ l.
Proof.
  destruct l as [|a l]; simpl.
  - split; [done|]. by intros [x ?%elem_of_nil].
  - split; [|done]. intros _. exists a. by left.
Qed.

Lemma elem_of_rev {A : Type} (l : list A) (x : A) : x ∈ rev l <-> x ∈ l.
Proof. rewrite !list_elem_of_In. symmetry. apply in_rev. Qed.

Lemma shownTags_app (l1 l2 : list ProjectsTreeElement) :
  shownTags (l1 ++ l2) = shownTags l1 ++ shownTags l2.
Proof. unfold shownTags. apply omap_app. Qed.

Lemma listedProjects_app (l1 l2 : list ProjectsTreeElement) :
  listedProjects (l1 ++ l2) = listedProjects l1 ++ listedProjects l2.
Proof. unfold listedProjects. apply omap_app. Qed.

Lemma elem_of_shownTags (items : list ProjectsTreeElement) (t : ProjectTag) :
  t ∈ shownTags items <-> exists d tp n hc, TagTreeItem t d tp n hc ∈ items.
Proof.
  unfold shownTags. rewrite list_elem_of_omap. split.
  - intros ([t' d tp n hc| |] & Hin & Heq); simplify_eq. by exists d, tp, n, hc.
  - intros (d & tp & n & hc & Hin). by exists (TagTreeItem t d tp n hc).
Qed.

Lemma elem_of_listedProjects (items : list ProjectsTreeElement) (p : Project) :
  p ∈ listedProjects items <-> exists s c d, ProjectTreeItem p s c d ∈ items.
Proof.
  unfold listedProjects. rewrite list_elem_of_omap. split.
  - intros ([| |p' s c d] & Hin & Heq); simplify_eq. by exists s, c, d.
  - intros (s & c & d & Hin). by exists (ProjectTreeItem p s c d).
Qed.

Section TagHierarchy.
Context `{Platform}.
Variable fs : FileSystem.
Variable config : ProjectoryConfig.
Variable st : Memento.
Variable this : ProjectsTreeProvider.

Lemma elem_of_getTagsByPriority (t : ProjectTag) (p : Z) :
  t ∈ getTagsByPriority (tags config) p <->
  t ∈ getTags (tags config) /\ priority t = p.
Proof.
  unfold getTagsByPriority.
  by rewrite elem_of_sort, elem_of_filter_bool, Z.eqb_eq.
Qed.

Lemma elem_of_getProjectsWithAllTags (p : Project) (tagIds : list string) :
  p ∈ getProjectsWithAllTags st this tagIds <->
  p ∈ _projects this /\ carriesAll st p tagIds.
Proof.
  unfold getProjectsWithAllTags, carriesAll, carries.
  rewrite elem_of_filter_bool, every_true.
  by setoid_rewrite includes_true.
Qed.

Lemma carriesAll_snoc (p : Project) (tagPath : list string) (n : string) :
  carriesAll st p (tagPath ++ [n]) <-> carriesAll st p tagPath /\ carries st p n.
Proof.
  unfold carriesAll. split.
  - intros Hall. split; [|apply Hall, elem_of_app; right; by left].
    intros m Hm. apply Hall, elem_of_app. by left.
  - intros [Hall Hn] m [Hm|Hm]%elem_of_app; [by apply Hall|].
    by apply list_elem_of_singleton in Hm as ->.
Qed.

Lemma carriesAll_single (p : Project) (n : string) :
  carriesAll st p [n] <-> carries st p n.
Proof.
  unfold carriesAll. split.
  - intros Hall. apply Hall. by left.
  - by intros Hn m ->%list_elem_of_singleton.
Qed.

Lemma elem_of_filterTagNames (f : string) :
  f ∈ filterTagNames this <-> f ∈ _filterTagIds this /\ f <> UNTAGGED.
Proof.
  unfold filterTagNames. rewrite elem_of_filter_bool, negb_true_iff.
  destruct (String.eqb_spec f UNTAGGED); split; intros [? ?]; by split.
Qed.

Lemma elem_of_getUntaggedProjects (allPaths : list string) (p : string) :
  p ∈ ProjectMetadataService.getUntaggedProjects allPaths st <->
  p ∈ allPaths /\ ProjectMetadataService.getTags p st = [].
Proof.
  unfold ProjectMetadataService.getUntaggedProjects, ProjectMetadataService.getTags,
    ProjectMetadataService.getMetadata, ProjectMetadataService.getAll.
  rewrite elem_of_filter_bool.
  destruct (projectMetadata st !! p) as [[ids]|]; simpl;
    [destruct ids; simpl|]; split; intros [? ?]; by split.
Qed.

Lemma untagged_paths_exist :
  (0 <? length (ProjectMetadataService.getUntaggedProjects
                  (List.map path (_projects this)) st))%nat = true <->
  exists p, p ∈ _projects this /\ untagged st p.
Proof.
  rewrite length_pos_elem_of. unfold untagged. split.
  - intros (x & Hx). apply elem_of_getUntaggedProjects in Hx as [Hx Hnil].
    apply elem_of_map_iff in Hx as (p & <- & Hp). by exists p.
  - intros (p & Hp & Hnil). exists (path p).
    apply elem_of_getUntaggedProjects. split; [|done].
    apply elem_of_map_iff. by exists p.
Qed.

Lemma elem_of_sortProjects (l : list Project) o d (p : Project) :
  p ∈ sortProjects l o d st <-> p ∈ l.
Proof.
  unfold sortProjects, sortProjectsByName, sortProjectsByRecent.
  destruct o, d; simpl; rewrite ?elem_of_rev; apply elem_of_sort.
Qed.
End TagHierarchy.

Section TagChildren.
Context `{Platform}.
Variable fs : FileSystem.
Variable config : ProjectoryConfig.
Variable st : Memento.
Variable this : ProjectsTreeProvider.

Abbreviation filterNames := (filterTagNames this).
Abbreviation isFiltered := ((0 <? length (filterTagNames this))%nat).

Lemma matchesFilter_true (p : Project) :
  matchesFilter st this p = true <-> exists f, f ∈ filterNames /\ carries st p f.
Proof.
  unfold matchesFilter, carries. rewrite some_true.
  by setoid_rewrite includes_true.
Qed.

Lemma subTagLoop_cons tagPath nextPriority tag rest :
  subTagLoop config st this tagPath nextPriority (tag :: rest)
  = let m := subTagMatches st this tagPath tag in
    let isFilterTag := Js.includes filterNames (tag_name tag) in
    ((if (0 <? length m)%nat
      then [TagTreeItem tag (tag_name tag) (tagPath ++ [tag_name tag]) (length m)
              (if isFiltered
               then negb isFilterTag && (nextPriority <? groupingDepth config)
               else nextPriority <? groupingDepth config)]
      else [])
     ++ (subTagLoop config st this tagPath nextPriority rest).1,
     (if (0 <? length m)%nat
      then (if isFiltered
            then (if isFilterTag then List.map path m else [])
            else List.map path m)
      else [])
     ++ (subTagLoop config st this tagPath nextPriority rest).2).
Proof.
  simpl. unfold subTagMatches. fold (matchesFilter st this).
  destruct (subTagLoop config st this tagPath nextPriority rest) as [items' grouped'].
  destruct isFiltered; simpl.
  - destruct (0 <? length (List.filter (matchesFilter st this) _))%nat; simpl; [|done].
    by destruct (Js.includes filterNames (tag_name tag)).
  - by destruct (0 <? length (getProjectsWithAllTags st this _))%nat.
Qed.

Lemma subTagLoop_items tagPath nextPriority nextLevelTags :
  (subTagLoop config st this tagPath nextPriority nextLevelTags).1
  = List.map (subTagItem config st this tagPath nextPriority)
      (List.filter (fun t => (0 <? length (subTagMatches st this tagPath t))%nat)
                   nextLevelTags).
Proof.
  induction nextLevelTags as [|tag rest IH]; [done|].
  rewrite subTagLoop_cons. cbv zeta. cbn [fst List.filter]. rewrite IH.
  by destruct (0 <? length (subTagMatches st this tagPath tag))%nat.
Qed.

Lemma subTagLoop_grouped tagPath nextPriority nextLevelTags :
  (subTagLoop config st this tagPath nextPriority nextLevelTags).2
  = flat_map (subTagGrouped st this tagPath) nextLevelTags.
Proof.
  induction nextLevelTags as [|tag rest IH]; [done|].
  rewrite subTagLoop_cons. cbv zeta. cbn [snd flat_map]. by rewrite IH.
Qed.

Lemma shownTags_subTagItems tagPath nextPriority (l : list ProjectTag) :
  shownTags (List.map (subTagItem config st this tagPath nextPriority) l) = l.
Proof. induction l as [|t l IH]; simpl; [done|]. by rewrite IH. Qed.

Lemma listedProjects_subTagItems tagPath nextPriority (l : list ProjectTag) :
  listedProjects (List.map (subTagItem config st this tagPath nextPriority) l) = [].
Proof. induction l as [|t l IH]; simpl; [done|]. by rewrite IH. Qed.

Lemma shownTags_projectItems (s c : Project -> bool) (d : Project -> option string)
    (l : list Project) :
  shownTags (List.map (fun p => ProjectTreeItem p (s p) (c p) (d p)) l) = [].
Proof. induction l as [|p l IH]; simpl; [done|]. exact IH. Qed.

Lemma listedProjects_projectItems (s c : Project -> bool) (d : Project -> option string)
    (l : list Project) :
  listedProjects (List.map (fun p => ProjectTreeItem p (s p) (c p) (d p)) l) = l.
Proof.
  induction l as [|p l IH]; simpl; [done|].
  unfold listedProjects in *. simpl. by rewrite IH.
Qed.

Lemma shownTags_getTagChildren parentTag tagPath :
  shownTags (getTagChildren fs config st this parentTag tagPath)
  = subTagsOf config st this parentTag tagPath.
Proof.
  unfold getTagChildren, subTagsOf.
  destruct (priority parentTag <? groupingDepth config).
  - destruct (subTagLoop _ _ _ _ _ _) as [items grouped] eqn:Hloop.
    pose proof (subTagLoop_items tagPath (priority parentTag + 1)
                  (getTagsByPriority (tags config) (priority parentTag + 1))) as Hi.
    rewrite Hloop in Hi. simpl in Hi. subst items.
    rewrite shownTags_app, shownTags_subTagItems.
    rewrite shownTags_projectItems. apply app_nil_r.
  - simpl. apply shownTags_projectItems.
Qed.

Lemma elem_of_listedProjects_getTagChildren parentTag tagPath (p : Project) :
  p ∈ listedProjects (getTagChildren fs config st this parentTag tagPath) <->
  (p ∈ getProjectsWithAllTags st this tagPath) /\
  (path p ∉ groupedPathsOf config st this parentTag tagPath) /\
  (isFiltered = true ->
     matchesFilter st this p = true /\ Js.includes filterNames (tag_name parentTag) = true).
Proof.
  unfold getTagChildren, groupedPathsOf.
  assert (Hitems : forall items grouped,
    listedProjects items = [] ->
    p ∈ listedProjects
          (items ++
           List.map
             (fun project =>
                ProjectTreeItem project (isSaved fs (path project) st)
                  (bool_decide (Some (path project) = currentWorkspacePath this))
                  (tagDescriptionOf config st tagPath project))
             (sortProjects
                (List.filter
                   (fun project =>
                      if Js.includes grouped (path project) then false
                      else if isFiltered then
                        if negb (matchesFilter st this project)
                           || negb (Js.includes filterNames (tag_name parentTag))
                        then false else true
                      else true)
                   (getProjectsWithAllTags st this tagPath))
                (sortOrder config) (sortDirection config) st)) <->
    (p ∈ getProjectsWithAllTags st this tagPath) /\
    (path p ∉ grouped) /\
    (isFiltered = true ->
       matchesFilter st this p = true /\
       Js.includes filterNames (tag_name parentTag) = true)).
  { intros items grouped Hnone.
    rewrite listedProjects_app, Hnone, app_nil_l.
    rewrite listedProjects_projectItems.
    rewrite elem_of_sortProjects, elem_of_filter_bool.
    destruct (Js.includes grouped (path p)) eqn:Hg.
    { apply includes_true in Hg. split; [by intros [_ ?]|]. by intros (_ & ? & _). }
    apply includes_false in Hg.
    destruct isFiltered.
    - destruct (matchesFilter st this p), (Js.includes filterNames (tag_name parentTag));
        simpl; split; try (by intros [_ ?]); try (intros (? & ? & Hf);
        by destruct (Hf eq_refl)); intros [? _]; repeat split; auto.
    - split; [intros [? _]|intros [? _]]; repeat split; auto; done. }
  destruct (priority parentTag <? groupingDepth config).
  - destruct (subTagLoop _ _ _ _ _ _) as [items grouped] eqn:Hloop.
    pose proof (subTagLoop_items tagPath (priority parentTag + 1)
                  (getTagsByPriority (tags config) (priority parentTag + 1))) as Hi.
    pose proof (subTagLoop_grouped tagPath (priority parentTag + 1)
                  (getTagsByPriority (tags config) (priority parentTag + 1))) as Hg.
    rewrite Hloop in Hi, Hg. simpl in Hi, Hg. subst items grouped.
    apply Hitems. apply listedProjects_subTagItems.
  - apply (Hitems [] []). done.
Qed.
End TagChildren.

Section TagTree.
Context `{Platform}.
Variable fs : FileSystem.
Variable config : ProjectoryConfig.
Variable st : Memento.
Variable this : ProjectsTreeProvider.

Abbreviation root := (getTagHierarchyRoot config st this).
Abbreviation children := (getTagChildren fs config st this).

Lemma elem_of_rootTagItems count hasChildren rootTags item :
  item ∈ rootTagItems count hasChildren rootTags <->
  exists t, t ∈ rootTags /\ (0 < count t)%nat /\
            item = TagTreeItem t (tag_name t) [tag_name t] (count t) (hasChildren t).
Proof.
  unfold rootTagItems. rewrite list_elem_of_In, in_flat_map. split.
  - intros (t & Ht & Hin). exists t. apply list_elem_of_In in Ht.
    destruct (Nat.ltb_spec 0 (count t)); [|done].
    destruct Hin as [<-|[]]. done.
  - intros (t & Ht & Hc & ->). exists t. split; [by apply list_elem_of_In|].
    destruct (Nat.ltb_spec 0 (count t)); [by left|lia].
Qed.

Lemma root_unfiltered :
  _filterTagIds this = [] ->
  root = rootTagItems (fun t => getProjectCountWithTags st this [tag_name t])
           (fun _ => 0 <? groupingDepth config)
           (getTagsByPriority (tags config) 0)
         ++ (if (0 <? length (ProjectMetadataService.getUntaggedProjects
                                (List.map path (_projects this)) st))%nat
             then [UntaggedTreeItem
                     (length (ProjectMetadataService.getUntaggedProjects
                                (List.map path (_projects this)) st))]
             else []).
Proof. intros Hnone. unfold getTagHierarchyRoot. by rewrite Hnone. Qed.

Lemma root_filtered :
  (exists f, f ∈ _filterTagIds this /\ f <> UNTAGGED) ->
  root = (if Js.includes (_filterTagIds this) UNTAGGED
             && (0 <? length (ProjectMetadataService.getUntaggedProjects
                                (List.map path (_projects this)) st))%nat
          then [UntaggedTreeItem
                  (length (ProjectMetadataService.getUntaggedProjects
                             (List.map path (_projects this)) st))]
          else [])
         ++ rootTagItems
              (fun t => getFilteredProjectCountUnderTag st this [tag_name t]
                          (filterTagNames this))
              (fun t => negb (Js.includes (filterTagNames this) (tag_name t))
                        && (0 <? groupingDepth config))
              (getTagsByPriority (tags config) 0).
Proof.
  intros (f & Hf & Hne). unfold getTagHierarchyRoot.
  assert (Hlen : (0 <? length (_filterTagIds this))%nat = true).
  { apply length_pos_elem_of. by exists f. }
  assert (Hlen' : (0 <? length (filterTagNames this))%nat = true).
  { apply length_pos_elem_of. exists f. by apply elem_of_filterTagNames. }
  by rewrite Hlen, Hlen'.
Qed.

Lemma getTagChildren_shape parentTag tagPath :
  exists projs,
    children parentTag tagPath
    = List.map (subTagItem config st this tagPath (priority parentTag + 1))
        (subTagsOf config st this parentTag tagPath)
      ++ List.map
           (fun project =>
              ProjectTreeItem project (isSaved fs (path project) st)
                (bool_decide (Some (path project) = currentWorkspacePath this))
                (tagDescriptionOf config st tagPath project))
           projs.
Proof.
  unfold getTagChildren, subTagsOf.
  destruct (priority parentTag <? groupingDepth config).
  - destruct (subTagLoop _ _ _ _ _ _) as [items grouped] eqn:Hloop.
    pose proof (subTagLoop_items config st this tagPath (priority parentTag + 1)
                  (getTagsByPriority (tags config) (priority parentTag + 1))) as Hi.
    rewrite Hloop in Hi. simpl in Hi. subst items. by eexists.
  - by eexists.
Qed.

Lemma subTagMatches_unfiltered tagPath t :
  filterTagNames this = [] ->
  subTagMatches st this tagPath t
  = getProjectsWithAllTags st this (tagPath ++ [tag_name t]).
Proof. intros Hnone. unfold subTagMatches. by rewrite Hnone. Qed.

(** Without a filter, the grouped paths are the paths of the projects
    counted under a displayed sub-tag. *)
Lemma elem_of_groupedPathsOf_unfiltered parentTag tagPath (x : string) :
  filterTagNames this = [] ->
  x ∈ groupedPathsOf config st this parentTag tagPath <->
  exists t q, t ∈ shownTags (children parentTag tagPath) /\
              q ∈ getProjectsWithAllTags st this (tagPath ++ [tag_name t]) /\
              path q = x.
Proof.
  intros Hnone. rewrite shownTags_getTagChildren.
  unfold groupedPathsOf, subTagsOf.
  destruct (priority parentTag <? groupingDepth config).
  2:{ split; [by intros ?%elem_of_nil|]. by intros (t & q & ?%elem_of_nil & _). }
  rewrite list_elem_of_In, in_flat_map. split.
  - intros (t & Ht & Hin). apply list_elem_of_In in Ht, Hin.
    unfold subTagGrouped in Hin. rewrite Hnone in Hin. simpl in Hin.
    destruct (0 <? length (subTagMatches st this tagPath t))%nat eqn:Hm;
      [|by apply elem_of_nil in Hin].
    apply elem_of_map_iff in Hin as (q & Hq & Hin).
    rewrite subTagMatches_unfiltered in Hin by done.
    exists t, q. split; [|done]. apply elem_of_filter_bool. by split.
  - intros (t & q & [Ht Hm]%elem_of_filter_bool & Hq & Hx).
    exists t. split; [by apply list_elem_of_In|]. apply list_elem_of_In.
    unfold subTagGrouped. rewrite Hnone, Hm. simpl.
    apply elem_of_map_iff. exists q. split; [done|].
    by rewrite subTagMatches_unfiltered.
Qed.

(** C3. Without an active filter (no filter tag besides the untagged
    marker; in particular with the empty filter), the projects listed
    directly under a tag node are exactly the projects that carry every
    tag of the node's path and none of the displayed sub-tags, so a
    project counted under a displayed sub-tag node is never listed
    directly at that level. *)
Theorem tag_children_deduplicated (parentTag : ProjectTag) (tagPath : list string) :
  filterTagNames this = [] ->
  (forall p,
      p ∈ listedProjects (children parentTag tagPath) <->
      p ∈ _projects this /\ carriesAll st p tagPath /\
      forall t, t ∈ shownTags (children parentTag tagPath) ->
                ~ carries st p (tag_name t)) /\
  (forall t p,
      t ∈ shownTags (children parentTag tagPath) ->
      p ∈ getProjectsWithAllTags st this (tagPath ++ [tag_name t]) ->
      p ∉ listedProjects (children parentTag tagPath)).
Proof.
  intros Hnone.
  assert (Hlisted : forall p,
    p ∈ listedProjects (children parentTag tagPath) <->
    p ∈ getProjectsWithAllTags st this tagPath /\
    path p ∉ groupedPathsOf config st this parentTag tagPath).
  { intros p. rewrite elem_of_listedProjects_getTagChildren, Hnone. simpl.
    split; [by intros (? & ? & _)|]. intros [? ?]. by repeat split. }
  split.
  - intros p. rewrite Hlisted, elem_of_getProjectsWithAllTags.
    rewrite elem_of_groupedPathsOf_unfiltered by done. split.
    + intros [[Hp Hall] Hno]. repeat split; [done..|].
      intros t Ht Hc. apply Hno. exists t, p. split; [done|]. split; [|done].
      apply elem_of_getProjectsWithAllTags. split; [done|].
      by apply carriesAll_snoc.
    + intros (Hp & Hall & Hno). split; [done|].
      intros (t & q & Ht & Hq & Hpath). apply (Hno t Ht).
      apply elem_of_getProjectsWithAllTags in Hq as [_ Hq].
      apply carriesAll_snoc in Hq as [_ Hq].
      unfold carries in *. by rewrite <- Hpath.
  - intros t p Ht Hp Hl. apply Hlisted in Hl as [_ Hl]. apply Hl.
    apply elem_of_groupedPathsOf_unfiltered; [done|]. by exists t, p.
Qed.
(** C2 (amended). With no tag filter set, the root shows exactly the
    priority-0 tags carried by some project, plus an untagged group
    exactly when some project has no tags; under a tag node of priority
    [p] the sub-tag nodes are exactly the tags of priority [p + 1]
    carried, together with every tag of the node's path, by some
    project, and there are sub-tag nodes only when [p] is below
    [groupingDepth]; each sub-tag node extends the path by its own name
    and counts the projects carrying the extended path. *)
Theorem tag_grouping_by_priority :
  _filterTagIds this = [] ->
  (forall t,
      t ∈ shownTags root <->
      t ∈ getTags (tags config) /\ priority t = 0 /\
      exists p, p ∈ _projects this /\ carries st p (tag_name t)) /\
  (showsUntaggedGroup root <-> exists p, p ∈ _projects this /\ untagged st p) /\
  (forall parentTag tagPath t,
      t ∈ shownTags (children parentTag tagPath) <->
      priority parentTag < groupingDepth config /\
      t ∈ getTags (tags config) /\ priority t = priority parentTag + 1 /\
      exists p, p ∈ _projects this /\ carriesAll st p tagPath /\
                carries st p (tag_name t)) /\
  (forall parentTag tagPath t d tp n hc,
      TagTreeItem t d tp n hc ∈ children parentTag tagPath ->
      tp = tagPath ++ [tag_name t] /\
      n = length (getProjectsWithAllTags st this tp)).
Proof.
  intros Hnone.
  assert (Hnames : filterTagNames this = [])
    by (unfold filterTagNames; by rewrite Hnone).
  split; [|split; [|split]].
  - intros t. rewrite (root_unfiltered Hnone), shownTags_app.
    rewrite elem_of_app, !elem_of_shownTags. split.
    + intros [(d & tp & n & hc & Hin)|(d & tp & n & hc & Hin)].
      * apply elem_of_rootTagItems in Hin as (t' & Ht' & Hc & [= <- _ _ _ _]).
        apply elem_of_getTagsByPriority in Ht' as [? ?].
        split; [done|]. split; [done|].
        unfold getProjectCountWithTags in Hc.
        destruct (getProjectsWithAllTags st this [tag_name t]) as [|p l] eqn:Hl;
          [simpl in Hc; lia|].
        assert (Hp : p ∈ getProjectsWithAllTags st this [tag_name t])
          by (rewrite Hl; left).
        apply elem_of_getProjectsWithAllTags in Hp as [Hp Hall].
        exists p. split; [done|]. by apply carriesAll_single.
      * exfalso. destruct (0 <? length _)%nat; [|by apply elem_of_nil in Hin].
        by apply list_elem_of_singleton in Hin.
    + intros (Ht & Hprio & p & Hp & Hc). left.
      eexists _, _, _, _. apply elem_of_rootTagItems. exists t.
      split; [by apply elem_of_getTagsByPriority|]. split; [|done].
      unfold getProjectCountWithTags.
      assert (Hin : p ∈ getProjectsWithAllTags st this [tag_name t]).
      { apply elem_of_getProjectsWithAllTags. split; [done|].
        by apply carriesAll_single. }
      destruct (getProjectsWithAllTags st this [tag_name t]);
        [by apply elem_of_nil in Hin|simpl; lia].
  - rewrite <- untagged_paths_exist. unfold showsUntaggedGroup.
    rewrite (root_unfiltered Hnone).
    destruct (0 <? length (ProjectMetadataService.getUntaggedProjects _ _))%nat.
    + split; [done|]. intros _. eexists. apply elem_of_app. right. by left.
    + split; [|done]. intros (n & [Hin|Hin]%elem_of_app).
      * by apply elem_of_rootTagItems in Hin as (t' & _ & _ & ?).
      * by apply elem_of_nil in Hin.
  - intros parentTag tagPath t. rewrite shownTags_getTagChildren. unfold subTagsOf.
    destruct (Z.ltb_spec (priority parentTag) (groupingDepth config)) as [Hlt|Hge].
    2:{ split; [by intros ?%elem_of_nil|]. intros [? _]. lia. }
    rewrite elem_of_filter_bool, elem_of_getTagsByPriority, length_pos_elem_of.
    rewrite subTagMatches_unfiltered by done.
    setoid_rewrite elem_of_getProjectsWithAllTags.
    setoid_rewrite carriesAll_snoc.
    split.
    + intros [[? ?] (p & ? & ? & ?)]. repeat split; [done..|]. by exists p.
    + intros (_ & ? & ? & p & ? & ? & ?). repeat split; [done..|]. by exists p.
  - intros parentTag tagPath t d tp n hc Hin.
    destruct (getTagChildren_shape parentTag tagPath) as [projs Heq].
    rewrite Heq in Hin. apply elem_of_app in Hin as [Hin|Hin];
      apply elem_of_map_iff in Hin as (x & Hx & _); [|done].
    unfold subTagItem in Hx. injection Hx as <- _ <- <- _.
    split; [done|]. by rewrite subTagMatches_unfiltered.
Qed.

(** C4. With at least one filter tag other than the untagged marker,
    the root shows exactly the priority-0 tags for which some project
    carries both the tag and one of the filter tags; the untagged group
    is shown exactly when the filter contains the untagged marker and
    some project has no tags; and a tag node lists projects directly
    only if its own tag is one of the filter tags. *)
Theorem filtered_tree_pruned :
  (exists f, f ∈ _filterTagIds this /\ f <> UNTAGGED) ->
  (forall t,
      t ∈ shownTags root <->
      t ∈ getTags (tags config) /\ priority t = 0 /\
      exists p, p ∈ _projects this /\ carries st p (tag_name t) /\
                exists f, (f ∈ _filterTagIds this /\ f <> UNTAGGED) /\ carries st p f) /\
  (showsUntaggedGroup root <->
     UNTAGGED ∈ _filterTagIds this /\ exists p, p ∈ _projects this /\ untagged st p) /\
  (forall parentTag tagPath p,
      p ∈ listedProjects (children parentTag tagPath) ->
      tag_name parentTag ∈ _filterTagIds this /\ tag_name parentTag <> UNTAGGED).
Proof.
  intros Hfilter.
  assert (Hlen : (0 <? length (filterTagNames this))%nat = true).
  { destruct Hfilter as (f & Hf). apply length_pos_elem_of. exists f.
    by apply elem_of_filterTagNames. }
  assert (Hcount : forall t,
    (0 < getFilteredProjectCountUnderTag st this [tag_name t] (filterTagNames this))%nat
    <-> exists p, p ∈ _projects this /\ carries st p (tag_name t) /\
          exists f, (f ∈ _filterTagIds this /\ f <> UNTAGGED) /\ carries st p f).
  { intros t. unfold getFilteredProjectCountUnderTag.
    rewrite <- Nat.ltb_lt, length_pos_elem_of.
    setoid_rewrite elem_of_filter_bool. split.
    - intros (p & Hp & Htest). exists p. split; [done|].
      destruct (Js.every [tag_name t] _) eqn:Hev; [|done]. simpl in Htest.
      rewrite every_true in Hev. rewrite some_true in Htest.
      split.
      + apply includes_true, Hev. by left.
      + destruct Htest as (f & Hf & Hc). exists f.
        split; [by apply elem_of_filterTagNames|by apply includes_true].
    - intros (p & Hp & Hc & f & Hf & Hcf). exists p. split; [done|].
      assert (Hev : Js.every [tag_name t]
                (fun tagId => Js.includes
                   (ProjectMetadataService.getTags (path p) st) tagId) = true).
      { apply every_true. intros x ->%list_elem_of_singleton.
        by apply includes_true. }
      rewrite Hev. simpl. apply some_true. exists f.
      split; [by apply elem_of_filterTagNames|by apply includes_true]. }
  split; [|split].
  - intros t. rewrite (root_filtered Hfilter), shownTags_app.
    rewrite elem_of_app, !elem_of_shownTags. split.
    + intros [(d & tp & n & hc & Hin)|(d & tp & n & hc & Hin)].
      * exfalso. destruct (_ && _); [|by apply elem_of_nil in Hin].
        by apply list_elem_of_singleton in Hin.
      * apply elem_of_rootTagItems in Hin as (t' & Ht' & Hc & [= <- _ _ _ _]).
        apply elem_of_getTagsByPriority in Ht' as [? ?].
        split; [done|]. split; [done|]. by apply Hcount.
    + intros (Ht & Hprio & Hex). right.
      eexists _, _, _, _. apply elem_of_rootTagItems. exists t.
      split; [by apply elem_of_getTagsByPriority|]. split; [|done].
      by apply Hcount.
  - rewrite <- untagged_paths_exist. unfold showsUntaggedGroup.
    rewrite (root_filtered Hfilter), <- includes_true.
    destruct (Js.includes (_filterTagIds this) UNTAGGED),
      (0 <? length (ProjectMetadataService.getUntaggedProjects _ _))%nat; cbn [andb].
    1:{ split; [done|]. intros _. eexists. apply elem_of_app. left. by left. }
    all: split; [|by intros [? ?]]; intros (n & [Hin|Hin]%elem_of_app);
      [by apply elem_of_nil in Hin
      |by apply elem_of_rootTagItems in Hin as (t' & _ & _ & ?)].
  - intros parentTag tagPath p Hp.
    apply elem_of_listedProjects_getTagChildren in Hp as (_ & _ & Hf).
    destruct (Hf Hlen) as [_ Hcur].
    by apply includes_true, elem_of_filterTagNames in Hcur.
Qed.
End TagTree.

Example unfiltered_root :
  getTagHierarchyRoot (H := Posix.platform) exampleConfig exampleStore unfilteredTree
  = [TagTreeItem {| tag_name := "Backend"; priority := 0 |} "Backend" ["Backend"] 1 true;
     TagTreeItem {| tag_name := "Frontend"; priority := 0 |} "Frontend" ["Frontend"] 2 true;
     UntaggedTreeItem 1].
Proof. vm_compute. reflexivity. Qed.

Example unfiltered_frontend_children :
  getTagChildren (H := Posix.platform) noFs exampleConfig exampleStore unfilteredTree
    {| tag_name := "Frontend"; priority := 0 |} ["Frontend"]
  = [TagTreeItem {| tag_name := "React"; priority := 1 |} "React"
       ["Frontend"; "React"] 1 false;
     ProjectTreeItem (project "site" "/w/site") false false None].
Proof. vm_compute. reflexivity. Qed.

Example filtered_root :
  getTagHierarchyRoot (H := Posix.platform) exampleConfig exampleStore filteredTree
  = [TagTreeItem {| tag_name := "Frontend"; priority := 0 |} "Frontend" ["Frontend"] 1 true].
Proof. vm_compute. reflexivity. Qed.

Example filtered_frontend_children :
  getTagChildren (H := Posix.platform) noFs exampleConfig exampleStore filteredTree
    {| tag_name := "Frontend"; priority := 0 |} ["Frontend"]
  = [TagTreeItem {| tag_name := "React"; priority := 1 |} "React"
       ["Frontend"; "React"] 1 false].
Proof. vm_compute. reflexivity. Qed.

Example filtered_react_children :
  getTagChildren (H := Posix.platform) noFs exampleConfig exampleStore filteredTree
    {| tag_name := "React"; priority := 1 |} ["Frontend"; "React"]
  = [ProjectTreeItem (project "web" "/w/web") false false None].
Proof. vm_compute. reflexivity. Qed.

Lemma tag_grouping_by_priority_witness :
  _filterTagIds unfilteredTree = [] /\
  (forall t,
      t ∈ shownTags (getTagHierarchyRoot (H := Posix.platform)
                       exampleConfig exampleStore unfilteredTree) <->
      t ∈ getTags (tags exampleConfig) /\ priority t = 0 /\
      exists p, p ∈ _projects unfilteredTree /\ carries exampleStore p (tag_name t)) /\
  (forall parentTag tagPath t,
      t ∈ shownTags (getTagChildren (H := Posix.platform) noFs exampleConfig
                       exampleStore unfilteredTree parentTag tagPath) <->
      priority parentTag < groupingDepth exampleConfig /\
      t ∈ getTags (tags exampleConfig) /\ priority t = priority parentTag + 1 /\
      exists p, p ∈ _projects unfilteredTree /\ carriesAll exampleStore p tagPath /\
                carries exampleStore p (tag_name t)).
Proof.
  assert (Hnone : _filterTagIds unfilteredTree = []) by reflexivity.
  destruct (tag_grouping_by_priority (H := Posix.platform) noFs exampleConfig
              exampleStore unfilteredTree Hnone) as (Hroot & _ & Hsub & _).
  split; [exact Hnone|]. split; [exact Hroot|exact Hsub].
Defined.

(** C2, as stated for the by-tags view in any filter state, fails: with
    the filter set to [React], the priority-0 tag [Backend] is carried
    by project [api] and one project is untagged, yet the root shows
    neither the tag nor the untagged group. *)
Lemma filtered_root_omits_carried_tag :
  {| tag_name := "Backend"; priority := 0 |} ∈ getTags (tags exampleConfig) /\
  (exists p, p ∈ _projects filteredTree /\ carries exampleStore p "Backend") /\
  (exists p, p ∈ _projects filteredTree /\ untagged exampleStore p) /\
  ({| tag_name := "Backend"; priority := 0 |}
     ∉ shownTags (getTagHierarchyRoot (H := Posix.platform)
                    exampleConfig exampleStore filteredTree)) /\
  ~ showsUntaggedGroup (getTagHierarchyRoot (H := Posix.platform)
                          exampleConfig exampleStore filteredTree).
Proof.
  split; [apply list_elem_of_In; vm_compute; tauto|].
  split.
  { exists (project "api" "/w/api"). split.
    - apply list_elem_of_In. vm_compute. tauto.
    - unfold carries. apply list_elem_of_In. vm_compute. tauto. }
  split.
  { exists (project "tool" "/w/tool"). split.
    - apply list_elem_of_In. vm_compute. tauto.
    - unfold untagged. vm_compute. reflexivity. }
  rewrite filtered_root. split.
  - intros Hin. apply list_elem_of_In in Hin. vm_compute in Hin.
    destruct Hin as [Heq|[]]. discriminate Heq.
  - intros (n & Hin). apply list_elem_of_singleton in Hin. discriminate Hin.
Qed.

Lemma tag_children_deduplicated_witness :
  filterTagNames unfilteredTree = [] /\
  (forall p,
      p ∈ listedProjects
            (getTagChildren (H := Posix.platform) noFs exampleConfig exampleStore
               unfilteredTree {| tag_name := "Frontend"; priority := 0 |} ["Frontend"]) <->
      p ∈ _projects unfilteredTree /\ carriesAll exampleStore p ["Frontend"] /\
      forall t,
        t ∈ shownTags
              (getTagChildren (H := Posix.platform) noFs exampleConfig exampleStore
                 unfilteredTree {| tag_name := "Frontend"; priority := 0 |} ["Frontend"]) ->
        ~ carries exampleStore p (tag_name t)).
Proof.
  assert (Hnone : filterTagNames unfilteredTree = []) by reflexivity.
  split; [exact Hnone|].
  exact (proj1 (tag_children_deduplicated (H := Posix.platform) noFs exampleConfig
                  exampleStore unfilteredTree
                  {| tag_name := "Frontend"; priority := 0 |} ["Frontend"] Hnone)).
Defined.

Lemma filtered_tree_pruned_witness :
  (exists f, f ∈ _filterTagIds filteredTree /\ f <> UNTAGGED) /\
  (forall parentTag tagPath p,
      p ∈ listedProjects
            (getTagChildren (H := Posix.platform) noFs exampleConfig exampleStore
               filteredTree parentTag tagPath) ->
      tag_name parentTag ∈ _filterTagIds filteredTree /\ tag_name parentTag <> UNTAGGED).
Proof.
  assert (Hfilter : exists f, f ∈ _filterTagIds filteredTree /\ f <> UNTAGGED).
  { exists "React". split; [left|]. discriminate. }
  split; [exact Hfilter|].
  exact (proj2 (proj2 (filtered_tree_pruned (H := Posix.platform) noFs exampleConfig
                         exampleStore filteredTree Hfilter))).
Defined.


(** * Properties of the remaining operations *)

(** ** Workspace history: entries *)

Lemma set_fresh {V : Type} (o : list (string * V)) (k : string) (v : V) :
  Obj.get o k = None -> Obj.set o k v = o ++ [(k, v)].
Proof.
  induction o as [|[k0 v0] o IH]; simpl; [done|].
  destruct (String.eqb_spec k0 k); [done|]. intros Hg. by rewrite IH.
Qed.

Lemma delete_fresh {V : Type} (o : list (string * V)) (k : string) :
  Obj.get o k = None -> Obj.delete o k = o.
Proof.
  unfold Obj.delete. induction o as [|[k0 v0] o IH]; simpl; [done|].
  destruct (String.eqb_spec k0 k); [done|]. intros Hg. simpl. by rewrite IH.
Qed.

Lemma get_delete {V : Type} (o : list (string * V)) (k q : string) :
  Obj.get (Obj.delete o k) q = if String.eqb q k then None else Obj.get o q.
Proof.
  unfold Obj.delete.
  rewrite (get_filter_key (fun k' => negb (String.eqb k' k))).
  by destruct (String.eqb q k).
Qed.

Lemma filter_key_wf (g : string -> bool) (h : list (string * WorkspaceHistoryEntry)) :
  historyWf h -> historyWf (List.filter (fun kv => g kv.1) h).
Proof.
  intros [Hnd Hk]. split.
  - unfold Obj.keys in *. clear Hk.
    induction h as [|[k0 e0] h IH]; simpl in *; [done|].
    apply NoDup_cons in Hnd as [Hk0 Hnd].
    destruct (g k0); simpl; [|by apply IH].
    apply NoDup_cons. split; [|by apply IH].
    intros Hin. apply Hk0. apply elem_of_map_iff in Hin as (kv & Hkv & Hin).
    apply elem_of_filter_bool in Hin as [Hin _].
    apply elem_of_map_iff. by exists kv.
  - rewrite Forall_forall in *. intros kv [Hin _]%elem_of_filter_bool. by apply Hk.
Qed.

Lemma delete_wf (h : list (string * WorkspaceHistoryEntry)) (k : string) :
  historyWf h -> historyWf (Obj.delete h k).
Proof. apply (filter_key_wf (fun k' => negb (String.eqb k' k))). Qed.

(** X1. [initializeTimestamp] never overwrites: for a path that has an
    entry it returns [false] and the store as it was; for a new path it
    returns [true] and appends an entry with [openCount = 0] and both
    times the given timestamp, without pruning, leaving every other
    entry alone. *)
Theorem initializeTimestamp_never_overwrites
    (folderPath : string) (timestamp : Z) (st : Memento) :
  (forall e, getEntry folderPath st = Some e ->
             initializeTimestamp folderPath timestamp st = (st, false)) /\
  (getEntry folderPath st = None ->
     let fresh := {| he_path := folderPath; lastOpened := timestamp;
                     openCount := 0; firstOpened := timestamp |} in
     let st' := (initializeTimestamp folderPath timestamp st).1 in
     (initializeTimestamp folderPath timestamp st).2 = true /\
     workspaceHistory st' = workspaceHistory st ++ [(folderPath, fresh)] /\
     getEntry folderPath st' = Some fresh /\
     getLastOpened folderPath st' = Some timestamp /\
     forall other, other <> folderPath -> getEntry other st' = getEntry other st).
Proof.
  unfold initializeTimestamp, getEntry, getLastOpened, getHistory. split.
  - intros e He. by rewrite He.
  - intros Hnone. rewrite Hnone. simpl.
    split; [done|]. split; [by apply set_fresh|].
    rewrite get_set_eq. split; [done|]. split; [done|].
    intros other Hne. by apply get_set_ne.
Qed.

(** X2. [removeFromHistory] deletes the entry of the path and no other;
    removing a path right after [initializeTimestamp] created its entry
    gives the earlier history back. *)
Theorem removeFromHistory_removes_one (folderPath : string) (st : Memento) :
  getEntry folderPath (removeFromHistory folderPath st) = None /\
  (forall other, other <> folderPath ->
     getEntry other (removeFromHistory folderPath st) = getEntry other st) /\
  sublist (workspaceHistory (removeFromHistory folderPath st)) (workspaceHistory st) /\
  (forall timestamp,
     getEntry folderPath st = None ->
     workspaceHistory
       (removeFromHistory folderPath (initializeTimestamp folderPath timestamp st).1)
     = workspaceHistory st).
Proof.
  unfold removeFromHistory, getEntry, getHistory. simpl.
  split; [|split; [|split]].
  - by rewrite get_delete, String.eqb_refl.
  - intros other Hne. rewrite get_delete. by destruct (String.eqb_spec other folderPath).
  - apply filter_bool_sublist.
  - intros timestamp Hnone. unfold initializeTimestamp, getHistory.
    rewrite Hnone. simpl. rewrite set_fresh by done.
    unfold Obj.delete. rewrite List.filter_app. simpl.
    rewrite String.eqb_refl. simpl. rewrite app_nil_r.
    by apply (delete_fresh (workspaceHistory st) folderPath).
Qed.

Section HistoryInvariant.
Context `{Platform}.

(** X3. Every operation of the history service keeps the history
    well-formed: keys stay distinct and every entry stays filed under
    its own path. *)
Theorem history_operations_keep_wf
    (fs : FileSystem) (now : Z) (folderPath : string)
    (excludeProjects : list Project) (st : Memento) :
  historyWf (workspaceHistory st) ->
  historyWf (workspaceHistory (recordOpen fs now folderPath st)) /\
  historyWf (workspaceHistory (recordCurrentWorkspace fs now [folderPath] st)) /\
  historyWf (workspaceHistory (initializeTimestamp folderPath now st).1) /\
  historyWf (workspaceHistory (removeFromHistory folderPath st)) /\
  historyWf (workspaceHistory (getRecentFolders fs excludeProjects st).2) /\
  historyWf (workspaceHistory (clearHistory st)).
Proof.
  intros Hwf.
  assert (Hrec : historyWf (workspaceHistory (recordOpen fs now folderPath st))).
  { unfold recordOpen. destruct (isWorktreePath fs folderPath); [done|]. simpl.
    rewrite pruneHistory_filter.
    apply (filter_key_wf (fun k => negb (Js.includes (prunedPaths _) k))).
    by apply touchEntry_wf. }
  split; [done|]. split.
  { unfold recordCurrentWorkspace. by destruct (isWorktreePath fs folderPath). }
  split.
  { unfold initializeTimestamp, getHistory.
    destruct (Obj.get (workspaceHistory st) folderPath) eqn:Hg; [done|]. simpl.
    destruct Hwf as [Hnd Hk]. apply get_None_not_key in Hg. split.
    - rewrite keys_set_fresh by done. apply NoDup_app. split; [done|].
      split; [|apply NoDup_singleton].
      intros k Hk1 Hk2. apply list_elem_of_singleton in Hk2 as ->. done.
    - by apply set_Forall. }
  split; [by apply delete_wf|]. split; [|repeat constructor].
  unfold getRecentFolders. rewrite recentLoop_spec. simpl.
  generalize (List.map he_path
                (List.filter (fun e => negb (existsSync fs (he_path e)))
                             (getHistorySorted st))).
  intros paths. clear Hrec. revert st Hwf.
  induction paths as [|p paths IH]; intros st Hwf; simpl; [done|].
  apply IH. by apply delete_wf.
Qed.
End HistoryInvariant.

Lemma history_operations_keep_wf_witness :
  historyWf (workspaceHistory crowded) /\
  historyWf (workspaceHistory
               (recordOpen (H := Posix.platform) worktreeFs 1000 "/p7" crowded)) /\
  historyWf (workspaceHistory
               (getRecentFolders (H := Posix.platform) worktreeFs [] crowded).2).
Proof.
  assert (Hwf : historyWf (workspaceHistory crowded))
    by (apply (bool_decide_unpack _); vm_compute; exact I).
  destruct (history_operations_keep_wf (H := Posix.platform) worktreeFs 1000 "/p7"
              [] crowded Hwf) as (Hrec & _ & _ & _ & Hrf & _).
  split; [exact Hwf|]. split; [exact Hrec|exact Hrf].
Defined.

(** ** Workspace history: orderings *)

Section SortFilter.
Context {A : Type} (compareFn : A -> A -> Z) (keep : A -> bool).
Hypothesis compare_trans :
  forall a b c, compareFn a b <= 0 -> compareFn b c <= 0 -> compareFn a c <= 0.

Lemma filter_sort_insert_drop x l :
  keep x = false ->
  List.filter keep (Js.sort_insert compareFn x l) = List.filter keep l.
Proof.
  intros Hx. induction l as [|y l IH]; simpl; [by rewrite Hx|].
  destruct (compareFn x y <=? 0); simpl; [by rewrite Hx|]. by rewrite IH.
Qed.

Lemma filter_sort_insert_keep x l :
  keep x = true ->
  StronglySorted (fun a b => compareFn a b <= 0) l ->
  List.filter keep (Js.sort_insert compareFn x l)
  = Js.sort_insert compareFn x (List.filter keep l).
Proof.
  intros Hx. induction 1 as [|y l Hs IH Hall]; simpl; [by rewrite Hx|].
  destruct (Z.leb_spec (compareFn x y) 0) as [Hle|Hgt]; simpl; rewrite ?Hx.
  - destruct (keep y); simpl.
    + destruct (Z.leb_spec (compareFn x y) 0); [done|lia].
    + assert (Hfront : forall z, z ∈ List.filter keep l -> compareFn x z <= 0).
      { intros z [Hz _]%elem_of_filter_bool. rewrite Forall_forall in Hall.
        eapply compare_trans; [exact Hle|by apply Hall]. }
      destruct (List.filter keep l) as [|z r]; [done|]. simpl.
      destruct (Z.leb_spec (compareFn x z) 0) as [|Hbad]; [done|].
      specialize (Hfront z ltac:(left)). lia.
  - destruct (keep y); simpl; rewrite IH; [|done].
    by destruct (Z.leb_spec (compareFn x y) 0); [lia|].
Qed.

(** Sorting commutes with filtering. *)
Lemma sort_filter_comm l :
  (forall a b, compareFn a b <= 0 \/ compareFn b a <= 0) ->
  Js.sort compareFn (List.filter keep l) = List.filter keep (Js.sort compareFn l).
Proof.
  intros Htotal. induction l as [|x l IH]; simpl; [done|].
  destruct (keep x) eqn:Hx; simpl.
  - rewrite IH. symmetry. apply filter_sort_insert_keep; [done|].
    by apply sort_sorted.
  - rewrite IH. symmetry. by apply filter_sort_insert_drop.
Qed.
End SortFilter.

Lemma byLastOpenedDesc_total (a b : WorkspaceHistoryEntry) :
  byLastOpenedDesc a b <= 0 \/ byLastOpenedDesc b a <= 0.
Proof. unfold byLastOpenedDesc. lia. Qed.

Lemma byLastOpenedDesc_trans (a b c : WorkspaceHistoryEntry) :
  byLastOpenedDesc a b <= 0 -> byLastOpenedDesc b c <= 0 -> byLastOpenedDesc a c <= 0.
Proof. unfold byLastOpenedDesc. lia. Qed.

Lemma filter_bool_sorted {A : Type} (R : A -> A -> Prop) (f : A -> bool) (l : list A) :
  StronglySorted R l -> StronglySorted R (List.filter f l).
Proof.
  induction 1 as [|x l _ IH Hall]; simpl; [constructor|].
  destruct (f x); [|done]. constructor; [done|].
  rewrite Forall_forall in *. intros y [Hy _]%elem_of_filter_bool. by apply Hall.
Qed.

Section HistoryOrder.
Context `{Platform}.

(** X4. [getHistorySorted] is a rearrangement of the stored entries with
    [lastOpened] never increasing; [getFrequentFolders] keeps, in that
    order, exactly the entries opened at least [minOpenCount] times, so
    a higher threshold gives a sublist of a lower one. *)
Theorem frequent_folders_most_recent_first (st : Memento) :
  getHistorySorted st ≡ₚ Obj.values (workspaceHistory st) /\
  StronglySorted (fun a b => lastOpened b <= lastOpened a) (getHistorySorted st) /\
  (forall minOpenCount,
     StronglySorted (fun a b => lastOpened b <= lastOpened a)
       (getFrequentFolders minOpenCount st) /\
     forall e, e ∈ getFrequentFolders minOpenCount st <->
               e ∈ Obj.values (workspaceHistory st) /\ minOpenCount <= openCount e) /\
  (forall low high,
     low <= high ->
     sublist (getFrequentFolders high st) (getFrequentFolders low st)).
Proof.
  unfold getFrequentFolders, getHistorySorted, getHistory.
  split; [apply sort_perm|]. split; [apply byLastOpenedDesc_sorted|]. split.
  - intros m. split; [apply filter_bool_sorted, byLastOpenedDesc_sorted|].
    intros e. by rewrite elem_of_filter_bool, elem_of_sort, Z.leb_le.
  - intros low high Hle.
    induction (Js.sort byLastOpenedDesc (Obj.values (workspaceHistory st)))
      as [|e l IH]; simpl; [done|].
    destruct (Z.leb_spec high (openCount e)), (Z.leb_spec low (openCount e));
      try lia; [by apply sublist_skip|by apply sublist_cons|exact IH].
Qed.

(** X5. [sortProjects] returns a rearrangement of the projects it is
    given; ascending is the reverse of descending for either sort order;
    and in the order [recent], direction [desc], the last-opened times,
    taken as 0 for a project without history entry, never increase. *)
Theorem sortProjects_rearranges
    (projects : list Project) (order : SortOrder) (st : Memento) :
  (forall direction, sortProjects projects order direction st ≡ₚ projects) /\
  sortProjects projects order asc st = rev (sortProjects projects order desc st) /\
  StronglySorted (fun a b => lastOpenedOf st b <= lastOpenedOf st a)
    (sortProjects projects recent desc st).
Proof.
  split; [|split].
  - intros direction. unfold sortProjects, sortProjectsByName, sortProjectsByRecent.
    destruct order, direction; simpl; try apply sort_perm.
    all: etrans; [symmetry; apply Permutation_rev|apply sort_perm].
  - unfold sortProjects. destruct order; simpl; [done|]. by rewrite rev_involutive.
  - unfold sortProjects, sortProjectsByRecent. simpl.
    eapply StronglySorted_weaken; [|apply sort_sorted].
    + unfold lastOpenedOf. intros a b Hab. simpl in Hab. lia.
    + intros a b. simpl. lia.
    + intros a b c. simpl. lia.
Qed.
End HistoryOrder.

(** ** Workspace history: counting opens *)

Lemma length_set {V : Type} (o : list (string * V)) (k : string) (v : V) :
  length (Obj.set o k v)
  = match Obj.get o k with Some _ => length o | None => S (length o) end.
Proof.
  induction o as [|[k0 v0] o IH]; simpl; [done|].
  destruct (String.eqb_spec k0 k); simpl; [done|]. rewrite IH.
  by destruct (Obj.get o k).
Qed.

Lemma last_cons_default {A : Type} (y : A) (l : list A) (d d' : A) :
  List.last (y :: l) d = List.last (y :: l) d'.
Proof.
  revert y. induction l as [|z l IH]; intros y; [done|].
  change (List.last (z :: l) d = List.last (z :: l) d'). apply IH.
Qed.

Lemma last_nonempty {A : Type} (x : A) (l : list A) (d d' : A) :
  List.last l x = List.last (x :: l) d'.
Proof.
  destruct l as [|y l]; [done|].
  change (List.last (y :: l) x = List.last (y :: l) d'). apply last_cons_default.
Qed.

Section CountingOpens.
Context `{Platform}.

Lemma recordOpen_present fs now p st e :
  isWorktreePath fs p = false ->
  (length (workspaceHistory st) <= MAX_HISTORY_ENTRIES)%nat ->
  getEntry p st = Some e ->
  getEntry p (recordOpen fs now p st) = Some (touched now p (Some e)) /\
  length (workspaceHistory (recordOpen fs now p st)) = length (workspaceHistory st).
Proof.
  intros Hwt Hlen He. unfold getEntry, getHistory in *.
  rewrite recordOpen_history by done.
  assert (Hl : length (touchEntry now p (workspaceHistory st))
               = length (workspaceHistory st)).
  { unfold touchEntry. rewrite He, length_set. by rewrite He. }
  rewrite pruneHistory_small by lia.
  split; [|done]. by rewrite get_touchEntry_eq, He.
Qed.

Lemma recordOpens_present fs times p st e :
  isWorktreePath fs p = false ->
  (length (workspaceHistory st) <= MAX_HISTORY_ENTRIES)%nat ->
  getEntry p st = Some e ->
  getEntry p (recordOpens fs times p st)
  = Some {| he_path := he_path e;
            lastOpened := List.last times (lastOpened e);
            openCount := openCount e + Z.of_nat (length times);
            firstOpened := firstOpened e |}.
Proof.
  intros Hwt. revert st e. unfold recordOpens.
  induction times as [|t times IH]; intros st e Hlen He; cbn [fold_left].
  - rewrite He. f_equal. destruct e; simpl. f_equal. lia.
  - destruct (recordOpen_present fs t p st e Hwt Hlen He) as [He' Hlen'].
    rewrite <- Hlen' in Hlen. rewrite (IH _ _ Hlen He').
    cbn [touched he_path lastOpened openCount firstOpened].
    rewrite <- (last_nonempty t times t (lastOpened e)). f_equal. f_equal.
    cbn [length]. lia.
Qed.

(** X6. A folder that is no linked worktree and has no history entry,
    opened at the times [t :: times] while the history has room for it,
    ends with an entry whose [openCount] is the number of opens, whose
    [firstOpened] is the first and whose [lastOpened] is the last of
    these times. *)
Theorem recordOpen_counts_opens
    (fs : FileSystem) (t : Z) (times : list Z) (folderPath : string) (st : Memento) :
  isWorktreePath fs folderPath = false ->
  (length (workspaceHistory st) < MAX_HISTORY_ENTRIES)%nat ->
  getEntry folderPath st = None ->
  getEntry folderPath (recordOpens fs (t :: times) folderPath st)
  = Some {| he_path := folderPath;
            lastOpened := List.last (t :: times) t;
            openCount := Z.of_nat (length (t :: times));
            firstOpened := t |}.
Proof.
  intros Hwt Hlen Hnone.
  change (recordOpens fs (t :: times) folderPath st)
    with (recordOpens fs times folderPath (recordOpen fs t folderPath st)).
  assert (Hl : length (touchEntry t folderPath (workspaceHistory st))
               = S (length (workspaceHistory st))).
  { unfold touchEntry. unfold getEntry, getHistory in Hnone.
    rewrite Hnone, length_set. by rewrite Hnone. }
  assert (Hh : workspaceHistory (recordOpen fs t folderPath st)
               = touchEntry t folderPath (workspaceHistory st)).
  { rewrite recordOpen_history by done. apply pruneHistory_small. lia. }
  rewrite (recordOpens_present fs times folderPath _
             (touched t folderPath None) Hwt).
  - cbn [touched he_path lastOpened openCount firstOpened length].
    rewrite <- (last_nonempty t times t t). f_equal. f_equal. lia.
  - rewrite Hh. lia.
  - unfold getEntry, getHistory. rewrite Hh, get_touchEntry_eq.
    unfold getEntry, getHistory in Hnone. by rewrite Hnone.
Qed.
End CountingOpens.

Lemma recordOpen_counts_opens_witness :
  getEntry "/a" (recordOpens (H := Posix.platform) noFs [5; 7; 9] "/a" emptyMemento)
  = Some {| he_path := "/a"; lastOpened := 9; openCount := 3; firstOpened := 5 |}.
Proof.
  apply (recordOpen_counts_opens (H := Posix.platform) noFs 5 [7; 9] "/a" emptyMemento).
  - reflexivity.
  - simpl. unfold MAX_HISTORY_ENTRIES. lia.
  - reflexivity.
Defined.

(** ** Recent folders: a second call *)

Lemma filter_bool_filter {A : Type} (f g : A -> bool) (l : list A) :
  List.filter f (List.filter g l) = List.filter (fun x => g x && f x) l.
Proof.
  induction l as [|x l IH]; simpl; [done|].
  destruct (g x); simpl; [|done]. destruct (f x); by rewrite IH.
Qed.

Lemma filter_bool_none {A : Type} (f : A -> bool) (l : list A) :
  (forall x, x ∈ l -> f x = false) -> List.filter f l = [].
Proof.
  induction l as [|x l IH]; intros Hf; simpl; [done|].
  rewrite (Hf x) by left. apply IH. intros y Hy. apply Hf. by right.
Qed.

Lemma filter_bool_ext {A : Type} (f g : A -> bool) (l : list A) :
  (forall x, x ∈ l -> f x = g x) -> List.filter f l = List.filter g l.
Proof.
  intros Hfg. apply filter_ext_in. intros x Hx. apply Hfg. by apply list_elem_of_In.
Qed.

Section RecentFoldersAgain.
Context `{Platform}.

(** With entries keyed by their paths, [getRecentFolders] leaves the
    bindings of the folders that exist. *)
Lemma getRecentFolders_history fs excludeProjects st :
  historyWf (workspaceHistory st) ->
  workspaceHistory (getRecentFolders fs excludeProjects st).2
  = List.filter (fun kv => existsSync fs kv.1) (workspaceHistory st).
Proof.
  intros [Hnd Hk]. unfold getRecentFolders. rewrite recentLoop_spec. simpl.
  rewrite fold_removeFromHistory. apply filter_bool_ext.
  intros [k e] Hin. simpl.
  rewrite Forall_forall in Hk. pose proof (Hk _ Hin) as Hke. simpl in Hke.
  destruct (existsSync fs k) eqn:Hex; simpl.
  - apply negb_true_iff, includes_false.
    intros (e' & Hk' & [_ He']%elem_of_filter_bool)%elem_of_map_iff.
    rewrite Hk', Hex in He'. done.
  - apply negb_false_iff, includes_true, elem_of_map_iff. exists e.
    split; [done|]. apply elem_of_filter_bool. split.
    + unfold getHistorySorted, getHistory. apply elem_of_sort.
      apply elem_of_map_iff. by exists (k, e).
    + by rewrite Hke, Hex.
Qed.

(** X7. On a history whose entries are keyed by their paths, calling
    [getRecentFolders] a second time on the store the first call left
    returns the same folders and changes nothing: the first call has
    removed every missing folder. *)
Theorem getRecentFolders_second_call
    (fs : FileSystem) (excludeProjects : list Project) (st : Memento) :
  historyWf (workspaceHistory st) ->
  getRecentFolders fs excludeProjects (getRecentFolders fs excludeProjects st).2
  = getRecentFolders fs excludeProjects st.
Proof.
  intros Hwf.
  pose proof (getRecentFolders_history fs excludeProjects st Hwf) as Hh.
  set (st' := (getRecentFolders fs excludeProjects st).2) in *.
  assert (Hsorted : getHistorySorted st'
                    = List.filter (fun e => existsSync fs (he_path e))
                        (getHistorySorted st)).
  { unfold getHistorySorted, getHistory. rewrite Hh.
    rewrite (values_filter_key (existsSync fs) he_path) by apply Hwf.
    apply sort_filter_comm;
      [apply byLastOpenedDesc_trans|apply byLastOpenedDesc_total]. }
  assert (Hfst : (getRecentFolders fs excludeProjects st).1
                 = List.map toRecentFolder
                     (List.filter
                        (listedAsRecent fs (List.map path excludeProjects)
                           (List.map name excludeProjects))
                        (getHistorySorted st))).
  { unfold getRecentFolders. by rewrite recentLoop_spec. }
  rewrite (surjective_pairing (getRecentFolders fs excludeProjects st)).
  fold st'. rewrite Hfst.
  unfold getRecentFolders at 1. rewrite recentLoop_spec, Hsorted.
  rewrite !filter_bool_filter.
  rewrite (filter_bool_none (fun e => _ && negb _)).
  - simpl. f_equal. f_equal. apply filter_bool_ext. intros e _.
    unfold listedAsRecent. by destruct (existsSync fs (he_path e)).
  - intros e _. by destruct (existsSync fs (he_path e)).
Qed.
End RecentFoldersAgain.

Lemma getRecentFolders_second_call_witness :
  getRecentFolders (H := Posix.platform) worktreeFs []
    (getRecentFolders (H := Posix.platform) worktreeFs [] crowded).2
  = getRecentFolders (H := Posix.platform) worktreeFs [] crowded.
Proof.
  apply (getRecentFolders_second_call (H := Posix.platform) worktreeFs [] crowded).
  apply (bool_decide_unpack _). vm_compute. exact I.
Defined.

(** ** Saved projects and excluded paths *)

Lemma filter_bool_idem {A : Type} (f : A -> bool) (l : list A) :
  List.filter f (List.filter f l) = List.filter f l.
Proof. apply filter_bool_all. by intros x [_ ?]%elem_of_filter_bool. Qed.

Lemma NoDup_map_filter {A B : Type} (f : A -> B) (g : A -> bool) (l : list A) :
  NoDup (List.map f l) -> NoDup (List.map f (List.filter g l)).
Proof.
  induction l as [|x l IH]; simpl; [done|].
  intros [Hx Hl]%NoDup_cons. destruct (g x); simpl; [|by apply IH].
  apply NoDup_cons. split; [|by apply IH].
  intros (y & Hy & [Hin _]%elem_of_filter_bool)%elem_of_map_iff.
  apply Hx, elem_of_map_iff. by exists y.
Qed.

Lemma NoDup_filter_bool {A : Type} (g : A -> bool) (l : list A) :
  NoDup l -> NoDup (List.filter g l).
Proof.
  intros Hnd. rewrite <- (List.map_id (List.filter g l)).
  apply NoDup_map_filter. by rewrite List.map_id.
Qed.

Lemma NoDup_snoc {A : Type} (l : list A) (x : A) :
  NoDup l -> x ∉ l -> NoDup (l ++ [x]).
Proof.
  intros Hnd Hx. apply NoDup_app. split; [done|]. split; [|apply NoDup_singleton].
  by intros y Hy ->%list_elem_of_singleton.
Qed.

Lemma isSaved_true (fs : FileSystem) (p : string) (st : Memento) :
  isSaved fs p st = true <-> p ∈ List.map sp_path (getSavedProjects fs st).
Proof.
  unfold isSaved. rewrite some_true, elem_of_map_iff. split.
  - intros (x & Hx & Heq%String.eqb_eq). by exists x.
  - intros (x & Heq & Hx). exists x. split; [done|]. by apply String.eqb_eq.
Qed.

Lemma isSaved_exists (fs : FileSystem) (p : string) (st : Memento) :
  isSaved fs p st = true -> existsSync fs p = true.
Proof.
  intros (x & <- & [_ Hx]%elem_of_filter_bool)%isSaved_true%elem_of_map_iff. done.
Qed.

Lemma membership_filter_ne (p q : string) (l : list string) :
  q ∈ List.filter (fun x => negb (String.eqb x p)) l <-> q ∈ l /\ q <> p.
Proof.
  rewrite elem_of_filter_bool, negb_true_iff.
  destruct (String.eqb_spec q p); split; intros [? ?]; done.
Qed.

Lemma filter_ne_absent (p : string) (l : list string) :
  p ∉ l -> List.filter (fun x => negb (String.eqb x p)) l = l.
Proof.
  intros Hp. apply filter_bool_all. intros x Hx.
  destruct (String.eqb_spec x p) as [->|]; done.
Qed.

Lemma filter_ne_snoc (p : string) (l : list string) :
  p ∉ l -> List.filter (fun x => negb (String.eqb x p)) (l ++ [p]) = l.
Proof.
  intros Hp. rewrite List.filter_app, filter_ne_absent by done. simpl.
  rewrite String.eqb_refl. simpl. apply app_nil_r.
Qed.

Section SavedProjects.
Context `{Platform}.

Lemma saveProject_new fs now p st :
  isSaved fs p st = false ->
  savedProjects (saveProject fs now p st)
  = getSavedProjects fs st
      ++ [{| sp_name := path_basename p; sp_path := p; savedAt := now |}] /\
  excludedPaths (saveProject fs now p st)
  = List.filter (fun x => negb (String.eqb x p)) (excludedPaths st) /\
  workspaceHistory (saveProject fs now p st) = workspaceHistory st /\
  ignoredSuggestionPaths (saveProject fs now p st) = ignoredSuggestionPaths st /\
  postponedSuggestions (saveProject fs now p st) = postponedSuggestions st /\
  projectMetadata (saveProject fs now p st) = projectMetadata st.
Proof.
  intros Hs. unfold saveProject. unfold isSaved in Hs. by rewrite Hs.
Qed.

Lemma saveProject_old fs now p st :
  isSaved fs p st = true -> saveProject fs now p st = st.
Proof. intros Hs. unfold saveProject. unfold isSaved in Hs. by rewrite Hs. Qed.

Lemma getSavedProjects_saveProject fs now p st :
  isSaved fs p st = false ->
  getSavedProjects fs (saveProject fs now p st)
  = getSavedProjects fs st
      ++ (if existsSync fs p
          then [{| sp_name := path_basename p; sp_path := p; savedAt := now |}]
          else []).
Proof.
  intros Hs. destruct (saveProject_new fs now p st Hs) as (Hsv & _).
  unfold getSavedProjects at 1. rewrite Hsv, List.filter_app.
  unfold getSavedProjects. rewrite filter_bool_idem. simpl.
  by destruct (existsSync fs p).
Qed.

Lemma isSaved_saveProject fs now p st :
  isSaved fs p (saveProject fs now p st) = existsSync fs p.
Proof.
  destruct (isSaved fs p st) eqn:Hs.
  - rewrite saveProject_old by done. by rewrite Hs, (isSaved_exists _ _ _ Hs).
  - unfold isSaved, Js.some.
    rewrite (getSavedProjects_saveProject fs now p st Hs), existsb_app.
    unfold isSaved, Js.some in Hs. rewrite Hs. simpl.
    destruct (existsSync fs p); simpl; [|done]. by rewrite String.eqb_refl.
Qed.

Lemma isSaved_saveProject_ne fs now p q st :
  q <> p -> isSaved fs q (saveProject fs now p st) = isSaved fs q st.
Proof.
  intros Hq. destruct (isSaved fs p st) eqn:Hs.
  - by rewrite saveProject_old.
  - unfold isSaved, Js.some.
    rewrite (getSavedProjects_saveProject fs now p st Hs), existsb_app.
    destruct (existsSync fs p); simpl; [|by rewrite orb_false_r].
    destruct (String.eqb_spec p q); [congruence|]. by rewrite !orb_false_r.
Qed.

(** X8. After [saveProject] the folder is saved exactly when it exists
    on disk; no other folder changes its saved status; saving a folder
    that is already saved changes nothing, a newly saved folder is
    taken off the excluded paths; the stored list has no path twice if
    it had none before. *)
Theorem saveProject_saves
    (fs : FileSystem) (now : Z) (folderPath : string) (st : Memento) :
  isSaved fs folderPath (saveProject fs now folderPath st) = existsSync fs folderPath /\
  (forall q, q <> folderPath ->
     isSaved fs q (saveProject fs now folderPath st) = isSaved fs q st) /\
  (isSaved fs folderPath st = true -> saveProject fs now folderPath st = st) /\
  (isSaved fs folderPath st = false ->
     isExcluded folderPath (saveProject fs now folderPath st) = false) /\
  (NoDup (List.map sp_path (savedProjects st)) ->
     NoDup (List.map sp_path (savedProjects (saveProject fs now folderPath st)))).
Proof.
  destruct (isSaved fs folderPath st) eqn:Hs.
  - rewrite saveProject_old by done.
    split; [by rewrite Hs, (isSaved_exists _ _ _ Hs)|]. repeat split; done.
  - pose proof (getSavedProjects_saveProject fs now folderPath st Hs) as Hg.
    destruct (saveProject_new fs now folderPath st Hs) as (Hsv & Hex & _).
    split; [|split; [|split; [|split]]].
    + apply isSaved_saveProject.
    + intros q Hq. by apply isSaved_saveProject_ne.
    + done.
    + intros _. unfold isExcluded, getExcludedPaths. rewrite Hex.
      apply includes_false. rewrite membership_filter_ne. by intros [_ ?].
    + intros Hnd. rewrite Hsv, List.map_app. simpl. apply NoDup_snoc.
      * by apply NoDup_map_filter.
      * intros Hin%isSaved_true. congruence.
Qed.

(** X9. [removeSavedProject] leaves the folder not saved and no other
    folder's saved status changed, stores only folders that exist, and
    keeps the stored paths distinct. *)
Theorem removeSavedProject_removes
    (fs : FileSystem) (folderPath : string) (st : Memento) :
  isSaved fs folderPath (removeSavedProject fs folderPath st) = false /\
  (forall q, q <> folderPath ->
     isSaved fs q (removeSavedProject fs folderPath st) = isSaved fs q st) /\
  Forall (fun x => existsSync fs (sp_path x) = true)
    (savedProjects (removeSavedProject fs folderPath st)) /\
  (NoDup (List.map sp_path (savedProjects st)) ->
     NoDup (List.map sp_path (savedProjects (removeSavedProject fs folderPath st)))).
Proof.
  assert (Hg : getSavedProjects fs (removeSavedProject fs folderPath st)
               = List.filter (fun x => negb (String.eqb (sp_path x) folderPath))
                   (getSavedProjects fs st)).
  { unfold removeSavedProject, getSavedProjects. simpl.
    rewrite !filter_bool_filter. apply filter_bool_ext. intros x _.
    destruct (existsSync fs (sp_path x)); simpl; [|done].
    by rewrite andb_true_r. }
  split; [|split; [|split]].
  - destruct (isSaved _ _ _) eqn:Hs; [|done].
    apply isSaved_true in Hs. rewrite Hg in Hs.
    apply elem_of_map_iff in Hs as (x & Hx & [_ Hne]%elem_of_filter_bool).
    rewrite Hx, String.eqb_refl in Hne. done.
  - intros q Hq. apply eq_true_iff_eq. rewrite !isSaved_true, Hg, !elem_of_map_iff.
    split.
    + intros (x & Hx & [Hin _]%elem_of_filter_bool). by exists x.
    + intros (x & Hx & Hin). exists x. split; [done|].
      apply elem_of_filter_bool. split; [done|]. rewrite Hx.
      by destruct (String.eqb_spec q folderPath).
  - unfold removeSavedProject. simpl. apply Forall_forall.
    intros x [[_ Hx]%elem_of_filter_bool _]%elem_of_filter_bool. done.
  - intros Hnd. unfold removeSavedProject, getSavedProjects. simpl.
    by do 2 apply NoDup_map_filter.
Qed.
End SavedProjects.

(** X10. [excludePath] makes the path excluded and [unexcludePath]
    makes it not excluded, neither changes another path; excluding an
    excluded path changes nothing; the list keeps its paths distinct;
    and excluding then unexcluding a path that was not excluded gives
    the list back. *)
Theorem excluded_paths_as_set (folderPath : string) (st : Memento) :
  (forall q, q ∈ getExcludedPaths (excludePath folderPath st) <->
             q ∈ getExcludedPaths st \/ q = folderPath) /\
  (forall q, q ∈ getExcludedPaths (unexcludePath folderPath st) <->
             q ∈ getExcludedPaths st /\ q <> folderPath) /\
  excludePath folderPath (excludePath folderPath st) = excludePath folderPath st /\
  (isExcluded folderPath st = true -> excludePath folderPath st = st) /\
  (NoDup (getExcludedPaths st) ->
     NoDup (getExcludedPaths (excludePath folderPath st)) /\
     NoDup (getExcludedPaths (unexcludePath folderPath st))) /\
  (isExcluded folderPath st = false ->
     getExcludedPaths (unexcludePath folderPath (excludePath folderPath st))
     = getExcludedPaths st).
Proof.
  assert (Hex : forall q, q ∈ getExcludedPaths (excludePath folderPath st) <->
                          q ∈ getExcludedPaths st \/ q = folderPath).
  { intros q. unfold excludePath, getExcludedPaths.
    destruct (Js.includes (excludedPaths st) folderPath) eqn:Hinc; simpl.
    - apply includes_true in Hinc. split; [by left|by intros [?| ->]].
    - by rewrite elem_of_app, list_elem_of_singleton. }
  assert (Hid : forall st0, isExcluded folderPath st0 = true ->
                            excludePath folderPath st0 = st0).
  { intros st0 Hinc. unfold excludePath. unfold isExcluded in Hinc. by rewrite Hinc. }
  split; [exact Hex|]. split; [intros q; apply membership_filter_ne|]. split.
  { apply Hid. unfold isExcluded. apply includes_true, Hex. by right. }
  split; [apply Hid|]. split.
  - intros Hnd. split; [|by apply NoDup_filter_bool].
    unfold excludePath, getExcludedPaths in *.
    destruct (Js.includes (excludedPaths st) folderPath) eqn:Hinc; simpl; [done|].
    apply NoDup_snoc; [done|by apply includes_false].
  - intros Hinc. unfold isExcluded in Hinc. unfold excludePath. rewrite Hinc. simpl.
    unfold unexcludePath, getExcludedPaths; simpl.
    apply filter_ne_snoc. by apply includes_false.
Qed.

(** ** Suggestions: ignoring, postponing, answering *)

Lemma ignorePath_fields (p : string) (st : Memento) :
  workspaceHistory (ignorePath p st) = workspaceHistory st /\
  savedProjects (ignorePath p st) = savedProjects st /\
  postponedSuggestions (ignorePath p st) = postponedSuggestions st /\
  forall q, q ∈ ignoredSuggestionPaths (ignorePath p st) <->
            q ∈ ignoredSuggestionPaths st \/ q = p.
Proof.
  unfold ignorePath, getIgnoredPaths.
  destruct (Js.includes (ignoredSuggestionPaths st) p) eqn:Hinc; simpl.
  - apply includes_true in Hinc. repeat (split; [done|]).
    intros q. split; [by left|by intros [?| ->]].
  - repeat (split; [done|]). intros q.
    by rewrite elem_of_app, list_elem_of_singleton.
Qed.

Section Answers.
Context `{Platform}.

Lemma suggestible_ignorePath fs now config p st e :
  e ∈ (getSuggestibleFolders fs now config (ignorePath p st)).1 <->
  e ∈ (getSuggestibleFolders fs now config st).1 /\ he_path e <> p.
Proof.
  rewrite !elem_of_getSuggestibleFolders.
  destruct (ignorePath_fields p st) as (Hh & Hs & Hp & Hi).
  unfold eligible, getHistory, getSavedProjects, getIgnoredPaths,
    getPostponedSuggestions.
  rewrite Hh, Hs, Hp, Hi. clear Hh Hs Hp Hi. unfold not. tauto.
Qed.

(** X11. Ignoring a path takes exactly the entries of that path away
    from the suggestible folders; ignoring it again changes nothing;
    [unignorePath] removes the path from the ignored ones and nothing
    else, and gives the list back after [ignorePath] of a path that
    was not ignored. *)
Theorem ignored_path_not_suggested
    (fs : FileSystem) (now : Z) (config : SuggestionConfig)
    (folderPath : string) (st : Memento) :
  (forall e, e ∈ (getSuggestibleFolders fs now config (ignorePath folderPath st)).1 <->
             e ∈ (getSuggestibleFolders fs now config st).1 /\
             he_path e <> folderPath) /\
  ignorePath folderPath (ignorePath folderPath st) = ignorePath folderPath st /\
  (forall q, q ∈ getIgnoredPaths (unignorePath folderPath st) <->
             q ∈ getIgnoredPaths st /\ q <> folderPath) /\
  (folderPath ∉ getIgnoredPaths st ->
     getIgnoredPaths (unignorePath folderPath (ignorePath folderPath st))
     = getIgnoredPaths st).
Proof.
  split; [intros e; apply suggestible_ignorePath|]. split; [|split].
  - destruct (ignorePath_fields folderPath st) as (_ & _ & _ & Hi).
    unfold ignorePath at 1. unfold getIgnoredPaths.
    assert (Hin : Js.includes (ignoredSuggestionPaths (ignorePath folderPath st))
                    folderPath = true).
    { apply includes_true, Hi. by right. }
    by rewrite Hin.
  - intros q. apply membership_filter_ne.
  - intros Hno. unfold ignorePath, getIgnoredPaths in *.
    apply includes_false in Hno. rewrite Hno. simpl.
    apply filter_ne_snoc. by apply includes_false.
Qed.

(** X12. [postponeSuggestion] leaves exactly one postponement for the
    path, stamped with the current time, and the postponements of the
    other paths as they were; [unpostponePath] removes every
    postponement of the path and no other. *)
Theorem postponeSuggestion_one_per_path
    (now : Z) (folderPath : string) (st : Memento) :
  List.filter (fun s => String.eqb (ps_path s) folderPath)
    (getPostponedSuggestions (postponeSuggestion now folderPath st))
  = [{| ps_path := folderPath; postponedAt := now |}] /\
  List.filter (fun s => negb (String.eqb (ps_path s) folderPath))
    (getPostponedSuggestions (postponeSuggestion now folderPath st))
  = List.filter (fun s => negb (String.eqb (ps_path s) folderPath))
      (getPostponedSuggestions st) /\
  (forall s, s ∈ getPostponedSuggestions (unpostponePath folderPath st) <->
             s ∈ getPostponedSuggestions st /\ ps_path s <> folderPath) /\
  getPostponedSuggestions (unpostponePath folderPath (postponeSuggestion now folderPath st))
  = getPostponedSuggestions (unpostponePath folderPath st).
Proof.
  unfold postponeSuggestion, unpostponePath, getPostponedSuggestions. simpl.
  rewrite !List.filter_app, !filter_bool_idem. simpl.
  rewrite String.eqb_refl. simpl. rewrite !app_nil_r.
  split; [|split; [done|split; [|done]]].
  - rewrite filter_bool_filter, filter_bool_none; [done|].
    intros s _. by destruct (String.eqb (ps_path s) folderPath).
  - intros s. rewrite elem_of_filter_bool, negb_true_iff.
    destruct (String.eqb_spec (ps_path s) folderPath); split; intros [? ?]; done.
Qed.

(** X13. [checkCurrentWorkspace] suggests an entry only if it is a
    suggestible folder whose path is the first workspace folder, and
    it returns nothing only if no suggestible folder has that path, or
    no folder is open. *)
Theorem checkCurrentWorkspace_suggests_current
    (fs : FileSystem) (now : Z) (config : SuggestionConfig)
    (currentPath : option string) (st : Memento) :
  match (checkCurrentWorkspace fs now config currentPath st).1 with
  | Some e =>
      currentPath = Some (he_path e) /\
      e ∈ (getSuggestibleFolders fs now config st).1
  | None =>
      forall e, e ∈ (getSuggestibleFolders fs now config st).1 ->
                currentPath <> Some (he_path e)
  end.
Proof.
  unfold checkCurrentWorkspace. destruct currentPath as [p|]; simpl; [|done].
  destruct (getSuggestibleFolders fs now config st) as [l st'] eqn:Hl. simpl.
  destruct (List.find _ l) as [e|] eqn:Hfind.
  - apply find_some in Hfind as [Hin Heq%String.eqb_eq].
    split; [by rewrite Heq|by apply list_elem_of_In].
  - intros e He [= ->]. apply list_elem_of_In in He.
    apply (find_none _ _ Hfind) in He. by rewrite String.eqb_refl in He.
Qed.

(** X14. A suggestion not yet shown in this session is marked as shown,
    and showing it again in the session does nothing.  After the
    answers Save and Ignore the folder is no suggestible folder any
    more, after Later it is none for the next seven days; dismissing the
    notification leaves the store as it is. *)
Theorem showSuggestion_settles
    (fs : FileSystem) (now : Z) (entry : WorkspaceHistoryEntry)
    (answer : SuggestionAnswer) (shownThisSession : list string) (st : Memento) :
  he_path entry ∉ shownThisSession ->
  let r := showSuggestion fs now entry answer shownThisSession st in
  r.1 = shownThisSession ++ [he_path entry] /\
  (forall now' answer', showSuggestion fs now' entry answer' r.1 r.2 = r) /\
  (answer = Dismissed -> r.2 = st) /\
  (answer <> Dismissed ->
   forall config now' e,
     (answer = Later -> now' <= now + 7 * 24 * 60 * 60 * 1000) ->
     e ∈ (getSuggestibleFolders fs now' config r.2).1 ->
     he_path e <> he_path entry).
Proof.
  intros Hnew%includes_false. unfold showSuggestion. rewrite Hnew.
  assert (Hshown : Js.includes (shownThisSession ++ [he_path entry]) (he_path entry)
                   = true).
  { apply includes_true, elem_of_app. right. by left. }
  split; [by destruct answer|]. split; [|split].
  - intros now' answer'. destruct answer; simpl; by rewrite Hshown.
  - by intros ->.
  - intros Hans config now' e Hlater He Heq. destruct answer; simpl in He.
    + apply elem_of_getSuggestibleFolders in He as [_ He].
      destruct He as (_ & _ & Hsaved & _ & _ & _ & Hex & _).
      apply Hsaved. rewrite Heq. apply isSaved_true.
      unfold isSaved, getSavedProjects, unpostponePath. simpl.
      fold (getSavedProjects fs (saveProject fs now (he_path entry) st)).
      fold (isSaved fs (he_path entry) (saveProject fs now (he_path entry) st)).
      rewrite isSaved_saveProject. by rewrite <- Heq.
    + apply elem_of_getSuggestibleFolders in He as [_ He].
      destruct He as (_ & _ & _ & _ & Hpost & _).
      apply (Hpost {| ps_path := he_path entry; postponedAt := now |}); [| |done].
      * unfold postponeSuggestion, getPostponedSuggestions. simpl.
        apply elem_of_app. right. by left.
      * unfold isPostponeExpired, POSTPONE_DURATION_DAYS. simpl.
        apply Z.ltb_ge. specialize (Hlater eq_refl). lia.
    + apply suggestible_ignorePath in He as [_ Hne]. done.
    + done.
Qed.
End Answers.

Lemma showSuggestion_settles_witness :
  (he_path suggestedEntry ∉ ([] : list string)) /\
  let r := showSuggestion (H := Posix.platform) suggestionFs (100 * day)
             suggestedEntry Save [] suggestionStore in
  r.1 = [] ++ [he_path suggestedEntry] /\
  (forall now' answer',
     showSuggestion (H := Posix.platform) suggestionFs now' suggestedEntry answer'
       r.1 r.2 = r) /\
  (Save = Dismissed -> r.2 = suggestionStore) /\
  (Save <> Dismissed ->
   forall config now' e,
     (Save = Later -> now' <= 100 * day + 7 * 24 * 60 * 60 * 1000) ->
     e ∈ (getSuggestibleFolders (H := Posix.platform) suggestionFs now' config r.2).1 ->
     he_path e <> he_path suggestedEntry).
Proof.
  split; [apply not_elem_of_nil|].
  apply (showSuggestion_settles (H := Posix.platform) suggestionFs (100 * day)
           suggestedEntry Save [] suggestionStore).
  apply not_elem_of_nil.
Defined.

(** ** Project metadata: editing tags *)

Lemma removeFirst_absent (x : string) (l : list string) :
  x ∉ l -> MetadataAll.removeFirst x l = l.
Proof.
  induction l as [|y l IH]; simpl; [done|].
  intros [Hne Hl]%not_elem_of_cons.
  destruct (String.eqb_spec y x); [congruence|]. by rewrite IH.
Qed.

Lemma elem_of_removeFirst_ne (x y : string) (l : list string) :
  y <> x -> y ∈ MetadataAll.removeFirst x l <-> y ∈ l.
Proof.
  intros Hne. induction l as [|z l IH]; simpl; [done|].
  destruct (String.eqb_spec z x) as [->|Hz].
  - rewrite elem_of_cons. split; [by right|]. by intros [?|?].
  - by rewrite !elem_of_cons, IH.
Qed.

Lemma removeFirst_NoDup (x : string) (l : list string) :
  NoDup l -> (x ∉ MetadataAll.removeFirst x l) /\ NoDup (MetadataAll.removeFirst x l).
Proof.
  induction l as [|z l IH]; simpl; [by split; [apply not_elem_of_nil|]|].
  intros [Hz Hl]%NoDup_cons. destruct (String.eqb_spec z x) as [->|Hne]; [done|].
  destruct (IH Hl) as [Hx Hnd]. split.
  - apply not_elem_of_cons. by split.
  - apply NoDup_cons. split; [|done]. by rewrite elem_of_removeFirst_ne.
Qed.

Lemma replaceFirst_absent (x y : string) (l : list string) :
  x ∉ l -> MetadataAll.replaceFirst x y l = l.
Proof.
  induction l as [|z l IH]; simpl; [done|].
  intros [Hne Hl]%not_elem_of_cons.
  destruct (String.eqb_spec z x); [congruence|]. by rewrite IH.
Qed.

Lemma replaceFirst_length (x y : string) (l : list string) :
  length (MetadataAll.replaceFirst x y l) = length l.
Proof.
  induction l as [|z l IH]; simpl; [done|].
  destruct (String.eqb z x); simpl; by rewrite ?IH.
Qed.

Lemma elem_of_replaceFirst (x y z : string) (l : list string) :
  NoDup l ->
  z ∈ MetadataAll.replaceFirst x y l <-> (z ∈ l /\ z <> x) \/ (z = y /\ x ∈ l).
Proof.
  induction l as [|w l IH]; simpl.
  - intros _. split; [by intros ?%elem_of_nil|].
    intros [[?%elem_of_nil _]|[_ ?%elem_of_nil]]; done.
  - intros [Hw Hl]%NoDup_cons. destruct (String.eqb_spec w x) as [->|Hne].
    + rewrite !elem_of_cons. split.
      * intros [->|Hz]; [right; split; [done|by left]|].
        left. split; [by right|]. by intros ->.
      * intros [[[->|Hz] Hzx]|[-> _]]; [done|by right|by left].
    + rewrite !elem_of_cons, (IH Hl). split.
      * intros [->|[[Hz Hzx]|[-> Hx]]].
        -- left. split; [by left|done].
        -- left. split; [by right|done].
        -- right. split; [done|by right].
      * intros [[[->|Hz] Hzx]|[-> [->|Hx]]].
        -- by left.
        -- right. left. by split.
        -- done.
        -- right. right. by split.
Qed.

Module MetadataAllFacts.
Import ProjectMetadataService MetadataAll.

Lemma getTags_lookup p st :
  getTags p st
  = match projectMetadata st !! p with Some meta => tagIds meta | None => [] end.
Proof.
  unfold getTags, getMetadata, getAll. by destruct (projectMetadata st !! p).
Qed.

Lemma not_carried_anywhere t st :
  bool_decide (map_Exists (fun _ meta => t ∈ tagIds meta) (getAll st)) = false <->
  forall p, t ∉ getTags p st.
Proof.
  rewrite bool_decide_eq_false. unfold getAll. split.
  - intros Hno p Hin. apply Hno. rewrite getTags_lookup in Hin.
    destruct (projectMetadata st !! p) as [meta|] eqn:Hp;
      [|by apply elem_of_nil in Hin].
    by exists p, meta.
  - intros Hno (p & meta & Hp & Hin). apply (Hno p).
    by rewrite getTags_lookup, Hp.
Qed.

Lemma getTags_removeTag p t st :
  getTags p (removeTag p t st)
  = List.filter (fun id => negb (String.eqb id t)) (getTags p st).
Proof. unfold removeTag. apply MetadataFacts.getTags_setTags_eq. Qed.

Lemma getTags_addTag p t st :
  getTags p (addTag p t st)
  = if Js.includes (getTags p st) t then getTags p st else getTags p st ++ [t].
Proof.
  unfold addTag. destruct (Js.includes (getTags p st) t); simpl; [done|].
  apply MetadataFacts.getTags_setTags_eq.
Qed.

Lemma getTags_addTag_ne p q t st :
  p <> q -> getTags q (addTag p t st) = getTags q st.
Proof.
  intros Hne. unfold addTag. destruct (Js.includes (getTags p st) t); simpl; [done|].
  by apply MetadataFacts.setTags_other.
Qed.

(** X15. [removeTag] leaves the project's other tags in their order and
    no occurrence of the tag, [addTag] appends a tag that is missing;
    neither touches another project; tags added by [addTag] stay
    distinct, and removing a tag just added to a project that did not
    carry it gives the project's tags back. *)
Theorem tag_edits_on_one_project (p t : string) (st : Memento) :
  getTags p (removeTag p t st)
  = List.filter (fun id => negb (String.eqb id t)) (getTags p st) /\
  getTags p (addTag p t st)
  = (if Js.includes (getTags p st) t then getTags p st else getTags p st ++ [t]) /\
  (forall q, p <> q ->
     getTags q (removeTag p t st) = getTags q st /\
     getTags q (addTag p t st) = getTags q st) /\
  (NoDup (getTags p st) -> NoDup (getTags p (addTag p t st))) /\
  (t ∉ getTags p st -> getTags p (removeTag p t (addTag p t st)) = getTags p st).
Proof.
  split; [apply getTags_removeTag|]. split; [apply getTags_addTag|].
  split; [|split].
  - intros q Hne. split; [|by apply getTags_addTag_ne].
    unfold removeTag. by apply MetadataFacts.setTags_other.
  - intros Hnd. rewrite getTags_addTag.
    destruct (Js.includes (getTags p st) t) eqn:Hinc; [done|].
    apply NoDup_snoc; [done|by apply includes_false].
  - intros Hno. rewrite getTags_removeTag, getTags_addTag.
    apply includes_false in Hno. rewrite Hno. apply includes_false in Hno.
    by apply filter_ne_snoc.
Qed.

Lemma getTags_clearTagFromAll t p st :
  getTags p (clearTagFromAll t st) = removeFirst t (getTags p st).
Proof.
  unfold clearTagFromAll.
  destruct (bool_decide (map_Exists _ (getAll st))) eqn:Hch.
  - rewrite !getTags_lookup. unfold saveAll, getAll. simpl.
    rewrite lookup_omap.
    destruct (projectMetadata st !! p) as [meta|]; simpl; [|done].
    destruct (Js.includes (tagIds meta) t) eqn:Hinc; simpl.
    + destruct (removeFirst t (tagIds meta)) eqn:Hr; simpl; done.
    + symmetry. apply removeFirst_absent. by apply includes_false.
  - symmetry. apply removeFirst_absent.
    by apply (proj1 (not_carried_anywhere t st)).
Qed.

(** X16. [clearTagFromAll] removes from every project the first
    occurrence of the tag and nothing else; it leaves the store alone
    when no project carries the tag; if each project lists its tags
    without repetition, no project carries the tag afterwards and the
    other tags are carried as before; and it leaves no entry with an
    empty tag list if there was none. *)
Theorem clearTagFromAll_clears (t : string) (st : Memento) :
  (forall p, getTags p (clearTagFromAll t st) = removeFirst t (getTags p st)) /\
  ((forall p, t ∉ getTags p st) -> clearTagFromAll t st = st) /\
  ((forall p, NoDup (getTags p st)) ->
     forall p, (t ∉ getTags p (clearTagFromAll t st)) /\
               forall t', t' <> t ->
                 (t' ∈ getTags p (clearTagFromAll t st) <-> t' ∈ getTags p st)) /\
  ((forall p meta, projectMetadata st !! p = Some meta -> tagIds meta <> []) ->
     forall p meta, projectMetadata (clearTagFromAll t st) !! p = Some meta ->
                    tagIds meta <> []).
Proof.
  split; [intros p; apply getTags_clearTagFromAll|]. split; [|split].
  - intros Hno%not_carried_anywhere. unfold clearTagFromAll. by rewrite Hno.
  - intros Hnd p. rewrite getTags_clearTagFromAll. split.
    + by apply removeFirst_NoDup.
    + intros t' Hne. by apply elem_of_removeFirst_ne.
  - intros Hne p meta. unfold clearTagFromAll.
    destruct (bool_decide (map_Exists _ (getAll st))); [|apply Hne].
    unfold saveAll, getAll. simpl. rewrite lookup_omap.
    destruct (projectMetadata st !! p) as [meta0|] eqn:Hp; simpl; [|done].
    destruct (Js.includes (tagIds meta0) t).
    + destruct (removeFirst t (tagIds meta0)) eqn:Hr; simpl; [done|].
      intros [= <-]. simpl. done.
    + intros [= <-]. by apply (Hne p).
Qed.

Lemma getTags_renameTagInAll old new p st :
  getTags p (renameTagInAll old new st) = replaceFirst old new (getTags p st).
Proof.
  unfold renameTagInAll.
  destruct (bool_decide (map_Exists _ (getAll st))) eqn:Hch.
  - rewrite !getTags_lookup. unfold saveAll, getAll. simpl.
    rewrite lookup_fmap.
    destruct (projectMetadata st !! p) as [meta|]; simpl; [|done].
    destruct (Js.includes (tagIds meta) old) eqn:Hinc; simpl; [done|].
    symmetry. apply replaceFirst_absent. by apply includes_false.
  - symmetry. apply replaceFirst_absent.
    by apply (proj1 (not_carried_anywhere old st)).
Qed.

(** X17. [renameTagInAll] replaces in every project the first
    occurrence of the old name by the new one, so each project keeps
    the number of its tags; it leaves the store alone when no project
    carries the old name; and a project that lists its tags without
    repetition carries afterwards the new name if it carried the old
    one, and otherwise what it carried before. *)
Theorem renameTagInAll_renames (oldName newName : string) (st : Memento) :
  (forall p, getTags p (renameTagInAll oldName newName st)
             = replaceFirst oldName newName (getTags p st)) /\
  (forall p, length (getTags p (renameTagInAll oldName newName st))
             = length (getTags p st)) /\
  ((forall p, oldName ∉ getTags p st) -> renameTagInAll oldName newName st = st) /\
  (forall p t, NoDup (getTags p st) ->
     (t ∈ getTags p (renameTagInAll oldName newName st) <->
      (t ∈ getTags p st /\ t <> oldName) \/
      (t = newName /\ oldName ∈ getTags p st))).
Proof.
  split; [intros p; apply getTags_renameTagInAll|]. split; [|split].
  - intros p. rewrite getTags_renameTagInAll. apply replaceFirst_length.
  - intros Hno%not_carried_anywhere. unfold renameTagInAll. by rewrite Hno.
  - intros p t Hnd. rewrite getTags_renameTagInAll. by apply elem_of_replaceFirst.
Qed.

(** X18. [cleanup] keeps the tags of the paths that exist and leaves
    the other paths without tags; when every path with metadata exists
    the store is left alone. *)
Theorem cleanup_keeps_existing (existingPaths : list string) (st : Memento) :
  (forall p, getTags p (cleanup existingPaths st)
             = if bool_decide (p ∈ existingPaths) then getTags p st else []) /\
  ((forall p meta, projectMetadata st !! p = Some meta -> p ∈ existingPaths) ->
   cleanup existingPaths st = st).
Proof.
  assert (Hsame : (forall p meta, projectMetadata st !! p = Some meta ->
                                  p ∈ existingPaths) <->
                  bool_decide (map_Exists (fun path _ => path ∉ existingPaths)
                                 (getAll st)) = false).
  { rewrite bool_decide_eq_false. unfold getAll. split.
    - intros Hall (p & meta & Hp & Hno). apply Hno. by apply (Hall p meta).
    - intros Hno p meta Hp. destruct (decide (p ∈ existingPaths)); [done|].
      exfalso. apply Hno. by exists p, meta. }
  split.
  - intros p. unfold cleanup.
    destruct (bool_decide (map_Exists _ (getAll st))) eqn:Hch.
    + rewrite !getTags_lookup. unfold saveAll, getAll. simpl.
      destruct (projectMetadata st !! p) as [meta|] eqn:Hp.
      * destruct (decide (p ∈ existingPaths)) as [Hin|Hout].
        -- rewrite (bool_decide_eq_true_2 _ Hin).
           assert (Hl : filter (fun kv : string * ProjectMetadata =>
                                  kv.1 ∈ existingPaths) (projectMetadata st) !! p
                        = Some meta) by by apply map_lookup_filter_Some.
           by rewrite Hl.
        -- rewrite (bool_decide_eq_false_2 _ Hout).
           assert (Hl : filter (fun kv : string * ProjectMetadata =>
                                  kv.1 ∈ existingPaths) (projectMetadata st) !! p
                        = None).
           { apply map_lookup_filter_None. right. intros x _. done. }
           by rewrite Hl.
      * assert (Hl : filter (fun kv : string * ProjectMetadata =>
                               kv.1 ∈ existingPaths) (projectMetadata st) !! p
                     = None) by (apply map_lookup_filter_None; by left).
        rewrite Hl. by destruct (bool_decide (p ∈ existingPaths)).
    + pose proof (proj2 Hsame eq_refl) as Hall. rewrite getTags_lookup.
      destruct (projectMetadata st !! p) as [meta|] eqn:Hp.
      * by rewrite (bool_decide_eq_true_2 _ (Hall p meta Hp)).
      * by destruct (bool_decide (p ∈ existingPaths)).
  - intros Hall%Hsame. unfold cleanup. by rewrite Hall.
Qed.
End MetadataAllFacts.

(** ** The tag registry *)

Lemma trimEnd_idem (s : string) : Js.trimEnd (Js.trimEnd s) = Js.trimEnd s.
Proof.
  induction s as [|c r IH]; [done|]. cbn [Js.trimEnd].
  destruct (Js.trimEnd r) as [|a b] eqn:Hr.
  - destruct (Js.isWhiteSpace c) eqn:Hc; [done|]. simpl. by rewrite Hc.
  - cbn [Js.trimEnd]. cbn [Js.trimEnd] in IH. by rewrite IH.
Qed.

Lemma trimStart_head (s : string) :
  match Js.trimStart s with
  | EmptyString => True
  | String c _ => Js.isWhiteSpace c = false
  end.
Proof.
  induction s as [|c r IH]; [done|]. cbn [Js.trimStart].
  by destruct (Js.isWhiteSpace c) eqn:Hc.
Qed.

Lemma trim_idem (s : string) : Js.trim (Js.trim s) = Js.trim s.
Proof.
  unfold Js.trim. pose proof (trimStart_head s) as Hhead.
  destruct (Js.trimStart s) as [|c r]; [done|].
  rewrite (trimEnd_cons c r Hhead). cbn [Js.trimStart]. rewrite Hhead.
  rewrite (trimEnd_cons c _ Hhead). by rewrite trimEnd_idem.
Qed.

Lemma exists_true (tagsConfig : list (string * Z)) (name : string) :
  TagRegistry.exists_ tagsConfig name = true <->
  exists priority, Obj.get tagsConfig name = Some priority.
Proof.
  unfold TagRegistry.exists_. destruct (Obj.get tagsConfig name) as [p|].
  - split; [by exists p|done].
  - split; [done|]. by intros [? ?].
Qed.




Lemma distinct_acc (l seen : list Z) :
  let r := fold_left (fun seen x => if Js.includes seen x then seen else seen ++ [x])
             l seen in
  (NoDup seen -> NoDup r) /\ (forall x, x ∈ r <-> x ∈ seen \/ x ∈ l).
Proof.
  revert seen. induction l as [|y l IH]; intros seen; simpl.
  - split; [done|]. intros x. rewrite elem_of_nil. tauto.
  - destruct (IH (if Js.includes seen y then seen else seen ++ [y])) as [Hnd Hin].
    split.
    + intros Hs. apply Hnd. destruct (Js.includes seen y) eqn:Hy; [done|].
      apply NoDup_snoc; [done|by apply includes_false].
    + intros x. rewrite Hin, elem_of_cons.
      destruct (Js.includes seen y) eqn:Hy.
      * apply includes_true in Hy. split; [tauto|].
        intros [?|[->|?]]; tauto.
      * rewrite elem_of_app, list_elem_of_singleton. tauto.
Qed.

Lemma sorted_le_lt (l : list Z) :
  StronglySorted Z.le l -> NoDup l -> StronglySorted Z.lt l.
Proof.
  induction 1 as [|x l Hs IH Hall]; [constructor|].
  intros [Hx Hnd]%NoDup_cons. constructor; [by apply IH|].
  rewrite Forall_forall in *. intros y Hy. specialize (Hall y Hy).
  assert (x <> y) by (intros ->; done). lia.
Qed.

Lemma sorted_last (l : list Z) (d : Z) :
  StronglySorted Z.le l -> l <> [] ->
  List.last l d ∈ l /\ forall x, x ∈ l -> x <= List.last l d.
Proof.
  induction 1 as [|x l Hs IH Hall]; [done|]. intros _.
  destruct l as [|y l].
  - simpl. split; [by left|]. intros z ->%list_elem_of_singleton. lia.
  - destruct IH as [Hin Hmax]; [done|].
    change (List.last (x :: y :: l) d) with (List.last (y :: l) d).
    split; [by right|]. intros z [->|Hz]%elem_of_cons; [|by apply Hmax].
    rewrite Forall_forall in Hall. by apply Hall.
Qed.

Lemma fold_max (l : list Z) (a : Z) :
  fold_left Z.max l a ∈ a :: l /\ forall x, x ∈ a :: l -> x <= fold_left Z.max l a.
Proof.
  revert a. induction l as [|y l IH]; intros a; simpl.
  - split; [by left|]. intros x ->%list_elem_of_singleton. lia.
  - destruct (IH (Z.max a y)) as [Hin Hmax]. split.
    + apply elem_of_cons in Hin as [Heq|Hin]; [|by do 2 right].
      rewrite Heq. destruct (Z.max_spec a y) as [[_ ->]|[_ ->]];
        [right; by left|by left].
    + intros x Hx. assert (Hm : Z.max a y <= fold_left Z.max l (Z.max a y))
        by (apply Hmax; by left).
      apply elem_of_cons in Hx as [->|[->|Hx]%elem_of_cons]; [lia|lia|].
      apply Hmax. by right.
Qed.

Lemma priorities_values (tagsConfig : list (string * Z)) :
  List.map (fun '(_, level) => level) tagsConfig = Obj.values tagsConfig.
Proof. unfold Obj.values. apply map_ext. by intros [? ?]. Qed.

(** X22. [getPriorityLevels] lists exactly the priorities in use, in
    strictly ascending order; [getMaxPriority] is [-1] for an empty
    registry and otherwise a priority in use that no priority in use
    exceeds, so it is the last of the priority levels. *)
Theorem priority_levels_ascending (tagsConfig : list (string * Z)) :
  StronglySorted Z.lt (TagRegistry.getPriorityLevels tagsConfig) /\
  (forall level, level ∈ TagRegistry.getPriorityLevels tagsConfig <->
                 level ∈ Obj.values tagsConfig) /\
  (tagsConfig = [] -> TagRegistry.getMaxPriority tagsConfig = -1) /\
  (tagsConfig <> [] ->
     TagRegistry.getMaxPriority tagsConfig ∈ Obj.values tagsConfig /\
     forall level, level ∈ Obj.values tagsConfig ->
                   level <= TagRegistry.getMaxPriority tagsConfig) /\
  List.last (TagRegistry.getPriorityLevels tagsConfig) (-1)
  = TagRegistry.getMaxPriority tagsConfig.
Proof.
  unfold TagRegistry.getPriorityLevels, TagRegistry.getMaxPriority,
    TagRegistry.distinct.
  rewrite priorities_values.
  destruct (distinct_acc (Obj.values tagsConfig) []) as [Hnd Hin].
  set (levels := fold_left _ (Obj.values tagsConfig) []) in *.
  assert (Hle : StronglySorted Z.le (Js.sort (fun a b => a - b) levels)).
  { eapply StronglySorted_weaken; [|apply (sort_sorted (fun a b : Z => a - b))].
    all: cbv beta; intros; cbv beta in *; lia. }
  assert (Hmem : forall level, level ∈ Js.sort (fun a b => a - b) levels <->
                               level ∈ Obj.values tagsConfig).
  { intros level. rewrite elem_of_sort, Hin, elem_of_nil. tauto. }
  assert (Hmax : tagsConfig <> [] ->
            match Obj.values tagsConfig with
            | [] => -1
            | p :: ps => fold_left Z.max ps p
            end ∈ Obj.values tagsConfig /\
            forall level, level ∈ Obj.values tagsConfig ->
              level <= match Obj.values tagsConfig with
                       | [] => -1
                       | p :: ps => fold_left Z.max ps p
                       end).
  { intros Hne. destruct tagsConfig as [|[k0 p0] c]; [done|]. simpl.
    apply fold_max. }
  split; [|split; [exact Hmem|split; [by intros ->|split; [exact Hmax|]]]].
  - apply sorted_le_lt; [done|]. rewrite sort_perm. apply Hnd, NoDup_nil_2.
  - destruct tagsConfig as [|[k0 p0] c] eqn:Hc; [done|]. rewrite <- Hc in *.
    assert (Hne : tagsConfig <> []) by by rewrite Hc.
    destruct (Hmax Hne) as [Hm1 Hm2].
    assert (Hne' : Js.sort (fun a b => a - b) levels <> []).
    { intros Hnil. apply Hmem in Hm1. rewrite Hnil in Hm1.
      by apply elem_of_nil in Hm1. }
    destruct (sorted_last _ (-1) Hle Hne') as [Hl1 Hl2].
    apply Hmem in Hl1. apply Hm2 in Hl1. apply Hmem in Hm1. apply Hl2 in Hm1.
    lia.
Qed.

(** ** Deleting and renaming a tag *)

(** X23. Deleting a tag unregisters it and leaves the other tags
    registered as they were; if each project lists its tags without
    repetition, afterwards every project carries what it carried
    before except the deleted tag. *)
Theorem deleteTagCommand_forgets_tag
    (tagName : string) (tagsConfig : list (string * Z)) (st : Memento) :
  let r := deleteTagCommand tagName tagsConfig st in
  TagRegistry.exists_ r.1 tagName = false /\
  (forall k, k <> tagName -> Obj.get r.1 k = Obj.get tagsConfig k) /\
  ((forall p, NoDup (ProjectMetadataService.getTags p st)) ->
   forall p t, t ∈ ProjectMetadataService.getTags p r.2 <->
               t ∈ ProjectMetadataService.getTags p st /\ t <> tagName).
Proof.
  unfold deleteTagCommand, TagRegistry.deleteTag, TagRegistry.exists_. simpl.
  split; [by rewrite get_delete, String.eqb_refl|]. split.
  - intros k Hne. rewrite get_delete. by destruct (String.eqb_spec k tagName).
  - intros Hnd p t. rewrite MetadataAllFacts.getTags_clearTagFromAll.
    destruct (decide (t = tagName)) as [->|Hne].
    + split; [|by intros [_ ?]]. intros Hin.
      by apply (removeFirst_NoDup tagName _ (Hnd p)) in Hin.
    + rewrite elem_of_removeFirst_ne by done. tauto.
Qed.

(** X24. Renaming a registered tag to a name that, trimmed, differs
    from the old one: the trimmed name is registered with the tag's
    priority, the old name is registered no more, the other tags keep
    their priorities, and every project has the first occurrence of
    the old name replaced by the trimmed new name. *)
Theorem renameTagCommand_renames
    (oldName newName : string) (level : Z)
    (tagsConfig : list (string * Z)) (st : Memento) :
  Obj.get tagsConfig oldName = Some level ->
  newName <> EmptyString ->
  Js.trim newName <> oldName ->
  let r := renameTagCommand oldName (Some newName) tagsConfig st in
  Obj.get r.1 (Js.trim newName) = Some level /\
  Obj.get r.1 oldName = None /\
  (forall k, k <> oldName -> k <> Js.trim newName ->
     Obj.get r.1 k = Obj.get tagsConfig k) /\
  (forall p, ProjectMetadataService.getTags p r.2
             = MetadataAll.replaceFirst oldName (Js.trim newName)
                 (ProjectMetadataService.getTags p st)).
Proof.
  intros Hget Hnonempty Hne. unfold renameTagCommand.
  destruct newName as [|c newName]; [done|]. cbn [String.length Nat.eqb].
  destruct (String.eqb_spec (Js.trim (String c newName)) oldName) as [|_]; [done|].
  unfold TagRegistry.renameTag. rewrite Hget, trim_idem. simpl.
  split; [apply get_set_eq|]. split; [|split].
  - rewrite get_set_ne by done. by rewrite get_delete, String.eqb_refl.
  - intros k Hk1 Hk2. rewrite get_set_ne by done. rewrite get_delete.
    by destruct (String.eqb_spec k oldName).
  - intros p. apply MetadataAllFacts.getTags_renameTagInAll.
Qed.

Lemma renameTagCommand_renames_witness :
  let r := renameTagCommand "Frontend" (Some " UI ") (tags exampleConfig) exampleStore in
  Obj.get r.1 (Js.trim " UI ") = Some 0 /\
  Obj.get r.1 "Frontend" = None /\
  (forall k, k <> "Frontend" -> k <> Js.trim " UI " ->
     Obj.get r.1 k = Obj.get (tags exampleConfig) k) /\
  (forall p, ProjectMetadataService.getTags p r.2
             = MetadataAll.replaceFirst "Frontend" (Js.trim " UI ")
                 (ProjectMetadataService.getTags p exampleStore)).
Proof.
  apply (renameTagCommand_renames "Frontend" " UI " 0 (tags exampleConfig) exampleStore).
  - reflexivity.
  - done.
  - vm_compute. done.
Defined.

(** ** The project list *)

Section LoadProjects.
Context `{Platform}.




End LoadProjects.

(** ** Drag and drop *)

Section DragAndDrop.
Context `{Platform}.

Lemma isSaved_saveProject_iff fs now p q st :
  isSaved fs q (saveProject fs now p st) = true <->
  isSaved fs q st = true \/ (q = p /\ existsSync fs p = true).
Proof.
  destruct (decide (q = p)) as [->|Hne].
  - rewrite isSaved_saveProject. split; [by right|].
    intros [Hs|[_ ?]]; [by apply isSaved_exists in Hs|done].
  - rewrite isSaved_saveProject_ne by done. split; [by left|].
    by intros [?|[? _]].
Qed.

Lemma getTags_saveProject fs now p q st :
  ProjectMetadataService.getTags q (saveProject fs now p st)
  = ProjectMetadataService.getTags q st.
Proof.
  unfold saveProject.
  by destruct (Js.some (getSavedProjects fs st) _).
Qed.

Lemma isSaved_addTag fs q p t st :
  isSaved fs q (ProjectMetadataService.addTag p t st) = isSaved fs q st.
Proof.
  unfold ProjectMetadataService.addTag.
  by destruct (negb (Js.includes (ProjectMetadataService.getTags p st) t)).
Qed.

Lemma elem_of_getTags_addTag p q t t' st :
  t' ∈ ProjectMetadataService.getTags q (ProjectMetadataService.addTag p t st) <->
  t' ∈ ProjectMetadataService.getTags q st \/ (q = p /\ t' = t).
Proof.
  destruct (decide (p = q)) as [->|Hne].
  - rewrite MetadataAllFacts.getTags_addTag.
    destruct (Js.includes (ProjectMetadataService.getTags q st) t) eqn:Hinc.
    + apply includes_true in Hinc. split; [by left|]. by intros [?|[_ ->]].
    + rewrite elem_of_app, list_elem_of_singleton. tauto.
  - rewrite MetadataAllFacts.getTags_addTag_ne by done. split; [by left|].
    intros [?|[? _]]; [done|congruence].
Qed.

Lemma fold_addTag fs p tagIds st :
  let st' := fold_left (fun st tagId => ProjectMetadataService.addTag p tagId st)
               tagIds st in
  (forall q, isSaved fs q st' = isSaved fs q st) /\
  (forall q t, t ∈ ProjectMetadataService.getTags q st' <->
               t ∈ ProjectMetadataService.getTags q st \/ (q = p /\ t ∈ tagIds)).
Proof.
  revert st. induction tagIds as [|t0 tagIds IH]; intros st; simpl.
  - split; [done|]. intros q t. rewrite elem_of_nil. tauto.
  - destruct (IH (ProjectMetadataService.addTag p t0 st)) as [Hs Ht]. split.
    + intros q. by rewrite Hs, isSaved_addTag.
    + intros q t. rewrite Ht, elem_of_getTags_addTag, elem_of_cons. tauto.
Qed.

Lemma saveRecentAsProjects_effect fs now dragged targetTagIds st :
  let st' := saveRecentAsProjects fs now dragged targetTagIds st in
  (forall q, isSaved fs q st' = true <->
             isSaved fs q st = true \/
             ((q, true) ∈ dragged /\ existsSync fs q = true)) /\
  (forall q t, t ∈ ProjectMetadataService.getTags q st' <->
               t ∈ ProjectMetadataService.getTags q st \/
               (q ∈ List.map fst dragged /\
                exists tagIds, targetTagIds = Some tagIds /\ t ∈ tagIds)).
Proof.
  unfold saveRecentAsProjects.
  revert st. induction dragged as [|[p b] dragged IH]; intros st; simpl.
  - split.
    + intros q. rewrite elem_of_nil. tauto.
    + intros q t. rewrite elem_of_nil. tauto.
  - match goal with |- context [fold_left ?f dragged ?s] =>
      destruct (IH s) as [Hs Ht]; set (st1 := s) in * end.
    assert (Hs1 : forall q, isSaved fs q st1 = true <->
                isSaved fs q st = true \/ (q = p /\ b = true /\ existsSync fs q = true)).
    { intros q. unfold st1.
      assert (Hb : isSaved fs q (if b then saveProject fs now p st else st) = true <->
                isSaved fs q st = true \/ (q = p /\ b = true /\ existsSync fs q = true)).
      { destruct b.
        - rewrite isSaved_saveProject_iff. split; (intros [?|Hq]; [by left|right]).
          + destruct Hq as [-> ?]. done.
          + destruct Hq as (-> & _ & ?). done.
        - split; [by left|]. by intros [?|(_ & ? & _)]. }
      destruct targetTagIds as [tagIds|]; [|exact Hb].
      by rewrite (proj1 (fold_addTag fs p tagIds _)). }
    assert (Ht1 : forall q t, t ∈ ProjectMetadataService.getTags q st1 <->
                t ∈ ProjectMetadataService.getTags q st \/
                (q = p /\ exists tagIds, targetTagIds = Some tagIds /\ t ∈ tagIds)).
    { intros q t. unfold st1.
      assert (Hb : ProjectMetadataService.getTags q
                     (if b then saveProject fs now p st else st)
                   = ProjectMetadataService.getTags q st).
      { destruct b; [apply getTags_saveProject|done]. }
      destruct targetTagIds as [tagIds|].
      - rewrite (proj2 (fold_addTag fs p tagIds _)), Hb.
        split; (intros [?|[-> Hx]]; [by left|right; split; [done|]]).
        + by exists tagIds.
        + by destruct Hx as (? & [= <-] & ?).
      - rewrite Hb. split; [by left|]. by intros [?|(_ & ? & ? & _)]. }
    split.
    + intros q. rewrite Hs, Hs1, elem_of_cons. split.
      * intros [[?|(-> & -> & ?)]|[? ?]]; [by left|right..].
        -- split; [by left|done].
        -- split; [by right|done].
      * intros [?|[[[= -> ->]|?] ?]]; [by left; left| |by right].
        left. right. done.
    + intros q t. rewrite Ht, Ht1, elem_of_cons. simpl. tauto.
Qed.

Lemma fold_setTags_nil fs (dragged : list (string * bool)) st :
  let st' := fold_left (fun st '(p, _) => ProjectMetadataService.setTags p [] st)
               dragged st in
  (forall q, isSaved fs q st' = isSaved fs q st) /\
  (forall q t, t ∈ ProjectMetadataService.getTags q st' <->
               t ∈ ProjectMetadataService.getTags q st /\
               q ∉ List.map fst dragged).
Proof.
  revert st. induction dragged as [|[p b] dragged IH]; intros st; simpl.
  - split; [done|]. intros q t. split; [|by intros [? _]].
    intros ?. split; [done|apply not_elem_of_nil].
  - destruct (IH (ProjectMetadataService.setTags p [] st)) as [Hs Ht]. split.
    + intros q. by rewrite Hs.
    + intros q t. rewrite Ht, not_elem_of_cons.
      destruct (decide (p = q)) as [->|Hne].
      * rewrite MetadataFacts.getTags_setTags_eq. rewrite elem_of_nil. tauto.
      * rewrite MetadataFacts.setTags_other by done.
        assert (q <> p) by congruence. tauto.
Qed.

(** X26. The effect of a drop carrying items of this view.  A dragged
    recent folder that exists on disk is saved, unless the drop is on no
    group; nothing else changes what is saved.  Dropped on a tag node,
    each dragged path ends up carrying all tags of the node's tag path
    and loses none; dropped on the untagged group, each dragged path
    loses all its tags; other paths, and drops elsewhere, change no
    tags. *)
Theorem handleDrop_effect
    (fs : FileSystem) (now : Z) (target : DropTarget)
    (dragged : list (string * bool)) (st : Memento) :
  let st' := handleDrop fs now target (Some dragged) st in
  (forall q, isSaved fs q st' = true <->
             isSaved fs q st = true \/
             (target <> DropElsewhere /\ (q, true) ∈ dragged /\
              existsSync fs q = true)) /\
  (forall q t, t ∈ ProjectMetadataService.getTags q st' <->
     match target with
     | DropOnTag tagPath =>
         t ∈ ProjectMetadataService.getTags q st \/
         (q ∈ List.map fst dragged /\ t ∈ tagPath)
     | DropOnUntagged =>
         t ∈ ProjectMetadataService.getTags q st /\ q ∉ List.map fst dragged
     | DropOnProjectsRoot | DropElsewhere =>
         t ∈ ProjectMetadataService.getTags q st
     end).
Proof.
  destruct target as [|tagPath| |]; simpl.
  - destruct (saveRecentAsProjects_effect fs now dragged None st) as [Hs Ht].
    split.
    + intros q. rewrite Hs. split; (intros [?|?]; [by left|right]); [done|tauto].
    + intros q t. rewrite Ht. split; [|by left].
      by intros [?|(_ & ? & ? & _)].
  - destruct (saveRecentAsProjects_effect fs now dragged (Some tagPath) st)
      as [Hs Ht].
    split.
    + intros q. rewrite Hs. split; (intros [?|?]; [by left|right]); [done|tauto].
    + intros q t. rewrite Ht. split; (intros [?|[? Hx]]; [by left|right]).
      * by destruct Hx as (? & [= <-] & ?).
      * split; [done|]. by exists tagPath.
  - destruct (saveRecentAsProjects_effect fs now dragged None st) as [Hs Ht].
    destruct (fold_setTags_nil fs dragged (saveRecentAsProjects fs now dragged None st))
      as [Hs' Ht'].
    split.
    + intros q. rewrite Hs', Hs.
      split; (intros [?|?]; [by left|right]); [done|tauto].
    + intros q t. rewrite Ht', Ht. split.
      * intros [[?|(_ & ? & ? & _)] ?]; done.
      * intros [? ?]. split; [by left|done].
  - split.
    + intros q. split; [by left|]. by intros [?|[? _]].
    + done.
Qed.
End DragAndDrop.

(** ** The untagged group and the flat list *)

Section ProjectItems.
Context `{Platform}.

Lemma sortProjects_perm (l : list Project) o d st : sortProjects l o d st ≡ₚ l.
Proof.
  unfold sortProjects, sortProjectsByName, sortProjectsByRecent.
  destruct o, d; simpl; try apply sort_perm.
  all: etrans; [symmetry; apply Permutation_rev|apply sort_perm].
Qed.

Lemma findProjectByPath_first this (pr : Project) (rest : list Project) :
  _projects this = pr :: rest -> findProjectByPath this (path pr) = Some pr.
Proof.
  intros Hp. unfold findProjectByPath. rewrite Hp. simpl.
  by rewrite String.eqb_refl.
Qed.

Lemma find_by_path (projects : list Project) (p : string) :
  match List.find (fun pr => String.eqb (path pr) p) projects with
  | Some pr => pr ∈ projects /\ path pr = p
  | None => p ∉ List.map path projects
  end.
Proof.
  induction projects as [|pr projects IH]; simpl; [apply not_elem_of_nil|].
  destruct (String.eqb_spec (path pr) p) as [Heq|Hne].
  - split; [by left|done].
  - destruct (List.find _ projects) as [pr'|].
    + destruct IH. split; [by right|done].
    + apply not_elem_of_cons. by split.
Qed.

Lemma omap_find_length (projects : list Project) (paths : list string) :
  (forall p, p ∈ paths -> p ∈ List.map path projects) ->
  length (omap (fun p => List.find (fun pr => String.eqb (path pr) p) projects) paths)
  = length paths.
Proof.
  induction paths as [|p paths IH]; intros Hall; simpl; [done|].
  pose proof (find_by_path projects p) as Hf.
  destruct (List.find _ projects) as [pr|].
  - simpl. f_equal. apply IH. intros q Hq. apply Hall. by right.
  - exfalso. apply Hf, Hall. by left.
Qed.

Lemma untagged_item_count config st this n :
  UntaggedTreeItem n ∈ getTagHierarchyRoot config st this ->
  n = length (ProjectMetadataService.getUntaggedProjects
                (List.map path (_projects this)) st) /\ (0 < n)%nat.
Proof.
  assert (Hflat : forall (f : ProjectTag -> list ProjectsTreeElement) l,
             (forall t x, x ∈ f t -> exists a b c d e, x = TagTreeItem a b c d e) ->
             UntaggedTreeItem n ∈ flat_map f l -> False).
  { intros f l Hf Hin. apply list_elem_of_In, in_flat_map in Hin as (t & _ & Hx).
    apply list_elem_of_In, Hf in Hx as (? & ? & ? & ? & ? & ?). done. }
  assert (Hone : forall (b : bool) m,
             UntaggedTreeItem n ∈ (if b && (0 <? m)%nat
                                   then [UntaggedTreeItem m] else []) ->
             n = m /\ (0 < n)%nat).
  { intros b m. destruct b; simpl; [|by intros ?%elem_of_nil].
    destruct (Nat.ltb_spec 0 m); [|by intros ?%elem_of_nil].
    intros [= ->]%list_elem_of_singleton. done. }
  unfold getTagHierarchyRoot.
  set (count := length (ProjectMetadataService.getUntaggedProjects _ st)).
  destruct (0 <? length (_filterTagIds this))%nat.
  - destruct (0 <? length (filterTagNames this))%nat; [|apply Hone].
    intros [Hin|Hin]%elem_of_app; [by apply Hone in Hin|].
    exfalso. revert Hin. apply Hflat. intros t x.
    destruct (0 <? _)%nat; [|by intros ?%elem_of_nil].
    intros ->%list_elem_of_singleton. by repeat eexists.
  - intros [Hin|Hin]%elem_of_app.
    + exfalso. revert Hin. apply Hflat. intros t x.
      destruct (0 <? _)%nat; [|by intros ?%elem_of_nil].
      intros ->%list_elem_of_singleton. by repeat eexists.
    + apply (Hone true). exact Hin.
Qed.

(** X27. The number shown on the untagged group is the number of its
    children, and it is positive; each child is a project of the list
    without tags, shown without tag description. *)
Theorem untagged_group_count
    (fs : FileSystem) (config : ProjectoryConfig) (st : Memento)
    (this : ProjectsTreeProvider) (n : nat) :
  UntaggedTreeItem n ∈ getTagHierarchyRoot config st this ->
  n = length (getUntaggedProjects fs config st this) /\
  (0 < n)%nat /\
  forall item, item ∈ getUntaggedProjects fs config st this ->
    item_project item ∈ _projects this /\
    untagged st (item_project item) /\
    item_tagDescription item = None.
Proof.
  intros [-> Hpos]%untagged_item_count. split; [|split; [done|]].
  - unfold getUntaggedProjects. rewrite length_map.
    rewrite (Permutation_length (sortProjects_perm _ _ _ _)).
    unfold findProjectByPath. rewrite omap_find_length; [done|].
    intros p Hp. unfold ProjectMetadataService.getUntaggedProjects in Hp.
    by apply elem_of_filter_bool in Hp as [Hp _].
  - intros item. unfold getUntaggedProjects.
    intros (pr & <- & Hpr)%elem_of_map_iff. simpl.
    rewrite sortProjects_perm in Hpr.
    apply list_elem_of_omap in Hpr as (p & Hp & Hfind).
    unfold findProjectByPath in Hfind.
    pose proof (find_by_path (_projects this) p) as Hf. rewrite Hfind in Hf.
    destruct Hf as [Hin Heq]. split; [done|]. split; [|done].
    unfold untagged. rewrite Heq.
    unfold ProjectMetadataService.getUntaggedProjects in Hp.
    apply elem_of_filter_bool in Hp as [_ Hp].
    unfold ProjectMetadataService.getTags, ProjectMetadataService.getMetadata.
    destruct (ProjectMetadataService.getAll st !! p) as [[ids]|]; simpl in *; [|done].
    by destruct ids.
Qed.

End ProjectItems.

Lemma untagged_group_count_witness :
  1%nat = length (getUntaggedProjects (H := Posix.platform) noFs exampleConfig
                    exampleStore unfilteredTree) /\
  (0 < 1)%nat /\
  forall item,
    item ∈ getUntaggedProjects (H := Posix.platform) noFs exampleConfig exampleStore
             unfilteredTree ->
    item_project item ∈ _projects unfilteredTree /\
    untagged exampleStore (item_project item) /\
    item_tagDescription item = None.
Proof.
  apply (untagged_group_count (H := Posix.platform) noFs exampleConfig exampleStore
           unfilteredTree 1).
  vm_compute. do 2 right. left.
Defined.

(** ** Suggestions under a stricter configuration *)

Lemma filter_bool_sublist_impl {A : Type} (f g : A -> bool) (l : list A) :
  (forall x, f x = true -> g x = true) ->
  sublist (List.filter f l) (List.filter g l).
Proof.
  intros Himp. induction l as [|x l IH]; simpl; [done|].
  destruct (f x) eqn:Hf.
  - rewrite (Himp x Hf). by apply sublist_skip.
  - destruct (g x); [by apply sublist_cons|done].
Qed.

Section StricterConfig.
Context `{Platform}.

(** X29. Asking for at least as many opens and looking back at most as
    many days never adds a suggestion: the suggestible folders of the
    stricter configuration are, in order, among those of the other. *)
Theorem stricter_config_fewer_suggestions
    (fs : FileSystem) (now : Z) (config strict : SuggestionConfig) (st : Memento) :
  enabled config = true ->
  minOpenCount config <= minOpenCount strict ->
  timePeriodDays strict <= timePeriodDays config ->
  sublist (getSuggestibleFolders fs now strict st).1
          (getSuggestibleFolders fs now config st).1.
Proof.
  intros Hen Hmin Hdays. unfold getSuggestibleFolders. rewrite Hen. simpl.
  destruct (enabled strict); simpl; [|apply sublist_nil_l].
  unfold getFrequentFolders. rewrite !filter_bool_filter.
  apply filter_bool_sublist_impl. intros e.
  rewrite !andb_true_iff, !Z.leb_le. intros [Hm Hp]. split; [lia|].
  revert Hp.
  repeat match goal with
  | |- context [Js.includes ?l ?x] => destruct (Js.includes l x); [done|]
  end.
  destruct (Z.ltb_spec (lastOpened e) (now - timePeriodDays strict * 24 * 60 * 60 * 1000));
    [done|].
  destruct (Z.ltb_spec (lastOpened e) (now - timePeriodDays config * 24 * 60 * 60 * 1000));
    [lia|done].
Qed.
End StricterConfig.

Lemma stricter_config_fewer_suggestions_witness :
  sublist
    (getSuggestibleFolders (H := Posix.platform) suggestionFs (100 * day)
       strictConfig suggestionStore).1
    (getSuggestibleFolders (H := Posix.platform) suggestionFs (100 * day)
       suggestionConfig suggestionStore).1.
Proof.
  apply (stricter_config_fewer_suggestions (H := Posix.platform) suggestionFs
           (100 * day) suggestionConfig strictConfig suggestionStore).
  - reflexivity.
  - simpl. lia.
  - simpl. lia.
Defined.
